(** * E-Mart backend (server.js): a shallow embedding and its properties

    The development follows the layout of [server.js]:
    - [JsNum]   : the JavaScript numbers and coercions the handlers rely on
                  ([Number(x)], [x - 1], [x * y], [x / y], [Math.ceil]), with
                  results rounded to binary64;
    - [Regex]   : the [$regex] operator of the document store;
    - [Mongo]   : documents, query objects and the store operations that the
                  handlers call through mongoose;
    - [Jwt]     : [jwt.sign] / [jwt.verify] of the jsonwebtoken package;
    - [Server]  : the middleware and route handlers of [server.js] itself,
                  on requests whose query parameters and body members are
                  strings;
    - [Spec]    : the filter of the listing in the words of the
                  specification, to compare the handler's query with;
    - [Routes]  : its other routes (logout, latest, categories, brands, seed)
                  and the start-up seeding;
    - [Body]    : the login handler on a body of arbitrary JSON values.

    Third-party behaviour that [server.js] does not determine (the hashing
    primitive, the MAC of the token, the regex engine beyond literal
    patterns, the driver's reaction to a non-natural skip or limit, number
    parsing beyond plain decimal numerals) is taken as a section variable, so
    every theorem holds whatever those components do. *)

From Stdlib Require Import ZArith QArith Qround Ascii String List Lia Lqa Permutation Sorted.
From stdpp Require Import base option strings list gmap pretty.

Local Open Scope string_scope.
Local Open Scope Z_scope.

(** ** JavaScript numbers *)

Module JsNum.

(** A JavaScript number: a finite value, an infinity or NaN. A finite value
    is the rational a binary64 number denotes; what the operations compute
    is rounded to the nearest such number by [round64]. Negative zero is not
    represented: it is read as zero. *)
Inductive jsnum :=
| Num (q : Q)
| PosInf
| NegInf
| NaN.

(** The number of an integer literal or of a count; it is a binary64 number
    when its magnitude is at most 2^53. *)
Definition of_Z (z : Z) : jsnum := Num (inject_Z z).
Definition of_nat (n : nat) : jsnum := of_Z (Z.of_nat n).

Definition Qsign (q : Q) : Z := Z.sgn (Qnum q).

(** *** Rounding to binary64 *)

(** [n / d] rounded to the nearest integer, a tie to the even one
    ([d > 0]). *)
Definition nearest_even (n d : Z) : Z :=
  let k := n / d in
  match 2 * (n mod d) ?= d with
  | Lt => k
  | Gt => k + 1
  | Eq => if Z.even k then k else k + 1
  end.

(** The exponent [e] of the last place of [a / b] ([a, b > 0]): the one with
    [2^52 <= a / b / 2^e < 2^53], and -1074 for the subnormal numbers. *)
Definition last_place (a b : Z) : Z :=
  let e0 := Z.log2 a - Z.log2 b - 52 in
  let e := if a * 2 ^ Z.max 0 (- e0) <? b * 2 ^ 52 * 2 ^ Z.max 0 e0
           then e0 - 1 else e0 in
  Z.max e (-1074).

(** The binary64 number nearest to [q], ties to the even significand; an
    infinity from 2^1024 - 2^970 on. *)
Definition round64 (q : Q) : jsnum :=
  let a := Z.abs (Qnum q) in
  let b := Zpos (Qden q) in
  if a =? 0 then Num 0
  else
    let e := last_place a b in
    let m := nearest_even (a * 2 ^ Z.max 0 (- e)) (b * 2 ^ Z.max 0 e) in
    if (971 <? e) || ((e =? 971) && (m =? 2 ^ 53))
    then (if 0 <? Qnum q then PosInf else NegInf)
    else Num (Qred (Qmake (Z.sgn (Qnum q) * m * 2 ^ Z.max 0 e)
                          (Z.to_pos (2 ^ Z.max 0 (- e))))).

(** [a - b] *)
Definition sub (a b : jsnum) : jsnum :=
  match a, b with
  | NaN, _ | _, NaN => NaN
  | Num x, Num y => round64 (x - y)
  | Num _, PosInf => NegInf
  | Num _, NegInf => PosInf
  | PosInf, PosInf => NaN
  | PosInf, _ => PosInf
  | NegInf, NegInf => NaN
  | NegInf, _ => NegInf
  end.

Definition inf_of_sign (s : Z) : jsnum :=
  if s =? 0 then NaN else if 0 <? s then PosInf else NegInf.

(** [a * b] *)
Definition mul (a b : jsnum) : jsnum :=
  match a, b with
  | NaN, _ | _, NaN => NaN
  | Num x, Num y => round64 (x * y)
  | Num x, PosInf | PosInf, Num x => inf_of_sign (Qsign x)
  | Num x, NegInf | NegInf, Num x => inf_of_sign (- Qsign x)
  | PosInf, PosInf | NegInf, NegInf => PosInf
  | PosInf, NegInf | NegInf, PosInf => NegInf
  end.

(** [a / b] *)
Definition div (a b : jsnum) : jsnum :=
  match a, b with
  | NaN, _ | _, NaN => NaN
  | Num x, Num y =>
      if Qsign y =? 0 then inf_of_sign (Qsign x) else round64 (x / y)
  | Num _, (PosInf | NegInf) => Num 0
  | PosInf, Num y => if Qsign y <? 0 then NegInf else PosInf
  | NegInf, Num y => if Qsign y <? 0 then PosInf else NegInf
  | (PosInf | NegInf), (PosInf | NegInf) => NaN
  end.

(** [Math.ceil(a)] *)
Definition ceil (a : jsnum) : jsnum :=
  match a with
  | Num x => of_Z (Qceiling x)
  | other => other
  end.


(** The natural number a JavaScript number denotes, if it denotes one. *)
Definition as_nat (a : jsnum) : option nat :=
  match a with
  | Num x =>
      if (Qnum x mod Zpos (Qden x) =? 0) && (0 <=? Qnum x)
      then Some (Z.to_nat (Qnum x / Zpos (Qden x)))
      else None
  | _ => None
  end.

(** *** [Number(s)] on strings

    The numerals [sign? digits+ (. digits+)?] are read here, to the nearest
    binary64 number; the empty string is 0. Every other string (surrounding
    white space, exponents, hex, a negative numeral that is or rounds to
    zero, [Infinity], text that is no numeral) is left to [other]. *)

Definition digit_of (c : ascii) : option Z :=
  let n := Z.of_N (N_of_ascii c) in
  if (48 <=? n) && (n <=? 57) then Some (n - 48) else None.

(** Value of a non-empty run of decimal digits, most significant first. *)
Fixpoint digits_from (acc : Z) (s : string) : option Z :=
  match s with
  | EmptyString => Some acc
  | String c r =>
      match digit_of c with
      | Some d => digits_from (10 * acc + d) r
      | None => None
      end
  end.

Definition digits (s : string) : option Z :=
  match s with
  | EmptyString => None
  | _ => digits_from 0 s
  end.

(** Split at the first full stop. *)
Fixpoint split_dot (s : string) : string * option string :=
  match s with
  | EmptyString => (EmptyString, None)
  | String c r =>
      if Ascii.eqb c "."%char then (EmptyString, Some r)
      else let '(i, f) := split_dot r in (String c i, f)
  end.

Definition unsigned_decimal (s : string) : option Q :=
  match split_dot s with
  | (i, None) => inject_Z <$> digits i
  | (i, Some f) =>
      match digits i, digits f with
      | Some iv, Some fv =>
          let scale := 10 ^ Z.of_nat (String.length f) in
          Some (Qred (Qmake (iv * scale + fv) (Z.to_pos scale)))
      | _, _ => None
      end
  end.

Definition decimal (s : string) : option Q :=
  match s with
  | String "-"%char r =>
      match unsigned_decimal r with
      | Some q => if Qnum q =? 0 then None else Some (Qopp q)
      | None => None
      end
  | String "+"%char r => unsigned_decimal r
  | _ => unsigned_decimal s
  end.

(** A value bound by the destructuring of [req.query]: a string taken from
    the query string, or the numeric default of the pattern. *)
Inductive jsval :=
| VNumber (n : jsnum)
| VString (s : string).

Section ToNumber.
(** [Number(s)] outside the numerals read by [decimal]. *)
Variable other : string -> jsnum.

Definition of_string (s : string) : jsnum :=
  match s with
  | EmptyString => of_Z 0
  | _ => match decimal s with
         | Some q =>
             match round64 q with
             | Num r => if (Qnum q <? 0) && (Qnum r =? 0) then other s else Num r
             | inf => inf
             end
         | None => other s
         end
  end.

(** [Number(v)], also the implicit coercion of [v - 1], [a * v], [a / v]. *)
Definition to_number (v : jsval) : jsnum :=
  match v with
  | VNumber n => n
  | VString s => of_string s
  end.
End ToNumber.

(** Truthiness of a string: every string but the empty one. *)
Definition truthy (s : string) : bool := negb (String.eqb s "").

(** Truthiness of a possibly [undefined] string. *)
Definition truthy_opt (o : option string) : bool :=
  match o with
  | Some s => truthy s
  | None => false
  end.

End JsNum.


(** ** The [$regex] operator *)

Module Regex.

(** ASCII lower-casing, the folding of the [i] option on ASCII text. *)
Definition lower (c : ascii) : ascii :=
  let n := N_of_ascii c in
  if ((65 <=? n) && (n <=? 90))%N then ascii_of_N (n + 32) else c.

Fixpoint lower_string (s : string) : string :=
  match s with
  | EmptyString => EmptyString
  | String c r => String (lower c) (lower_string r)
  end.

Definition is_ascii (c : ascii) : bool := (N_of_ascii c <? 128)%N.

Fixpoint ascii_only (s : string) : bool :=
  match s with
  | EmptyString => true
  | String c r => is_ascii c && ascii_only r
  end.

(** The characters with a meaning of their own in a pattern. *)
Definition is_meta (c : ascii) : bool :=
  existsb (Ascii.eqb c)
    (list_ascii_of_string "\^$.|?*+()[]{}").

(** A character that stands for itself in a pattern. *)
Definition is_plain (c : ascii) : bool := is_ascii c && negb (is_meta c).

(** A pattern of the fragment is a sequence of plain characters and dots. *)
Inductive atom :=
| Lit (c : ascii)
| AnyChar.

Fixpoint fragment (pattern : string) : option (list atom) :=
  match pattern with
  | EmptyString => Some []
  | String c r =>
      if Ascii.eqb c "."%char then cons AnyChar <$> fragment r
      else if is_plain c then cons (Lit c) <$> fragment r
      else None
  end.

(** The options understood here: none, or [i]. *)
Definition flags (options : string) : option bool :=
  if String.eqb options "" then Some false
  else if String.eqb options "i" then Some true
  else None.

Definition atom_matches (ci : bool) (a : atom) (c : ascii) : bool :=
  match a with
  | Lit x => if ci then Ascii.eqb (lower x) (lower c) else Ascii.eqb x c
  | AnyChar => negb (Ascii.eqb c "010"%char)
  end.

(** The atoms match a prefix of the subject. *)
Fixpoint matches_here (ci : bool) (atoms : list atom) (subject : string) : bool :=
  match atoms, subject with
  | [], _ => true
  | _ :: _, EmptyString => false
  | a :: atoms', String c r => atom_matches ci a c && matches_here ci atoms' r
  end.

(** An unanchored pattern matches if it matches at some position. *)
Fixpoint search (ci : bool) (atoms : list atom) (subject : string) : bool :=
  matches_here ci atoms subject ||
  match subject with
  | EmptyString => false
  | String _ r => search ci atoms r
  end.

Section Engine.
(** The engine on patterns or options outside the fragment: [None] when it
    rejects the pattern, else the matching function. *)
Variable other_pattern : string -> string -> option (string -> bool).
(** The engine on a pattern of the fragment and a subject with characters
    beyond ASCII. *)
Variable other_subject : string -> string -> string -> bool.

Definition test (pattern options : string) : option (string -> bool) :=
  match fragment pattern, flags options with
  | Some atoms, Some ci =>
      Some (fun subject =>
              if ascii_only subject then search ci atoms subject
              else other_subject pattern options subject)
  | _, _ => other_pattern pattern options
  end.
End Engine.

(** A search string without a character that has a meaning in a pattern. *)
Fixpoint literal (s : string) : bool :=
  match s with
  | EmptyString => true
  | String c r => is_plain c && literal r
  end.

Fixpoint lits (s : string) : list atom :=
  match s with
  | EmptyString => []
  | String c r => Lit c :: lits r
  end.

(** Case-insensitive substring, as a specification: the needle occurs in the
    subject once both are lower-cased. *)
Definition ci_substring (needle subject : string) : Prop :=
  exists pre post : string,
    lower_string subject = pre ++ lower_string needle ++ post.

End Regex.

(** ** Rejections and [await] *)

Module Js.

(** What a rejected or throwing operation carries into the [catch] block. *)
Inductive fault :=
| CastError (path value : string)   (* a value cannot be cast to the schema type *)
| ValidationError (path : string)   (* a required path is empty *)
| CommandError (msg : string)       (* the server rejects the command *)
| DuplicateKey (path : string)      (* a unique index is violated *)
| Unreachable (msg : string)        (* no answer from the store *)
| JsonWebTokenError (msg : string)  (* jsonwebtoken: malformed or badly signed *)
| TokenExpiredError (expiredAt : Z) (* jsonwebtoken: past the expiry *)
| TimespanError (span : string).    (* jsonwebtoken: unreadable [expiresIn] *)

(** The outcome of an awaited operation: a value, or a rejection. *)
Inductive result (A : Type) :=
| Ok (a : A)
| Throw (e : fault).
Arguments Ok {A} a.
Arguments Throw {A} e.

(** Awaiting in sequence: the first rejection ends the sequence. *)
#[global] Instance result_bind : MBind result := fun A B k r =>
  match r with
  | Ok a => k a
  | Throw e => Throw e
  end.
#[global] Instance result_ret : MRet result := @Ok.

End Js.

(** ** The document store, as the handlers use it through mongoose *)

Module Mongo.
Import JsNum Js.

(** [userSchema] *)
Module User.
Record t := mk {
  _id : string;
  name : string;
  email : string;
  password : string;
  createdAt : Z
}.
End User.

(** [productSchema]; the schema declares no [createdAt] path. *)
Module Review.
Record t := mk {
  user : string;
  comment : string;
  rating : Q;
  date : Z
}.
End Review.

Module Product.
Record t := mk {
  _id : string;
  name : string;
  title : string;
  brand : string;
  category : string;
  price : Q;
  rating : Q;
  description : string;
  stock : Q;
  image : string;
  reviews : list Review.t
}.
End Product.

(** The state of the store: the two collections, in natural order, and
    whether the store answers ([outage = Some msg]: every operation is
    rejected with [msg]). *)
Record db := mkdb {
  users : list User.t;
  products : list Product.t;
  outage : option string
}.

Definition connected (st : db) : result unit :=
  match outage st with
  | Some msg => Throw (Unreachable msg)
  | None => Ok tt
  end.

(** *** ObjectId casting *)

Definition is_hex (c : ascii) : bool :=
  let n := N_of_ascii c in
  (((48 <=? n) && (n <=? 57)) || ((65 <=? n) && (n <=? 70)) ||
   ((97 <=? n) && (n <=? 102)))%N.

Fixpoint all_hex (s : string) : bool :=
  match s with
  | EmptyString => true
  | String c r => is_hex c && all_hex r
  end.

Section Cast.
(** Drivers differ on 12-character strings (some read them as 12 raw
    bytes); their treatment is left open. *)
Variable legacy12 : string -> option string.

(** A 24-digit hex string is an ObjectId (compared without case); any other
    string, apart from the 12-character ones, is rejected. *)
Definition cast_object_id (s : string) : option string :=
  if (String.length s =? 24)%nat && all_hex s then Some (Regex.lower_string s)
  else if (String.length s =? 12)%nat then legacy12 s
  else None.
End Cast.

(** *** Query objects *)

(** [{ $regex: pattern, $options: options }] *)
Record regex_cond := mkre {
  regex : string;
  options : string
}.

(** [{ $gte, $lte }], each possibly absent. *)
Record range := mkrange {
  gte : option jsnum;
  lte : option jsnum
}.

(** The object [query] of the listing handler: each key possibly absent. *)
Module Query.
Record t := mk {
  or : option (list (string * regex_cond));   (* $or: [{ field: cond }, ...] *)
  category : option string;
  brand : option string;
  price : option range
}.
Definition empty : t := mk None None None None.
Definition set_or (v : list (string * regex_cond)) (q : t) : t :=
  mk (Some v) (category q) (brand q) (price q).
Definition set_category (v : string) (q : t) : t :=
  mk (or q) (Some v) (brand q) (price q).
Definition set_brand (v : string) (q : t) : t :=
  mk (or q) (category q) (Some v) (price q).
Definition set_price (v : range) (q : t) : t :=
  mk (or q) (category q) (brand q) (Some v).
End Query.

(** The string stored under a path of [productSchema], if it holds one. *)
Definition text_field (path : string) (p : Product.t) : option string :=
  if String.eqb path "name" then Some (Product.name p)
  else if String.eqb path "title" then Some (Product.title p)
  else if String.eqb path "brand" then Some (Product.brand p)
  else if String.eqb path "category" then Some (Product.category p)
  else if String.eqb path "description" then Some (Product.description p)
  else if String.eqb path "image" then Some (Product.image p)
  else None.

(** A numeric bound as the schema's Number cast accepts it: NaN is refused. *)
Definition cast_bound (path : string) (b : jsnum) : result jsnum :=
  match b with
  | NaN => Throw (CastError path "NaN")
  | other => Ok other
  end.

Definition num_leb (a b : jsnum) : bool :=
  match a, b with
  | NaN, _ | _, NaN => false
  | NegInf, _ | _, PosInf => true
  | Num x, Num y => Qle_bool x y
  | _, _ => false
  end.

Section Matching.
Variable regex_other_pattern : string -> string -> option (string -> bool).
Variable regex_other_subject : string -> string -> string -> bool.

(** One clause [{ path: { $regex, $options } }] as a predicate. *)
Definition compile_regex (clause : string * regex_cond)
  : result (Product.t -> bool) :=
  let '(path, c) := clause in
  match Regex.test regex_other_pattern regex_other_subject (regex c) (options c) with
  | None => Throw (CommandError "Regular expression is invalid")
  | Some m =>
      Ok (fun p => match text_field path p with
                   | Some s => m s
                   | None => false
                   end)
  end.

(** What it means for a clause to hold of a document: the document has a
    text [s] under the path and the pattern matches [s]. *)
Definition clause_holds (clause : string * regex_cond) (p : Product.t) : Prop :=
  exists m s,
    Regex.test regex_other_pattern regex_other_subject
      (regex (snd clause)) (options (snd clause)) = Some m /\
    text_field (fst clause) p = Some s /\ m s = true.

(** [$or]: some clause holds. *)
Fixpoint compile_or (clauses : list (string * regex_cond))
  : result (Product.t -> bool) :=
  match clauses with
  | [] => Ok (fun _ => false)
  | c :: rest =>
      (m ← compile_regex c;
       ms ← compile_or rest;
       Ok (fun p => m p || ms p))
  end.

Definition compile_range (r : range) : result (Product.t -> bool) :=
  (lo ← match gte r with
        | Some b => b' ← cast_bound "price" b;
                    Ok (fun p => num_leb b' (Num (Product.price p)))
        | None => Ok (fun _ => true)
        end;
   hi ← match lte r with
        | Some b => b' ← cast_bound "price" b;
                    Ok (fun p => num_leb (Num (Product.price p)) b')
        | None => Ok (fun _ => true)
        end;
   Ok (fun p => lo p && hi p)).

Definition opt_pred {A} (o : option A) (f : A -> result (Product.t -> bool))
  : result (Product.t -> bool) :=
  match o with
  | Some a => f a
  | None => Ok (fun _ => true)
  end.

(** A query object as a predicate: the conjunction of the keys present. *)
Definition compile (q : Query.t) : result (Product.t -> bool) :=
  (t ← opt_pred (Query.or q) compile_or;
   c ← opt_pred (Query.category q)
         (fun v => Ok (fun p => String.eqb (Product.category p) v));
   b ← opt_pred (Query.brand q)
         (fun v => Ok (fun p => String.eqb (Product.brand p) v));
   r ← opt_pred (Query.price q) compile_range;
   Ok (fun p => t p && c p && b p && r p)).
End Matching.

(** *** Sorting *)

(** The value a document holds under a sort key. *)
Inductive sort_value :=
| SMissing
| SNumber (q : Q)
| SString (s : string).

(** The scalar paths of [productSchema], and [createdAt], which no product
    document has. [None]: another key (an array path, an operator, the empty
    key, ...). *)
Definition sort_field (path : string) : option (Product.t -> sort_value) :=
  if String.eqb path "_id"
  then Some (fun p => SString (Regex.lower_string (Product._id p)))
  else if String.eqb path "name" then Some (fun p => SString (Product.name p))
  else if String.eqb path "title" then Some (fun p => SString (Product.title p))
  else if String.eqb path "brand" then Some (fun p => SString (Product.brand p))
  else if String.eqb path "category" then Some (fun p => SString (Product.category p))
  else if String.eqb path "description" then Some (fun p => SString (Product.description p))
  else if String.eqb path "image" then Some (fun p => SString (Product.image p))
  else if String.eqb path "price" then Some (fun p => SNumber (Product.price p))
  else if String.eqb path "rating" then Some (fun p => SNumber (Product.rating p))
  else if String.eqb path "stock" then Some (fun p => SNumber (Product.stock p))
  else if String.eqb path "createdAt" then Some (fun _ => SMissing)
  else None.

(** The comparison order of the store: missing, then numbers, then strings
    (byte-wise). *)
Definition value_leb (a b : sort_value) : bool :=
  match a, b with
  | SMissing, _ => true
  | SNumber _, SMissing => false
  | SNumber x, SNumber y => Qle_bool x y
  | SNumber _, SString _ => true
  | SString x, SString y => String.leb x y
  | SString _, _ => false
  end.

Fixpoint insert_by (le : Product.t -> Product.t -> bool) (x : Product.t)
  (l : list Product.t) : list Product.t :=
  match l with
  | [] => [x]
  | y :: r => if le x y then x :: y :: r else y :: insert_by le x r
  end.

(** Insertion sort; documents that compare equal keep their order, which is
    one of the orders the store may hand them back in. *)
Definition sort_by (le : Product.t -> Product.t -> bool) (l : list Product.t)
  : list Product.t :=
  foldr (insert_by le) [] l.

Section Find.
Variable regex_other_pattern : string -> string -> option (string -> bool).
Variable regex_other_subject : string -> string -> string -> bool.
(** The order of the store under a key that [sort_field] does not know;
    [None] when the store rejects the key. *)
Variable order_other : string -> option (Product.t -> Product.t -> bool).
(** The driver and store on a skip or limit that is no natural number below
    2^31 (NaN, a fraction, a negative or huge number): the command is
    rejected ([None]), or it runs with some skip and limit of its own. *)
Variable window_other : jsnum -> jsnum -> option (nat * nat).
Variable legacy12 : string -> option string.

Definition order (path : string) : option (Product.t -> Product.t -> bool) :=
  match sort_field path with
  | Some f => Some (fun a b => value_leb (f a) (f b))
  | None => order_other path
  end.

(** One key of a sort directive: 1 ascending, -1 descending. *)
Definition sort_key (key : string * Z) (docs : list Product.t)
  : result (list Product.t) :=
  let '(path, dir) := key in
  match order path with
  | None => Throw (CommandError "Invalid sort key")
  | Some le =>
      if dir =? 1 then Ok (sort_by le docs)
      else if dir =? -1 then Ok (sort_by (fun a b => le b a) docs)
      else Throw (CommandError "Invalid sort value")
  end.

(** A sort directive, keys in the order of the object; the first key is the
    primary one. The empty directive leaves the natural order. *)
Definition sort_docs (spec : list (string * Z)) (docs : list Product.t)
  : result (list Product.t) :=
  foldr (fun key acc => docs' ← acc; sort_key key docs') (Ok docs) spec.

Definition as_count (n : jsnum) : option nat :=
  match as_nat n with
  | Some k => if (Z.of_nat k <? 2 ^ 31) then Some k else None
  | None => None
  end.

(** [skip] then [limit] on natural numbers; for the store a limit of 0 is
    no limit. *)
Definition slice (s l : nat) (docs : list Product.t) : list Product.t :=
  match l with
  | O => drop s docs
  | _ => take l (drop s docs)
  end.

Definition window (skip limit : jsnum) (docs : list Product.t)
  : result (list Product.t) :=
  match as_count skip, as_count limit with
  | Some s, Some l => Ok (slice s l docs)
  | _, _ =>
      match window_other skip limit with
      | Some (s, l) => Ok (slice s l docs)
      | None => Throw (CommandError "Invalid skip or limit")
      end
  end.

(** The query built by the chain
    [Product.find(q).sort(s).skip(n).limit(m)]. *)
Record find_query := mkfind {
  conditions : Query.t;
  sort_opt : list (string * Z);
  skip_opt : jsnum;
  limit_opt : jsnum
}.

Definition find (q : Query.t) : find_query :=
  mkfind q [] (of_Z 0) (of_Z 0).
Definition sort (s : list (string * Z)) (fq : find_query) : find_query :=
  mkfind (conditions fq) s (skip_opt fq) (limit_opt fq).
Definition skip (n : jsnum) (fq : find_query) : find_query :=
  mkfind (conditions fq) (sort_opt fq) n (limit_opt fq).
Definition limit (n : jsnum) (fq : find_query) : find_query :=
  mkfind (conditions fq) (sort_opt fq) (skip_opt fq) n.

(** Awaiting the chain. *)
Definition exec (st : db) (fq : find_query) : result (list Product.t) :=
  _ ← connected st;
  matching ← compile regex_other_pattern regex_other_subject (conditions fq);
  sorted ← sort_docs (sort_opt fq) (filter (fun p => matching p = true) (products st));
  window (skip_opt fq) (limit_opt fq) sorted.

(** [Product.countDocuments(q)] *)
Definition countDocuments (st : db) (q : Query.t) : result nat :=
  _ ← connected st;
  matching ← compile regex_other_pattern regex_other_subject q;
  Ok (length (filter (fun p => matching p = true) (products st))).

(** [Product.findById(id)] *)
Definition Product_findById (st : db) (id : string) : result (option Product.t) :=
  match cast_object_id legacy12 id with
  | None => Throw (CastError "_id" id)
  | Some oid =>
      _ ← connected st;
      Ok (List.find
            (fun p => String.eqb (Regex.lower_string (Product._id p)) oid)
            (products st))
  end.

(** [User.findById(id)] *)
Definition User_findById (st : db) (id : string) : result (option User.t) :=
  match cast_object_id legacy12 id with
  | None => Throw (CastError "_id" id)
  | Some oid =>
      _ ← connected st;
      Ok (List.find
            (fun u => String.eqb (Regex.lower_string (User._id u)) oid)
            (users st))
  end.

(** [User.findOne({ email })]: exact match. *)
Definition User_findOne_email (st : db) (email : string) : result (option User.t) :=
  _ ← connected st;
  Ok (List.find (fun u => String.eqb (User.email u) email) (users st)).

(** [user.save()] of a new document: the required paths are validated,
    then the document is inserted unless the unique index on [email]
    refuses it. *)
Definition User_save (st : db) (u : User.t) : result db :=
  if String.eqb (User.name u) "" then Throw (ValidationError "name")
  else if String.eqb (User.email u) "" then Throw (ValidationError "email")
  else if String.eqb (User.password u) "" then Throw (ValidationError "password")
  else
    _ ← connected st;
    if existsb (fun v => String.eqb (User.email v) (User.email u)) (users st)
    then Throw (DuplicateKey "email")
    else Ok (mkdb (users st ++ [u]) (products st) (outage st)).
End Find.

End Mongo.

(** ** jsonwebtoken *)

Module Jwt.
Import Js.

(** The claims of the tokens this server signs: the payload [{ userId }]
    with the [iat] and [exp] that [jwt.sign] adds, in seconds. *)
Record payload := mk {
  userId : string;
  iat : Z;
  exp : option Z
}.

(** The value of the [token] cookie as [jwt.verify] sees it: a string that
    does not decode to a header, claims and a signature, or the decoded
    claims with the signature they come with. Only [Malformed ""] is the
    empty string. *)
Inductive token :=
| Malformed (raw : string)
| Signed (p : payload) (signature : N).

(** [!token] on the cookie value *)
Definition is_empty (t : token) : bool :=
  match t with
  | Malformed raw => String.eqb raw ""
  | Signed _ _ => false
  end.

(** The package [ms] on the spans [<digits><unit>], unit among d, h, m, s:
    milliseconds. *)
Fixpoint span_parts (s : string) : string * string :=
  match s with
  | EmptyString => (EmptyString, EmptyString)
  | String c r =>
      match JsNum.digit_of c with
      | Some _ => let '(d, u) := span_parts r in (String c d, u)
      | None => (EmptyString, s)
      end
  end.

Definition ms (span : string) : option Z :=
  let '(d, u) := span_parts span in
  match JsNum.digits d with
  | None => None
  | Some n =>
      if String.eqb u "d" then Some (n * 86400000)
      else if String.eqb u "h" then Some (n * 3600000)
      else if String.eqb u "m" then Some (n * 60000)
      else if String.eqb u "s" then Some (n * 1000)
      else None
  end.

Section Sign.
(** The MAC of the claims under a secret (HS256 over the encoded token). *)
Variable hmac : string -> payload -> N.

(** [jwt.sign({ userId }, secret, { expiresIn })] at time [now]
    (milliseconds): [iat] is the time in whole seconds, [exp] is [iat] plus
    the span in seconds. *)
Definition sign (userId : string) (secret : string) (expiresIn : string)
  (now : Z) : result token :=
  match ms expiresIn with
  | None => Throw (TimespanError expiresIn)
  | Some span =>
      let iat := now / 1000 in
      let p := mk userId iat (Some (iat + span / 1000)) in
      Ok (Signed p (hmac secret p))
  end.

(** [jwt.verify(token, secret)] at time [now]: the decoding, then the
    signature, then the expiry are checked. *)
Definition verify (t : token) (secret : string) (now : Z) : result payload :=
  match t with
  | Malformed _ => Throw (JsonWebTokenError "jwt malformed")
  | Signed p sig =>
      if negb (N.eqb sig (hmac secret p))
      then Throw (JsonWebTokenError "invalid signature")
      else match exp p with
           | Some e =>
               if e <=? now / 1000 then Throw (TokenExpiredError (e * 1000))
               else Ok p
           | None => Ok p
           end
  end.

(** A token that must not be trusted at time [now]: it does not decode, its
    signature is not the MAC of its claims under the secret, or its expiry
    has passed. *)
Definition untrusted (t : token) (secret : string) (now : Z) : Prop :=
  match t with
  | Malformed _ => True
  | Signed p sig =>
      sig <> hmac secret p \/ exists e, exp p = Some e /\ e <= now / 1000
  end.
End Sign.

End Jwt.

(** ** server.js *)

Module Server.
Import JsNum Js Mongo.

(** The third-party behaviour that [server.js] does not determine. *)
Record platform := mkplatform {
  number_other : string -> jsnum;
  regex_other_pattern : string -> string -> option (string -> bool);
  regex_other_subject : string -> string -> string -> bool;
  order_other : string -> option (Product.t -> Product.t -> bool);
  window_other : jsnum -> jsnum -> option (nat * nat);
  legacy12 : string -> option string;
  (** [bcrypt.hash(password, rounds)], with the salt it draws *)
  bcrypt_hash : string -> Z -> string -> string;
  (** [bcrypt.compare(password, hash)] *)
  bcrypt_compare : string -> string -> bool;
  hmac : string -> Jwt.payload -> N
}.

(** What one request draws from outside: the clock (milliseconds), the
    ObjectId of a new document, the salt of a new hash. *)
Record world := mkworld {
  now : Z;
  fresh_id : string;
  salt : string
}.

(** [req]: the parsed query string, route parameters, JSON body and cookies,
    and the [userId] the auth middleware attaches. Query parameters and body
    members are strings or absent: a query key given once, a JSON member
    that is a string. The login handler on members of any JSON type is
    [Body.login]. *)
Record request := mkreq {
  query : gmap string string;
  params : gmap string string;
  body : gmap string string;
  cookies : gmap string Jwt.token;
  userId : option string
}.

Definition set_userId (id : string) (req : request) : request :=
  mkreq (query req) (params req) (body req) (cookies req) (Some id).

(** [cookieOptions] *)
Record cookie_options := mkopts {
  httpOnly : bool;
  sameSite : string;
  secure : bool;
  maxAge : Z
}.

Definition cookieOptions : cookie_options :=
  mkopts true "none" true (7 * 24 * 60 * 60 * 1000).

Record pagination := mkpagination {
  page : jsnum;
  limit : jsnum;
  total : nat;
  pages : jsnum
}.

(** The document [User.findById(..).select('-password')] yields. *)
Record user_view := mkview {
  view_id : string;
  view_name : string;
  view_email : string;
  view_createdAt : Z
}.

Definition select_minus_password (u : User.t) : user_view :=
  mkview (User._id u) (User.name u) (User.email u) (User.createdAt u).

(** The values handed to [res.json]. *)
Inductive json :=
| Message (message : string)                       (* { message } *)
| MessageError (message : string) (error : fault)  (* { message, error: error.message } *)
| MessageUser (message : string) (id name email : string)
                                                   (* { message, user: { id, name, email } } *)
| UserDoc (u : user_view)
| Null
| ProductList (products : list Product.t) (pagination : pagination)
                                                   (* { products, pagination } *)
| ProductDoc (p : Product.t).

(** A response: the status, the JSON value, and the cookies set. *)
Record response := mkres {
  status : Z;
  payload : json;
  set_cookies : list (string * Jwt.token * cookie_options)
}.

(** [res.status(code).json(v)]; [res.json(v)] is [respond 200 v]. *)
Definition respond (code : Z) (v : json) : response := mkres code v [].

(** [res.cookie(name, value, options)] before the response is sent. *)
Definition with_cookie (name : string) (value : Jwt.token)
  (opts : cookie_options) (r : response) : response :=
  mkres (status r) (payload r) (set_cookies r ++ [(name, value, opts)]).

(** What a middleware or handler does with a request: it answers, or it
    calls [next()] with the request as it left it. *)
Inductive outcome :=
| Respond (r : response)
| Next (req : request).

(** Express runs the functions of a route in order until one answers; the
    names of the functions it invoked are recorded. *)
Fixpoint run_chain (chain : list (string * (request -> outcome)))
  (req : request) : list string * option response :=
  match chain with
  | [] => ([], None)
  | (name, f) :: rest =>
      match f req with
      | Respond r => ([name], Some r)
      | Next req' =>
          let '(invoked, r) := run_chain rest req' in (name :: invoked, r)
      end
  end.

(** Assigning a number to a key of an object literal, keys in insertion
    order. The key [__proto__] is the inherited accessor: given a number it
    stores nothing. *)
Fixpoint assign (key : string) (v : Z) (o : list (string * Z)) : list (string * Z) :=
  match o with
  | [] => [(key, v)]
  | (k, w) :: rest =>
      if String.eqb k key then (k, v) :: rest else (k, w) :: assign key v rest
  end.

Definition js_set (key : string) (v : Z) (o : list (string * Z)) : list (string * Z) :=
  if String.eqb key "__proto__" then o else assign key v o.

Section Handlers.
Variable P : platform.
(** [process.env.JWT_SECRET] *)
Variable env_JWT_SECRET : option string.

Definition JWT_SECRET : string :=
  match env_JWT_SECRET with
  | Some s => if truthy s then s else "your-secret-key-here"
  | None => "your-secret-key-here"
  end.

Definition Number (v : jsval) : jsnum := to_number (number_other P) v.

(** *** Auth middleware *)

Definition authMiddleware (w : world) (req : request) : outcome :=
  match cookies req !! "token" with
  | None =>
      Respond (respond 401 (Message "No authentication token provided"))
  | Some token =>
      if Jwt.is_empty token
      then Respond (respond 401 (Message "No authentication token provided"))
      else
        match Jwt.verify (hmac P) token JWT_SECRET (now w) with
        | Ok decoded => Next (set_userId (Jwt.userId decoded) req)
        | Throw _ => Respond (respond 401 (Message "Invalid token"))
        end
  end.

(** *** POST /api/auth/register *)

Definition register (w : world) (st : db) (req : request) : response * db :=
  let name := body req !! "name" in
  let email := body req !! "email" in
  let password := body req !! "password" in
  match name, email, password with
  | Some name, Some email, Some password =>
      if negb (truthy name) || negb (truthy email) || negb (truthy password)
      then (respond 400 (Message "All fields are required"), st)
      else
        match User_findOne_email st email with
        | Throw e => (respond 500 (MessageError "Server error" e), st)
        | Ok (Some _) => (respond 400 (Message "User already exists"), st)
        | Ok None =>
            let hashedPassword := bcrypt_hash P password 10 (salt w) in
            let user := User.mk (fresh_id w) name email hashedPassword (now w) in
            match User_save st user with
            | Throw e => (respond 500 (MessageError "Server error" e), st)
            | Ok st' =>
                match Jwt.sign (hmac P) (User._id user) JWT_SECRET "7d" (now w) with
                | Throw e => (respond 500 (MessageError "Server error" e), st')
                | Ok token =>
                    (with_cookie "token" token cookieOptions
                       (respond 201
                          (MessageUser "User registered successfully"
                             (User._id user) (User.name user) (User.email user))),
                     st')
                end
            end
        end
  | _, _, _ => (respond 400 (Message "All fields are required"), st)
  end.

(** *** POST /api/auth/login *)

(** The handler on a body whose members are strings; [Body.login] is the
    handler on members of any JSON type, where [bcrypt.compare] can
    reject. *)
Definition login (w : world) (st : db) (req : request) : response :=
  let email := body req !! "email" in
  let password := body req !! "password" in
  match email, password with
  | Some email, Some password =>
      if negb (truthy email) || negb (truthy password)
      then respond 400 (Message "All fields are required")
      else
        let attempt : result response :=
          user ← User_findOne_email st email;
          match user with
          | None => Ok (respond 400 (Message "Invalid credentials"))
          | Some user =>
              let isMatch := bcrypt_compare P password (User.password user) in
              if negb isMatch
              then Ok (respond 400 (Message "Invalid credentials"))
              else
                token ← Jwt.sign (hmac P) (User._id user) JWT_SECRET "7d" (now w);
                Ok (with_cookie "token" token cookieOptions
                      (respond 200
                         (MessageUser "Login successful"
                            (User._id user) (User.name user) (User.email user))))
          end in
        match attempt with
        | Ok r => r
        | Throw e => respond 500 (MessageError "Server error" e)
        end
  | _, _ => respond 400 (Message "All fields are required")
  end.

(** *** GET /api/auth/me *)

Definition me (st : db) (req : request) : response :=
  let attempt : result response :=
    user ← match userId req with
           | Some id => User_findById (legacy12 P) st id
           | None => _ ← connected st; Ok None   (* findById(undefined) *)
           end;
    match user with
    | Some u => Ok (respond 200 (UserDoc (select_minus_password u)))
    | None => Ok (respond 200 Null)
    end in
  match attempt with
  | Ok r => r
  | Throw _ => respond 500 (Message "Server error")
  end.

(** [app.get('/api/auth/me', authMiddleware, handler)] *)
Definition route_me (w : world) (st : db) (req : request)
  : list string * option response :=
  run_chain [("authMiddleware", authMiddleware w);
             ("me", fun req => Respond (me st req))] req.

(** *** GET /api/products *)

(** The destructuring of [req.query] with its defaults. *)
Record listing_params := mkparams {
  p_page : jsval;
  p_limit : jsval;
  p_search : string;
  p_sortBy : string;
  p_order : string;
  p_category : option string;
  p_brand : option string;
  p_minPrice : option string;
  p_maxPrice : option string
}.

Definition destructure (q : gmap string string) : listing_params :=
  mkparams
    (match q !! "page" with Some s => VString s | None => VNumber (of_Z 1) end)
    (match q !! "limit" with Some s => VString s | None => VNumber (of_Z 8) end)
    (default "" (q !! "search"))
    (default "createdAt" (q !! "sortBy"))
    (default "desc" (q !! "order"))
    (q !! "category")
    (q !! "brand")
    (q !! "minPrice")
    (q !! "maxPrice").

(** [// Build query] *)
Definition build_query (a : listing_params) : Query.t :=
  let query := Query.empty in
  let query :=
    if truthy (p_search a)
    then Query.set_or
           [("name", mkre (p_search a) "i");
            ("title", mkre (p_search a) "i");
            ("brand", mkre (p_search a) "i");
            ("category", mkre (p_search a) "i")] query
    else query in
  let query :=
    match p_category a with
    | Some category => if truthy category then Query.set_category category query else query
    | None => query
    end in
  let query :=
    match p_brand a with
    | Some brand => if truthy brand then Query.set_brand brand query else query
    | None => query
    end in
  if truthy_opt (p_minPrice a) || truthy_opt (p_maxPrice a)
  then
    let price := mkrange None None in
    let price :=
      match p_minPrice a with
      | Some minPrice =>
          if truthy minPrice
          then mkrange (Some (Number (VString minPrice))) (lte price) else price
      | None => price
      end in
    let price :=
      match p_maxPrice a with
      | Some maxPrice =>
          if truthy maxPrice
          then mkrange (gte price) (Some (Number (VString maxPrice))) else price
      | None => price
      end in
    Query.set_price price query
  else query.

(** [// Build sort] *)
Definition build_sort (a : listing_params) : list (string * Z) :=
  let sortOptions := [] in
  js_set (p_sortBy a) (if String.eqb (p_order a) "asc" then 1 else -1) sortOptions.

(** [(page - 1) * limit] *)
Definition skip_of (a : listing_params) : jsnum :=
  mul (sub (Number (p_page a)) (of_Z 1)) (Number (p_limit a)).

Definition pagination_of (a : listing_params) (total : nat) : pagination :=
  mkpagination
    (Number (p_page a))
    (Number (p_limit a))
    total
    (ceil (div (of_nat total) (Number (p_limit a)))).

Definition exec_find (st : db) (fq : find_query) : result (list Product.t) :=
  exec (regex_other_pattern P) (regex_other_subject P) (order_other P)
    (window_other P) st fq.

Definition count (st : db) (q : Query.t) : result nat :=
  countDocuments (regex_other_pattern P) (regex_other_subject P) st q.

Definition products_handler (st : db) (req : request) : response :=
  let a := destructure (query req) in
  let query := build_query a in
  let sortOptions := build_sort a in
  let skip := skip_of a in
  let attempt : result response :=
    products ← exec_find st
      (Mongo.limit (Number (p_limit a))
         (Mongo.skip skip (Mongo.sort sortOptions (Mongo.find query))));
    total ← count st query;
    Ok (respond 200 (ProductList products (pagination_of a total))) in
  match attempt with
  | Ok r => r
  | Throw e => respond 500 (MessageError "Server error" e)
  end.

(** *** GET /api/products/:id *)

Definition product_handler (st : db) (req : request) : response :=
  let attempt : result response :=
    product ← match params req !! "id" with
              | Some id => Product_findById (legacy12 P) st id
              | None => _ ← connected st; Ok None
              end;
    match product with
    | None => Ok (respond 404 (Message "Product not found"))
    | Some product => Ok (respond 200 (ProductDoc product))
    end in
  match attempt with
  | Ok r => r
  | Throw e => respond 500 (MessageError "Server error" e)
  end.
End Handlers.

End Server.

(** ** The filter of GET /api/products, in the words of the specification *)

Module Spec.
Import JsNum Js Mongo Server.

Section Filters.
Variable P : platform.

(** A query parameter that is present and non-empty. *)
Definition given (q : gmap string string) (key : string) : option string :=
  match q !! key with
  | Some s => if truthy s then Some s else None
  | None => None
  end.

(** Free-text search: the search string, case-insensitive, matches the name,
    the title, the brand or the category. The store reads the search string
    as a pattern (for a string without pattern characters, matching is
    containing it); a pattern the engine rejects matches nothing. *)
Definition text_matches (search : string) (p : Product.t) : bool :=
  match Regex.test (regex_other_pattern P) (regex_other_subject P) search "i" with
  | Some m =>
      m (Product.name p) || m (Product.title p) ||
      m (Product.brand p) || m (Product.category p)
  | None => false
  end.

(** The filter predicates of a request, read off its parameters and not
    off the query object the handler builds: free-text search, exact
    category, exact brand, and the inclusive price bounds, each only if
    given. The parameters [page], [limit], [sortBy] and [order] are not
    read. *)
Definition satisfies (q : gmap string string) (p : Product.t) : bool :=
  match given q "search" with
  | Some s => text_matches s p
  | None => true
  end &&
  match given q "category" with
  | Some c => String.eqb (Product.category p) c
  | None => true
  end &&
  match given q "brand" with
  | Some b => String.eqb (Product.brand p) b
  | None => true
  end &&
  match given q "minPrice" with
  | Some lo => num_leb (Number P (VString lo)) (Num (Product.price p))
  | None => true
  end &&
  match given q "maxPrice" with
  | Some hi => num_leb (Num (Product.price p)) (Number P (VString hi))
  | None => true
  end.
End Filters.

End Spec.

(** ** A small catalogue, user base and platform for worked examples *)

Module Sample.
Import JsNum Js Mongo Server.

(** A platform: numbers beyond decimal numerals are NaN, patterns beyond the
    fragment are rejected, unknown sort keys and odd windows are rejected,
    12-character ids are rejected; a toy hash and a toy MAC. *)
Definition platform0 : platform :=
  mkplatform
    (fun _ => NaN)
    (fun _ _ => None)
    (fun _ _ _ => false)
    (fun _ => None)
    (fun _ _ => None)
    (fun _ => None)
    (fun password _ salt => salt +:+ "$" +:+ password)
    (fun password hash => String.eqb hash ("salt$" +:+ password))
    (fun secret p =>
       (N.of_nat (String.length secret + String.length (Jwt.userId p)) +
        Z.to_N (Jwt.iat p))%N).

Definition apple : Product.t :=
  Product.mk "65a000000000000000000001" "Apple" "Premium Fruits Item 1"
    "FreshFarm" "Fruits" 30 (9 # 2) "Crisp" 25 "apple" [].
Definition banana : Product.t :=
  Product.mk "65a000000000000000000002" "Banana" "Premium Fruits Item 2"
    "OrganicPro" "Fruits" 12 4 "Ripe" 40 "banana" [].
Definition carrot : Product.t :=
  Product.mk "65a000000000000000000003" "Carrot" "Premium Vegetables Item 3"
    "GreenValley" "Vegetables" 18 (7 # 2) "Fresh" 15 "carrot" [].
Definition milk : Product.t :=
  Product.mk "65a000000000000000000004" "Milk" "Premium Dairy Item 4"
    "PureHarvest" "Dairy" 22 5 "Whole" 60 "milk" [].

Definition alice : User.t :=
  User.mk "65b000000000000000000001" "Alice" "alice@example.com"
    "salt$wonderland" 1700000000000.

Definition catalogue : db := mkdb [alice] [apple; banana; carrot; milk] None.

(** A GET request with the given query string. *)
Definition get (q : list (string * string)) : request :=
  mkreq (list_to_map q) ∅ ∅ ∅ None.

(** A GET request with the route parameter [id]. *)
Definition get_id (id : string) : request :=
  mkreq ∅ {[ "id" := id ]} ∅ ∅ None.

(** A POST request with the given JSON body. *)
Definition post (b : list (string * string)) : request :=
  mkreq ∅ ∅ (list_to_map b) ∅ None.

(** A request carrying the [token] cookie. *)
Definition with_token (t : Jwt.token) : request :=
  mkreq ∅ ∅ ∅ {[ "token" := t ]} None.

Definition noon : world := mkworld 1700000000000 "65b000000000000000000002" "salt".

End Sample.

(** ** The other routes of server.js and the start-up seeding *)

Module Routes.
Import JsNum Js Mongo Server.

(** *** Store operations these routes use *)

(** [Product.deleteMany({})] *)
Definition Product_deleteMany_all (st : db) : result db :=
  _ ← connected st;
  Ok (mkdb (users st) [] (outage st)).

(** The [required] validator of the String paths of [productSchema]: an
    empty string is refused. *)
Definition validate_product (p : Product.t) : result unit :=
  if String.eqb (Product.name p) "" then Throw (ValidationError "name")
  else if String.eqb (Product.title p) "" then Throw (ValidationError "title")
  else if String.eqb (Product.brand p) "" then Throw (ValidationError "brand")
  else if String.eqb (Product.category p) "" then Throw (ValidationError "category")
  else if String.eqb (Product.description p) "" then Throw (ValidationError "description")
  else if String.eqb (Product.image p) "" then Throw (ValidationError "image")
  else Ok tt.

Fixpoint validate_all (docs : list Product.t) : result unit :=
  match docs with
  | [] => Ok tt
  | p :: rest => _ ← validate_product p; validate_all rest
  end.

(** [Product.insertMany(docs)]: every document is validated before any is
    sent to the store; the documents are appended in order. *)
Definition Product_insertMany (st : db) (docs : list Product.t) : result db :=
  _ ← validate_all docs;
  _ ← connected st;
  Ok (mkdb (users st) (products st ++ docs) (outage st)).

(** [Product.distinct(path)]: the distinct strings stored under the path.
    The store fixes no order for them; the answer is kept as a set. *)
Definition Product_distinct (st : db) (path : string) : result (gset string) :=
  _ ← connected st;
  Ok (list_to_set (omap (text_field path) (products st))).

(** *** Answers *)

(** The values these routes hand to [res.json], beside those of the routes
    above. *)
Inductive value :=
| Plain (v : json)
| Products (products : list Product.t)            (* an array of documents *)
| Values (values : gset string)                   (* an array of strings *)
| MessageCount (message : string) (count : nat).  (* { message, count } *)

(** An answer: the status, the JSON value, and the cookies cleared. *)
Record reply := mkreply {
  code : Z;
  value_of : value;
  cleared : list (string * cookie_options)
}.

Definition answer (c : Z) (v : value) : reply := mkreply c v [].

(** *** POST /api/auth/logout *)

Definition logout (req : request) : reply :=
  mkreply 200 (Plain (Message "Logged out successfully")) [("token", cookieOptions)].

Section Handlers.
Variable P : platform.

(** *** GET /api/products/latest *)

(** [req.query.limit || 10] *)
Definition latest_limit (q : gmap string string) : jsval :=
  match q !! "limit" with
  | Some s => if truthy s then VString s else VNumber (of_Z 10)
  | None => VNumber (of_Z 10)
  end.

Definition latest_handler (st : db) (req : request) : reply :=
  let limit := latest_limit (query req) in
  let attempt : result reply :=
    products ← exec_find P st
      (Mongo.limit (Number P limit)
         (Mongo.sort [("createdAt", -1)] (Mongo.find Query.empty)));
    Ok (answer 200 (Products products)) in
  match attempt with
  | Ok r => r
  | Throw e => answer 500 (Plain (MessageError "Server error" e))
  end.

(** *** GET /api/categories and GET /api/brands *)

Definition categories_handler (st : db) (req : request) : reply :=
  match Product_distinct st "category" with
  | Ok categories => answer 200 (Values categories)
  | Throw _ => answer 500 (Plain (Message "Server error"))
  end.

Definition brands_handler (st : db) (req : request) : reply :=
  match Product_distinct st "brand" with
  | Ok brands => answer 200 (Values brands)
  | Throw _ => answer 500 (Plain (Message "Server error"))
  end.

(** *** The start-up seeding, after [mongoose.connect] *)

(** [productsData] is the content of [products.json], which is not part of
    the sources at hand: it is a parameter, as the documents the schema
    builds from it. A rejection is logged and changes nothing. *)
Definition startup (productsData : list Product.t) (st : db) : db :=
  let attempt : result db :=
    productCount ← count P st Query.empty;
    if (productCount =? 0)%nat
    then Product_insertMany st productsData
    else Ok st in
  match attempt with
  | Ok st' => st'
  | Throw _ => st
  end.
End Handlers.

(** *** POST /api/seed *)

(** What one seeding draws from outside: the successive results of
    [Math.random()] (rationals in [0, 1)), of [new Date()], and the ObjectIds
    of the new documents. *)
Record draws := mkdraws {
  random : nat -> Q;
  clock : nat -> Z;
  object_id : nat -> string
}.

Definition categories : list string :=
  ["Fruits"; "Vegetables"; "Dairy"; "Bakery"; "Beverages"; "Snacks"; "Meat"; "Seafood"].

Definition brands : list string :=
  ["FreshFarm"; "OrganicPro"; "GreenValley"; "PureHarvest"; "NatureBest"; "FarmFresh"].

(** [Math.floor(x)] *)
Definition floor (x : Q) : Q := inject_Z (Qfloor x).

(** The number read back from [x.toFixed(1)]: [x] rounded to a tenth, a tie
    going up. *)
Definition toFixed1 (x : Q) : Q := Qmake (Qfloor (x * 10 + (1 # 2))) 10.

(** The [i]-th product of [Array.from({ length: 50 }, (_, i) => ...)]. *)
Definition seed_product (d : draws) (i : nat) : Product.t :=
  let category := nth (i mod length categories) categories "" in
  let brand := nth (i mod length brands) brands "" in
  Product.mk
    (object_id d i)
    ("Product " +:+ pretty (i + 1)%nat)
    ("Premium " +:+ category +:+ " Item " +:+ pretty (i + 1)%nat)
    brand
    category
    (floor (random d (3 * i) * 50) + 10)
    (toFixed1 (random d (3 * i + 1) * 2 + 3))
    ("This is a high-quality " +:+ Regex.lower_string category +:+
     " product from " +:+ brand +:+
     ". Fresh, organic, and delivered straight to your door. Perfect for your daily needs and healthy lifestyle.")
    (floor (random d (3 * i + 2) * 100) + 10)
    ("https://images.unsplash.com/photo-" +:+
     pretty (1500000000000 + N.of_nat i)%N +:+ "?w=400&h=400&fit=crop")
    [Review.mk "John Doe" "Great product! Highly recommended." 5 (clock d (2 * i));
     Review.mk "Jane Smith" "Good quality and fresh delivery." 4 (clock d (2 * i + 1))].

Definition seed_products (d : draws) : list Product.t :=
  map (seed_product d) (seq 0 50).

Definition seed (d : draws) (st : db) (req : request) : reply * db :=
  match Product_deleteMany_all st with
  | Throw e => (answer 500 (Plain (MessageError "Seed error" e)), st)
  | Ok st1 =>
      let products := seed_products d in
      match Product_insertMany st1 products with
      | Throw e => (answer 500 (Plain (MessageError "Seed error" e)), st1)
      | Ok st2 =>
          (answer 200 (MessageCount "Database seeded successfully" (length products)),
           st2)
      end
  end.

End Routes.

(** ** POST /api/auth/login on the body the parsers deliver *)

Module Body.
Import JsNum Js Mongo Server.

(** A member of [req.body] as [express.json()] or [express.urlencoded()]
    parsed it: any JSON value. [Server.request] holds the bodies whose
    members are all strings. *)
#[warnings="-register-all"]
Inductive value :=
| VNull
| VBool (b : bool)
| VNum (n : jsnum)
| VStr (s : string)
| VArray (items : list value)
| VObject (members : list (string * value)).

(** [typeof v] *)
Definition typeof (v : value) : string :=
  match v with
  | VBool _ => "boolean"
  | VNum _ => "number"
  | VStr _ => "string"
  | VNull | VArray _ | VObject _ => "object"
  end.

(** Truthiness: [null], [false], 0, NaN and the empty string are falsy. *)
Definition truthy (v : value) : bool :=
  match v with
  | VNull => false
  | VBool b => b
  | VNum (Num q) => negb (Qnum q =? 0)
  | VNum NaN => false
  | VNum _ => true
  | VStr s => JsNum.truthy s
  | VArray _ | VObject _ => true
  end.

(** What the login handler sends. [bcrypt.compare] rejects a password that
    is no string with [Error("Illegal arguments: " + typeof password + ", "
    + typeof hash)]; the [catch] block turns it into a 500 that sets no
    cookie. *)
Inductive reply :=
| Sent (r : response)
| IllegalArguments (password_type hash_type : string).
    (* 500 { message: 'Server error',
             error: 'Illegal arguments: <password_type>, <hash_type>' } *)

Definition status_of (r : reply) : Z :=
  match r with
  | Sent r => status r
  | IllegalArguments _ _ => 500
  end.

Definition cookies_of (r : reply) : list (string * Jwt.token * cookie_options) :=
  match r with
  | Sent r => set_cookies r
  | IllegalArguments _ _ => []
  end.

Section Handlers.
Variable P : platform.
Variable env_JWT_SECRET : option string.
(** The filter [User.findOne({ email })] runs when [email] is no string, as
    mongoose casts it for the String path (a number to its decimal string,
    an object of operators such as [{ $ne: null }] to these operators), or
    the rejection of the cast. *)
Variable email_other : value -> result (User.t -> bool).

(** [User.findOne({ email })] *)
Definition User_findOne (st : db) (email : value) : result (option User.t) :=
  match email with
  | VStr s => User_findOne_email st s
  | other =>
      matching ← email_other other;
      _ ← connected st;
      Ok (List.find matching (users st))
  end.

Definition login (w : world) (st : db) (body : gmap string value) : reply :=
  let email := body !! "email" in
  let password := body !! "password" in
  match email, password with
  | Some email, Some password =>
      if negb (truthy email) || negb (truthy password)
      then Sent (respond 400 (Message "All fields are required"))
      else
        match User_findOne st email with
        | Throw e => Sent (respond 500 (MessageError "Server error" e))
        | Ok None => Sent (respond 400 (Message "Invalid credentials"))
        | Ok (Some user) =>
            match password with
            | VStr password =>
                let isMatch := bcrypt_compare P password (User.password user) in
                if negb isMatch
                then Sent (respond 400 (Message "Invalid credentials"))
                else
                  match Jwt.sign (hmac P) (User._id user)
                          (JWT_SECRET env_JWT_SECRET) "7d" (now w) with
                  | Throw e => Sent (respond 500 (MessageError "Server error" e))
                  | Ok token =>
                      Sent (with_cookie "token" token cookieOptions
                              (respond 200
                                 (MessageUser "Login successful"
                                    (User._id user) (User.name user)
                                    (User.email user))))
                  end
            | other => IllegalArguments (typeof other) "string"
            end
        end
  | _, _ => Sent (respond 400 (Message "All fields are required"))
  end.
End Handlers.

(** The body of [Server.request] as [express.json()] delivers it. *)
Definition of_strings (body : gmap string string) : gmap string value :=
  VStr <$> body.

(** For the worked examples: every [email] that is no string is refused by
    the cast. *)
Definition email_other0 (v : value) : result (User.t -> bool) :=
  Throw (CastError "email" (typeof v)).

(** [{ "email": email, "password": 123 }] *)
Definition number_password (email : string) : gmap string value :=
  {[ "email" := VStr email; "password" := VNum (of_Z 123) ]}.

End Body.

(** ** Draws and requests for further worked examples *)

Module Scenario.
Import JsNum Js Mongo Server Routes.

(** Draws that cycle through the tenths 0, 0.1, ..., 0.9. *)
Definition draws0 : draws :=
  mkdraws
    (fun k => Qmake (Z.of_nat (k mod 10)) 10)
    (fun k => 1700000000000 + Z.of_nat k)
    (fun i => "65c0000000000000000000" +:+ pretty (10 + i)%nat).

Definition bob : list (string * string) :=
  [("name", "Bob"); ("email", "bob@example.com"); ("password", "builder")].

Definition bob_login : list (string * string) :=
  [("email", "bob@example.com"); ("password", "builder")].

(** A catalogue without products. *)
Definition empty_catalogue : db := mkdb [Sample.alice] [] None.

(** Bob registers on the sample user base. *)
Definition registration : response * db :=
  register Sample.platform0 None Sample.noon Sample.catalogue (Sample.post bob).

(** Alice logs in with her password. *)
Definition alice_login : response :=
  login Sample.platform0 None Sample.noon Sample.catalogue
    (Sample.post [("email", "alice@example.com"); ("password", "wonderland")]).

(** The sample catalogue by price, two items a page. *)
Definition by_price (page : string) : request :=
  Sample.get [("page", page); ("sortBy", "price"); ("order", "asc"); ("limit", "2")].

(** The answer of the listing to a request on the sample catalogue, as its
    items and pagination. *)
Definition listing_of (req : request) : list Product.t * pagination :=
  match payload (products_handler Sample.platform0 Sample.catalogue req) with
  | ProductList products pg => (products, pg)
  | _ => ([], mkpagination NaN NaN 0 NaN)
  end.

(** The items of the latest-products route on the sample catalogue. *)
Definition latest_of (req : request) : list Product.t :=
  match value_of (latest_handler Sample.platform0 Sample.catalogue req) with
  | Products products => products
  | _ => []
  end.

(** The categories the sample catalogue lists. *)
Definition listed_categories : gset string :=
  match value_of (categories_handler Sample.catalogue (Sample.get [])) with
  | Values values => values
  | _ => ∅
  end.

(** [GET /api/products?category=Fruits&sortBy=price&order=asc&limit=5&page=1] *)
Definition fruits_page : request :=
  Sample.get [("category", "Fruits"); ("sortBy", "price"); ("order", "asc");
              ("limit", "5"); ("page", "1")].

End Scenario.

(** * Properties *)

(** Case analysis on the awaited operation at the head of a sequence in [H]:
    either it is rejected, and [H] is absurd, or it yields a value. *)
Ltac await H x E :=
  match type of H with
  | mbind _ ?r = Js.Ok _ =>
      destruct r as [x|] eqn:E; [cbn [mbind Js.result_bind] in H | discriminate H]
  end.

(** ** The [$regex] fragment and substrings *)

Section RegexFacts.
Import Regex.

Lemma lower_string_app (s t : string) :
  lower_string (s ++ t) = (lower_string s ++ lower_string t)%string.
Proof. induction s as [|c s IH]; simpl; [reflexivity | now rewrite IH]. Qed.

Lemma plain_not_dot (c : ascii) : is_plain c = true -> Ascii.eqb c "."%char = false.
Proof.
  intros Hp. destruct (Ascii.eqb c "."%char) eqn:E; [|reflexivity].
  apply Ascii.eqb_eq in E. subst c. discriminate Hp.
Qed.

Lemma fragment_literal (s : string) :
  literal s = true -> fragment s = Some (lits s).
Proof.
  induction s as [|c s IH]; simpl; [reflexivity|].
  intros H. apply andb_true_iff in H as [Hc Hs].
  rewrite (plain_not_dot c Hc), Hc, (IH Hs). reflexivity.
Qed.

(** The literal atoms match a prefix exactly when the lower-cased needle is
    a prefix of the lower-cased subject. *)
Lemma matches_here_lits (n s : string) :
  matches_here true (lits n) s = true <->
  exists post, lower_string s = (lower_string n ++ post)%string.
Proof.
  revert s. induction n as [|c n IH]; intros s; simpl.
  - split; [intros _; now exists (lower_string s) | reflexivity].
  - destruct s as [|d s]; simpl.
    + split; [discriminate | intros [post H]; discriminate H].
    + rewrite andb_true_iff, Ascii.eqb_eq, IH. split.
      * intros [Hc [post Hp]]. exists post. now rewrite Hc, Hp.
      * intros [post Hp]. injection Hp as Hc Hr. split; [now symmetry | now exists post].
Qed.

Lemma search_lits (n s : string) :
  search true (lits n) s = true <-> ci_substring n s.
Proof.
  unfold ci_substring. induction s as [|d s IH].
  - simpl. rewrite orb_false_r, (matches_here_lits n ""). split.
    + intros [post H]. now exists ""%string, post.
    + intros [pre [post H]]. destruct pre; [now exists post | discriminate H].
  - cbn [search]. rewrite orb_true_iff, IH, (matches_here_lits n (String d s)). split.
    + intros [[post H] | [pre [post H]]].
      * now exists ""%string, post.
      * exists (String (lower d) pre), post. simpl. now rewrite H.
    + intros [pre [post H]]. destruct pre as [|e pre].
      * left. now exists post.
      * right. simpl in H. injection H as _ H. now exists pre, post.
Qed.

(** On a literal search string and an ASCII subject, the [i]-regex of the
    handler is the case-insensitive substring test. *)
Lemma test_literal op os (n s : string) (m : string -> bool) :
  literal n = true -> ascii_only s = true ->
  test op os n "i" = Some m ->
  (m s = true <-> ci_substring n s).
Proof.
  intros Hl Ha Ht. unfold test in Ht. rewrite (fragment_literal n Hl) in Ht.
  cbn in Ht. injection Ht as <-. rewrite Ha. apply search_lits.
Qed.
End RegexFacts.

(** ** The store operations *)

Section MongoFacts.
Import JsNum Js Mongo.

Lemma insert_by_perm le x (l : list Product.t) : insert_by le x l ≡ₚ x :: l.
Proof.
  induction l as [|y r IH]; simpl; [reflexivity|].
  destruct (le x y); [reflexivity|].
  rewrite IH. apply perm_swap.
Qed.

Lemma sort_by_perm le (l : list Product.t) : sort_by le l ≡ₚ l.
Proof.
  unfold sort_by. induction l as [|x l IH]; simpl; [reflexivity|].
  rewrite insert_by_perm. now rewrite IH.
Qed.

Lemma sort_key_perm oo key (docs sorted : list Product.t) :
  sort_key oo key docs = Ok sorted -> sorted ≡ₚ docs.
Proof.
  destruct key as [path dir]. unfold sort_key.
  destruct (order oo path) as [le|]; [|discriminate].
  destruct (dir =? 1).
  - intros [= <-]. apply sort_by_perm.
  - destruct (dir =? -1); [|discriminate]. intros [= <-]. apply sort_by_perm.
Qed.

Lemma sort_docs_perm oo spec (docs sorted : list Product.t) :
  sort_docs oo spec docs = Ok sorted -> sorted ≡ₚ docs.
Proof.
  revert sorted. induction spec as [|key spec IH]; intros sorted; simpl.
  - now intros [= <-].
  - intros H. await H docs' E.
    apply sort_key_perm in H. rewrite H. now apply IH.
Qed.

Lemma slice_subseteq s l (docs : list Product.t) : slice s l docs ⊆ docs.
Proof.
  unfold slice. destruct l.
  - apply subseteq_drop.
  - etransitivity; [apply subseteq_take | apply subseteq_drop].
Qed.

Lemma window_subseteq wo skip limit (docs out : list Product.t) :
  window wo skip limit docs = Ok out -> out ⊆ docs.
Proof.
  unfold window. intros H.
  destruct (as_count skip) as [s|], (as_count limit) as [l|];
    try (destruct (wo skip limit) as [[s' l']|]; [|discriminate H]);
    injection H as <-; apply slice_subseteq.
Qed.

(** What a successful [exec] has done. *)
Lemma exec_inv rp rs oo wo st fq (out : list Product.t) :
  exec rp rs oo wo st fq = Ok out ->
  outage st = None /\
  exists matching sorted,
    compile rp rs (conditions fq) = Ok matching /\
    sort_docs oo (sort_opt fq)
      (filter (fun p => matching p = true) (products st)) = Ok sorted /\
    window wo (skip_opt fq) (limit_opt fq) sorted = Ok out.
Proof.
  unfold exec, connected. intros H.
  destruct (outage st); [discriminate H|]. cbn [mbind result_bind] in H.
  await H matching Em. await H sorted Es.
  split; [reflexivity|]. now exists matching, sorted.
Qed.

Lemma countDocuments_inv rp rs st q (n : nat) :
  countDocuments rp rs st q = Ok n ->
  exists matching,
    compile rp rs q = Ok matching /\
    n = length (filter (fun p => matching p = true) (products st)).
Proof.
  unfold countDocuments, connected. intros H.
  destruct (outage st); [discriminate H|]. cbn [mbind result_bind] in H.
  await H matching Em. injection H as <-. now exists matching.
Qed.

(** Every document a successful [exec] returns is stored and satisfies the
    compiled query. *)
Lemma exec_elem rp rs oo wo st fq (out : list Product.t) matching p :
  exec rp rs oo wo st fq = Ok out ->
  compile rp rs (conditions fq) = Ok matching ->
  p ∈ out -> p ∈ products st /\ matching p = true.
Proof.
  intros H Hm Hp. apply exec_inv in H as [_ (m & sorted & Hm' & Hs & Hw)].
  rewrite Hm in Hm'. injection Hm' as <-.
  apply window_subseteq in Hw. apply Hw in Hp.
  apply sort_docs_perm in Hs. rewrite Hs in Hp.
  apply list_elem_of_filter in Hp. tauto.
Qed.
(** *** Sorted lists *)

Lemma insert_by_sorted (le : Product.t -> Product.t -> bool) x l :
  (forall a b, le a b = true \/ le b a = true) ->
  Sorted (fun a b => le a b = true) l ->
  Sorted (fun a b => le a b = true) (insert_by le x l).
Proof.
  intros Htot. induction l as [|y r IH]; intros Hs; simpl.
  - repeat constructor.
  - destruct (le x y) eqn:Exy.
    + constructor; [exact Hs | now constructor].
    + apply Sorted_inv in Hs as [Hr Hhd]. constructor; [now apply IH|].
      destruct r as [|z r']; simpl.
      * constructor. destruct (Htot x y) as [H|H]; [congruence | exact H].
      * destruct (le x z).
        -- constructor. destruct (Htot x y) as [H|H]; [congruence | exact H].
        -- constructor. now apply HdRel_inv in Hhd.
Qed.

Lemma sort_by_sorted (le : Product.t -> Product.t -> bool) l :
  (forall a b, le a b = true \/ le b a = true) ->
  Sorted (fun a b => le a b = true) (sort_by le l).
Proof.
  intros Htot. unfold sort_by. induction l as [|x l IH]; simpl.
  - constructor.
  - now apply insert_by_sorted.
Qed.

Lemma Sorted_drop {A} (R : A -> A -> Prop) n (l : list A) :
  Sorted R l -> Sorted R (drop n l).
Proof.
  revert l. induction n as [|n IH]; intros l Hs; [now rewrite drop_0|].
  destruct l as [|x l]; [constructor|]. simpl. apply IH. now apply Sorted_inv in Hs.
Qed.

Lemma Sorted_take {A} (R : A -> A -> Prop) n (l : list A) :
  Sorted R l -> Sorted R (take n l).
Proof.
  revert n. induction l as [|x l IH]; intros n Hs; [now rewrite take_nil|].
  destruct n as [|n]; [constructor|]. simpl.
  apply Sorted_inv in Hs as [Hl Hhd]. constructor; [now apply IH|].
  destruct l as [|y l]; [rewrite take_nil; constructor|].
  destruct n; [constructor|].
  simpl. constructor. now apply HdRel_inv in Hhd.
Qed.

Lemma Sorted_slice (R : Product.t -> Product.t -> Prop) s l docs :
  Sorted R docs -> Sorted R (slice s l docs).
Proof.
  intros H. unfold slice. destruct l.
  - now apply Sorted_drop.
  - apply Sorted_take. now apply Sorted_drop.
Qed.

Lemma Sorted_weaken {A} (R R' : A -> A -> Prop) (l : list A) :
  (forall a b, R a b -> R' a b) -> Sorted R l -> Sorted R' l.
Proof.
  intros Himp. induction 1 as [|x l Hs IH Hhd]; constructor; [exact IH|].
  destruct Hhd; constructor. now apply Himp.
Qed.

Lemma Qle_bool_total (x y : Q) : Qle_bool x y = true \/ Qle_bool y x = true.
Proof.
  destruct (Qlt_le_dec x y) as [H|H].
  - left. apply Qle_bool_iff. now apply Qlt_le_weak.
  - right. now apply Qle_bool_iff.
Qed.

Lemma value_leb_total (a b : sort_value) :
  value_leb a b = true \/ value_leb b a = true.
Proof.
  destruct a, b; simpl; auto using Qle_bool_total, String.leb_total.
Qed.

(** *** The comparison order is transitive, and decides a list without ties *)

Lemma string_leb_trans (a b c : string) :
  String.leb a b = true -> String.leb b c = true -> String.leb a c = true.
Proof.
  unfold String.leb. revert b c.
  induction a as [|x a IH]; intros [|y b] [|z c]; simpl; try congruence.
  unfold Ascii.compare.
  destruct (N.compare_spec (N_of_ascii x) (N_of_ascii y)) as [Exy|Lxy|Gxy];
    destruct (N.compare_spec (N_of_ascii y) (N_of_ascii z)) as [Eyz|Lyz|Gyz];
    destruct (N.compare_spec (N_of_ascii x) (N_of_ascii z)) as [Exz|Lxz|Gxz];
    try congruence; try lia.
  apply IH.
Qed.

Lemma value_leb_trans (a b c : sort_value) :
  value_leb a b = true -> value_leb b c = true -> value_leb a c = true.
Proof.
  destruct a as [|x|x], b as [|y|y], c as [|z|z]; simpl; try congruence.
  - rewrite !Qle_bool_iff. apply Qle_trans.
  - apply string_leb_trans.
Qed.

(** Two sorted arrangements of the same elements are equal when no two
    elements tie. *)
Lemma Sorted_unique {A} (R : A -> A -> Prop) (l1 l2 : list A) :
  (forall x y z, R x y -> R y z -> R x z) ->
  (forall x y, x ∈ l1 -> y ∈ l1 -> R x y -> R y x -> x = y) ->
  Sorted R l1 -> Sorted R l2 -> l1 ≡ₚ l2 -> l1 = l2.
Proof.
  intros Htrans. revert l2.
  induction l1 as [|x l1 IH]; intros l2 Hanti H1 H2 Hperm.
  - symmetry. now apply Permutation_nil.
  - destruct l2 as [|y l2]; [now apply Permutation_sym, Permutation_nil_cons in Hperm|].
    apply Sorted_StronglySorted in H1; [|exact Htrans].
    apply Sorted_StronglySorted in H2; [|exact Htrans].
    apply StronglySorted_inv in H1 as [H1 Hx]. apply StronglySorted_inv in H2 as [H2 Hy].
    rewrite Forall_forall in Hx, Hy.
    assert (Hxy : x = y).
    { assert (Hyin : y ∈ x :: l1) by (rewrite Hperm; apply list_elem_of_here).
      assert (Hxin : x ∈ y :: l2) by (rewrite <- Hperm; apply list_elem_of_here).
      apply elem_of_cons in Hyin as [->|Hyin]; [reflexivity|].
      apply elem_of_cons in Hxin as [->|Hxin]; [reflexivity|].
      apply (Hanti x y);
        [apply list_elem_of_here | now apply list_elem_of_further
        | now apply Hx | now apply Hy]. }
    subst y. f_equal. apply IH.
    + intros a b Ha Hb. apply Hanti; now apply list_elem_of_further.
    + now apply StronglySorted_Sorted.
    + now apply StronglySorted_Sorted.
    + now apply Permutation_cons_inv in Hperm.
Qed.
End MongoFacts.

(** ** Compiled queries *)

Section CompileFacts.
Import JsNum Js Mongo.
Variable rp : string -> string -> option (string -> bool).
Variable rs : string -> string -> string -> bool.

Lemma compile_or_inv clauses f :
  compile_or rp rs clauses = Ok f ->
  forall p, f p = true -> exists clause, clause ∈ clauses /\ clause_holds rp rs clause p.
Proof.
  revert f. induction clauses as [|[path c] rest IH]; intros f; simpl.
  - intros [= <-] p Hp. discriminate Hp.
  - intros H. await H m Em. await H ms Ems. injection H as <-.
    intros p Hp. apply orb_true_iff in Hp as [Hp|Hp].
    + exists (path, c). split; [left|].
      unfold compile_regex in Em.
      destruct (Regex.test rp rs (regex c) (options c)) as [mt|] eqn:Et; [|discriminate Em].
      injection Em as <-.
      destruct (text_field path p) as [s|] eqn:Ef; [|discriminate Hp].
      now exists mt, s.
    + destruct (IH ms eq_refl p Hp) as [clause [Hin Hh]].
      exists clause. split; [now right | exact Hh].
Qed.

(** The keys of a query object are AND-combined. *)
Lemma compile_inv q matching p :
  compile rp rs q = Ok matching -> matching p = true ->
  (forall clauses, Query.or q = Some clauses ->
     exists clause, clause ∈ clauses /\ clause_holds rp rs clause p) /\
  (forall c, Query.category q = Some c -> Product.category p = c) /\
  (forall b, Query.brand q = Some b -> Product.brand p = b).
Proof.
  unfold compile. intros H Hp.
  await H t Et. await H c Ec. await H b Eb. await H r Er. injection H as <-.
  repeat (apply andb_true_iff in Hp as [Hp ?]).
  repeat split.
  - intros clauses Hq. rewrite Hq in Et. simpl in Et.
    now apply (compile_or_inv clauses t).
  - intros v Hq. rewrite Hq in Ec. simpl in Ec. injection Ec as <-.
    now apply String.eqb_eq.
  - intros v Hq. rewrite Hq in Eb. simpl in Eb. injection Eb as <-.
    now apply String.eqb_eq.
Qed.
End CompileFacts.

(** ** GET /api/products *)

Section Listing.
Import JsNum Js Mongo Server.
Variable P : platform.

Local Abbreviation rp := (regex_other_pattern P).
Local Abbreviation rs := (regex_other_subject P).

(** The chain of the handler keeps the query it was started with. *)
Lemma chain_conditions q s n m :
  conditions (Mongo.limit m (Mongo.skip n (Mongo.sort s (Mongo.find q)))) = q.
Proof. reflexivity. Qed.

(** What a 200 answer of the listing handler says about the two store
    calls. *)
Lemma products_handler_ok st req products pg :
  products_handler P st req = respond 200 (ProductList products pg) ->
  exec_find P st
    (Mongo.limit (Number P (p_limit (destructure (query req))))
       (Mongo.skip (skip_of P (destructure (query req)))
          (Mongo.sort (build_sort (destructure (query req)))
             (Mongo.find (build_query P (destructure (query req))))))) = Ok products /\
  exists total,
    count P st (build_query P (destructure (query req))) = Ok total /\
    pg = pagination_of P (destructure (query req)) total.
Proof.
  unfold products_handler. cbv zeta. intros H.
  destruct (exec_find P st _) as [out|e] eqn:Ef; cbn [mbind result_bind] in H.
  - destruct (count P st _) as [total|e] eqn:Ec; cbn [mbind result_bind] in H.
    + injection H as -> <-. split; [reflexivity|]. now exists total.
    + discriminate H.
  - discriminate H.
Qed.

Lemma build_query_or (a : listing_params) :
  Query.or (build_query P a) =
  if truthy (p_search a)
  then Some [("name", mkre (p_search a) "i"); ("title", mkre (p_search a) "i");
             ("brand", mkre (p_search a) "i"); ("category", mkre (p_search a) "i")]
  else None.
Proof.
  unfold build_query.
  destruct (truthy (p_search a));
    destruct (p_category a) as [c|]; try destruct (truthy c);
    destruct (p_brand a) as [b|]; try destruct (truthy b);
    destruct (truthy_opt (p_minPrice a) || truthy_opt (p_maxPrice a));
    reflexivity.
Qed.

Lemma build_query_filters (a : listing_params) :
  Query.category (build_query P a) =
    match p_category a with
    | Some c => if truthy c then Some c else None
    | None => None
    end /\
  Query.brand (build_query P a) =
    match p_brand a with
    | Some b => if truthy b then Some b else None
    | None => None
    end /\
  Query.price (build_query P a) =
    if truthy_opt (p_minPrice a) || truthy_opt (p_maxPrice a)
    then Some (mkrange
                 (match p_minPrice a with
                  | Some s => if truthy s then Some (Number P (VString s)) else None
                  | None => None
                  end)
                 (match p_maxPrice a with
                  | Some s => if truthy s then Some (Number P (VString s)) else None
                  | None => None
                  end))
    else None.
Proof.
  unfold build_query.
  destruct (truthy (p_search a));
    destruct (p_category a) as [c|]; try destruct (truthy c);
    destruct (p_brand a) as [b|]; try destruct (truthy b);
    destruct (p_minPrice a) as [lo|]; try destruct (truthy lo) eqn:Elo;
    destruct (p_maxPrice a) as [hi|]; try destruct (truthy hi) eqn:Ehi;
    cbn [truthy_opt]; try rewrite Elo; try rewrite Ehi; cbn;
    repeat split; reflexivity.
Qed.

(** C1, as the code has it. The search string is handed to the store as a
    pattern: a non-empty [search] adds exactly the [$or] group of the four
    [$regex] clauses with option [i] on name, title, brand and category; an
    empty or absent [search] adds no text predicate. Every item of a 200
    answer is a stored product for which one of the four fields matches the
    pattern, and which satisfies the category and brand filters of the
    query as well. When the search string has no character with a meaning
    in a pattern and the field is ASCII, matching is containing the search
    string as a substring, case-insensitively. *)
Theorem search_adds_one_regex_group st req products pg :
  let a := destructure (query req) in
  let s := p_search a in
  (if truthy s
   then Query.or (build_query P a) =
        Some [("name", mkre s "i"); ("title", mkre s "i");
              ("brand", mkre s "i"); ("category", mkre s "i")]
   else Query.or (build_query P a) = None) /\
  (products_handler P st req = respond 200 (ProductList products pg) ->
   truthy s = true ->
   forall p, p ∈ products ->
     p ∈ Mongo.products st /\
     (forall c, Query.category (build_query P a) = Some c -> Product.category p = c) /\
     (forall b, Query.brand (build_query P a) = Some b -> Product.brand p = b) /\
     exists field,
       field ∈ [Product.name p; Product.title p; Product.brand p; Product.category p] /\
       (exists m, Regex.test rp rs s "i" = Some m /\ m field = true) /\
       (Regex.literal s = true -> Regex.ascii_only field = true ->
        Regex.ci_substring s field)).
Proof.
  intros a s. split.
  - rewrite build_query_or. fold s. destruct (truthy s); reflexivity.
  - intros Hok Hs p Hp.
    apply products_handler_ok in Hok as [Hexec _]. fold a in Hexec.
    unfold exec_find in Hexec.
    pose proof (exec_inv _ _ _ _ _ _ _ Hexec) as [_ (matching & _ & Hc & _)].
    rewrite chain_conditions in Hc.
    destruct (exec_elem _ _ _ _ _ _ _ matching p Hexec Hc Hp) as [Hin Hm].
    destruct (compile_inv _ _ _ _ p Hc Hm) as (Hor & Hcat & Hbrand).
    split; [exact Hin|]. split; [exact Hcat|]. split; [exact Hbrand|].
    specialize (Hor _ ltac:(rewrite build_query_or; fold s; rewrite Hs; reflexivity)).
    destruct Hor as [clause [Hin4 (m & t & Ht & Hf & Hmt)]].
    assert (Hfield : t ∈ [Product.name p; Product.title p; Product.brand p;
                          Product.category p] /\ snd clause = mkre s "i").
    { repeat (apply elem_of_cons in Hin4 as [->|Hin4]);
        [ .. | now apply elem_of_nil in Hin4 ];
        cbn in Hf; injection Hf as <-; split; try reflexivity;
        repeat (first [ apply list_elem_of_here | apply list_elem_of_further ]). }
    destruct Hfield as [Hfield Hcl]. rewrite Hcl in Ht. cbn in Ht.
    exists t. split; [exact Hfield|]. split; [now exists m|].
    intros Hl Ha. now apply (test_literal rp rs s t m Hl Ha Ht).
Qed.
End Listing.

(** *** Worked requests for the search predicate *)

(** The theorem at [GET /api/products?search=an] on the sample catalogue:
    the one item returned, Banana, contains "an" in one of its four
    fields. *)
Lemma search_adds_one_regex_group_witness :
  exists field,
    field ∈ [Mongo.Product.name Sample.banana; Mongo.Product.title Sample.banana;
             Mongo.Product.brand Sample.banana; Mongo.Product.category Sample.banana] /\
    Regex.ci_substring "an" field.
Proof.
  pose (req := Sample.get [("search", "an")]).
  pose (pg := Server.pagination_of Sample.platform0 (Server.destructure (Server.query req)) 1).
  destruct (search_adds_one_regex_group Sample.platform0 Sample.catalogue req
              [Sample.banana] pg) as [_ H].
  assert (Hok : Server.products_handler Sample.platform0 Sample.catalogue req =
                Server.respond 200 (Server.ProductList [Sample.banana] pg))
    by (vm_compute; reflexivity).
  assert (Hs : JsNum.truthy (Server.p_search (Server.destructure (Server.query req))) = true)
    by (vm_compute; reflexivity).
  destruct (H Hok Hs Sample.banana (list_elem_of_here _ _))
    as (_ & _ & _ & field & Hf & _ & Hsub).
  exists field. split; [exact Hf|].
  apply Hsub; [vm_compute; reflexivity|].
  repeat (apply elem_of_cons in Hf as [->|Hf]); [ .. | now apply elem_of_nil in Hf ];
    vm_compute; reflexivity.
Defined.

(** C1 as stated fails at [GET /api/products?search=.]: the pattern [.]
    matches any character, so Apple is returned although none of its four
    fields contains a full stop. *)
Lemma search_dot_returns_item_without_substring :
  exists products pg,
    Server.products_handler Sample.platform0 Sample.catalogue
      (Sample.get [("search", ".")]) =
    Server.respond 200 (Server.ProductList products pg) /\
    Sample.apple ∈ products /\
    ~ exists field,
        field ∈ [Mongo.Product.name Sample.apple; Mongo.Product.title Sample.apple;
                 Mongo.Product.brand Sample.apple; Mongo.Product.category Sample.apple] /\
        Regex.ci_substring "." field.
Proof.
  eexists _, _. split; [vm_compute; reflexivity|].
  split; [apply list_elem_of_here|].
  intros [field [Hf Hsub]]. apply search_lits in Hsub.
  repeat (apply elem_of_cons in Hf as [->|Hf]); [ .. | now apply elem_of_nil in Hf ];
    vm_compute in Hsub; discriminate Hsub.
Qed.

(** ** Numbers of the listing handler *)

Section NumberFacts.
Import JsNum Mongo.

Lemma as_nat_of_Z (n : Z) : 0 <= n -> as_nat (of_Z n) = Some (Z.to_nat n).
Proof.
  intros Hn. unfold as_nat, of_Z, inject_Z. cbn [Qnum Qden].
  rewrite Z.mod_1_r, Z.div_1_r. cbn [Z.eqb andb].
  destruct (Z.leb_spec 0 n); [reflexivity | lia].
Qed.

Lemma as_count_of_Z (n : Z) :
  0 <= n < 2 ^ 31 -> as_count (of_Z n) = Some (Z.to_nat n).
Proof.
  intros [Hn Hb]. unfold as_count. rewrite (as_nat_of_Z n Hn).
  rewrite Z2Nat.id by exact Hn.
  destruct (Z.ltb_spec n (2 ^ 31)); [reflexivity | lia].
Qed.

(** *** Rounding *)

Lemma last_place_spec a b :
  1 <= a < 2 ^ 53 -> 1 <= b < 2 ^ 53 ->
  -105 <= last_place a b <= 0 /\
  b * 2 ^ 52 <= a * 2 ^ (- last_place a b).
Proof.
  intros Ha Hb. unfold last_place.
  pose proof (Z.log2_spec a ltac:(lia)) as La.
  pose proof (Z.log2_spec b ltac:(lia)) as Lb.
  pose proof (Z.log2_nonneg a) as La0.
  pose proof (Z.log2_nonneg b) as Lb0.
  assert (Z.log2 a <= 52) as La1.
  { apply Z.lt_succ_r. apply (Z.pow_lt_mono_r_iff 2); [lia | lia |].
    change (Z.succ 52) with 53. lia. }
  assert (Z.log2 b <= 52) as Lb1.
  { apply Z.lt_succ_r. apply (Z.pow_lt_mono_r_iff 2); [lia | lia |].
    change (Z.succ 52) with 53. lia. }
  set (la := Z.log2 a) in *. set (lb := Z.log2 b) in *.
  set (e0 := la - lb - 52).
  assert (-104 <= e0 <= 0) as He0 by (unfold e0; lia).
  rewrite (Z.max_l 0 e0), (Z.max_r 0 (- e0)) by lia.
  change (2 ^ 0) with 1. rewrite Z.mul_1_r.
  assert (2 ^ la * 2 ^ (- e0) = 2 ^ lb * 2 ^ 52) as Hpow.
  { rewrite <- !Z.pow_add_r by lia. f_equal. unfold e0. lia. }
  assert (0 < 2 ^ (- e0)) as Hp by (apply Z.pow_pos_nonneg; lia).
  assert (0 < 2 ^ la) as Hpa by (apply Z.pow_pos_nonneg; lia).
  assert (0 < 2 ^ lb) as Hpb by (apply Z.pow_pos_nonneg; lia).
  rewrite Z.pow_succ_r in La, Lb by lia.
  destruct (Z.ltb_spec (a * 2 ^ (- e0)) (b * 2 ^ 52)) as [Hlt | Hge].
  - rewrite Z.max_l by lia. split; [lia |].
    replace (- (e0 - 1)) with (Z.succ (- e0)) by lia.
    rewrite Z.pow_succ_r by lia.
    set (S := 2 ^ (- e0)) in *. set (A := 2 ^ la) in *. set (B := 2 ^ lb) in *.
    nia.
  - rewrite Z.max_l by lia. split; [lia | lia].
Qed.

Lemma nearest_even_exact n : nearest_even n 1 = n.
Proof.
  unfold nearest_even. rewrite Z.mod_1_r, Z.div_1_r. reflexivity.
Qed.




Lemma Qred_integer z : Qred (z # 1) = z # 1.
Proof.
  unfold Qred.
  pose proof (Z.ggcd_gcd z 1) as Hg.
  pose proof (Z.ggcd_correct_divisors z 1) as Hd.
  destruct (Z.ggcd z 1) as [g [q1 q2]]. cbn [fst snd] in *.
  rewrite Z.gcd_1_r in Hg. subst g. destruct Hd as [-> H2].
  rewrite Z.mul_1_l in H2. rewrite <- H2, Z.mul_1_l. reflexivity.
Qed.

(** The integers from 0 to 2^53 - 1 are binary64 numbers. *)
Lemma round64_integer z :
  0 <= z < 2 ^ 53 -> round64 (z # 1) = of_Z z.
Proof.
  intros Hz. unfold round64. cbn [Qnum Qden].
  rewrite Z.abs_eq by lia.
  destruct (Z.eqb_spec z 0) as [-> | Hnz]; [reflexivity |].
  destruct (last_place_spec z 1 ltac:(lia) ltac:(lia)) as [He Hn].
  set (e := last_place z 1) in *.
  rewrite (Z.max_l 0 e), (Z.max_r 0 (- e)) by lia.
  change (2 ^ 0) with 1. rewrite !Z.mul_1_r, nearest_even_exact.
  replace (971 <? e) with false by (symmetry; apply Z.ltb_ge; lia).
  replace (e =? 971) with false by (symmetry; apply Z.eqb_neq; lia).
  cbn [orb andb]. unfold of_Z, inject_Z. f_equal.
  rewrite <- (Qred_integer z). apply Qred_complete.
  assert (0 < 2 ^ (- e)) as Hp by (apply Z.pow_pos_nonneg; lia).
  unfold Qeq. cbn [Qnum Qden]. rewrite Z2Pos.id by lia.
  rewrite Z.sgn_pos by lia. lia.
Qed.


(** [p - 1] on integers. *)
Lemma sub_one_integer (p : Z) :
  1 <= p <= 2 ^ 53 -> sub (of_Z p) (of_Z 1) = of_Z (p - 1).
Proof.
  intros H. unfold sub, of_Z, inject_Z, Qminus, Qplus, Qopp.
  cbn [Qnum Qden]. change (1 * 1)%positive with 1%positive.
  rewrite !Z.mul_1_r. change (p + - (1)) with (p - 1).
  apply (round64_integer (p - 1)). lia.
Qed.

(** [k * l] on integers. *)
Lemma mul_integers (k l : Z) :
  0 <= k * l < 2 ^ 53 -> mul (of_Z k) (of_Z l) = of_Z (k * l).
Proof.
  intros H. unfold mul, of_Z, inject_Z, Qmult. cbn [Qnum Qden].
  change (1 * 1)%positive with 1%positive.
  now apply (round64_integer (k * l)).
Qed.

(** [(p - 1) * l] on integers. *)
Lemma skip_integers (p l : Z) :
  1 <= p <= 2 ^ 53 -> 0 <= (p - 1) * l < 2 ^ 31 ->
  as_count (mul (sub (of_Z p) (of_Z 1)) (of_Z l)) = Some (Z.to_nat ((p - 1) * l)).
Proof.
  intros Hp H. rewrite sub_one_integer by exact Hp.
  rewrite mul_integers by lia. now apply as_count_of_Z.
Qed.


(** Rounding at work: [Number("12.0000000000000001")] is 12,
    [Number("9007199254740993")] is 2^53, [0.1 + 0.2] is not [0.3] (here as
    [0.3 - 0.1] against [0.2]), and [Math.ceil(21 / 0.7)] is 31. *)
Lemma rounding_examples :
  of_string (fun _ => NaN) "12.0000000000000001" = of_Z 12 /\
  of_string (fun _ => NaN) "9007199254740993" = of_Z (2 ^ 53) /\
  sub (of_string (fun _ => NaN) "0.3") (of_string (fun _ => NaN) "0.1") <>
    of_string (fun _ => NaN) "0.2" /\
  ceil (div (of_Z 21) (of_string (fun _ => NaN) "0.7")) = of_Z 31.
Proof.
  repeat split; try (vm_compute; reflexivity). vm_compute. discriminate.
Qed.
End NumberFacts.

(** ** Pagination and sorting of GET /api/products *)

Section Pagination.
Import JsNum Js Mongo Server.
Variable P : platform.

(** The query object reads neither [page] nor [limit]. *)
Lemma build_query_ignores_page_limit (q q' : gmap string string) :
  (forall k, k <> "page" -> k <> "limit" -> q' !! k = q !! k) ->
  build_query P (destructure q') = build_query P (destructure q).
Proof.
  intros H. unfold build_query, destructure.
  cbn [p_search p_category p_brand p_minPrice p_maxPrice].
  rewrite (H "search"), (H "category"), (H "brand"), (H "minPrice"),
    (H "maxPrice") by discriminate.
  reflexivity.
Qed.

(** A compiled price range is the conjunction of its inclusive bounds. *)
Lemma compile_range_spec (r : range) f :
  compile_range r = Ok f ->
  forall p,
    f p =
    match gte r with
    | Some b => num_leb b (Num (Product.price p))
    | None => true
    end &&
    match lte r with
    | Some b => num_leb (Num (Product.price p)) b
    | None => true
    end.
Proof.
  unfold compile_range. intros H p.
  destruct (gte r) as [[x| | |]|], (lte r) as [[y| | |]|];
    cbn [cast_bound mbind result_bind] in H;
    try discriminate H; now injection H as <-.
Qed.

(** The compiled query of the handler is the filter of the specification. *)
Lemma compile_satisfies (q : gmap string string) matching :
  compile (regex_other_pattern P) (regex_other_subject P)
    (build_query P (destructure q)) = Ok matching ->
  forall p, matching p = Spec.satisfies P q p.
Proof.
  intros Hc p. unfold compile in Hc.
  pose proof (build_query_or P (destructure q)) as Qo.
  destruct (build_query_filters P (destructure q)) as (Qc & Qb & Qp).
  unfold destructure in Qo at 2 3 4 5 6, Qc at 2, Qb at 2, Qp at 2 3 4 5.
  cbn [p_search p_category p_brand p_minPrice p_maxPrice] in Qo, Qc, Qb, Qp.
  rewrite Qo, Qc, Qb, Qp in Hc. clear Qo Qc Qb Qp.
  unfold Spec.satisfies, Spec.given, Spec.text_matches.
  await Hc t Et. await Hc c Ec. await Hc b Eb. await Hc r Er.
  injection Hc as <-. rewrite <- !andb_assoc. f_equal; [|f_equal; [|f_equal]].
  - destruct (q !! "search") as [s|]; cbn [from_option id] in Et;
      [destruct (truthy s) eqn:Ts|];
      cbn [opt_pred truthy String.eqb negb] in Et; try (now injection Et as <-).
    cbn [compile_or compile_regex regex options] in Et.
    destruct (Regex.test _ _ s "i") as [m|]; [|discriminate Et].
    cbn [mbind result_bind] in Et. injection Et as <-.
    cbn. now rewrite orb_false_r, !orb_assoc.
  - destruct (q !! "category") as [v|]; [destruct (truthy v)|];
      cbn [opt_pred] in Ec; now injection Ec as <-.
  - destruct (q !! "brand") as [v|]; [destruct (truthy v)|];
      cbn [opt_pred] in Eb; now injection Eb as <-.
  - destruct (q !! "minPrice") as [lo|]; [destruct (truthy lo) eqn:Tlo|];
      (destruct (q !! "maxPrice") as [hi|]; [destruct (truthy hi) eqn:Thi|]);
      cbn [truthy_opt] in Er; rewrite ?Tlo, ?Thi in Er;
      cbn [orb opt_pred] in Er;
      try (injection Er as <-; reflexivity);
      now rewrite (compile_range_spec _ _ Er p).
Qed.


(** Under a sort key that names a scalar path, what the store hands back is
    in order of that path, whichever way it orders equal keys. *)
Lemma sort_docs_sorted (a : listing_params) docs sorted f :
  sort_docs (order_other P) (build_sort a) docs = Ok sorted ->
  sort_field (p_sortBy a) = Some f ->
  Sorted (fun x y =>
            if String.eqb (p_order a) "asc"
            then value_leb (f x) (f y) = true
            else value_leb (f y) (f x) = true) sorted.
Proof.
  intros Hs Hf. unfold build_sort, js_set in Hs.
  destruct (String.eqb_spec (p_sortBy a) "__proto__") as [E|_];
    [rewrite E in Hf; discriminate Hf|].
  cbn [assign sort_docs foldr mbind result_bind sort_key] in Hs.
  unfold order in Hs. rewrite Hf in Hs.
  destruct (String.eqb (p_order a) "asc");
    cbn in Hs; injection Hs as <-; apply sort_by_sorted;
    intros x y; apply value_leb_total.
Qed.


(** C8, as the code has it. [sortBy] is [createdAt] and [order] is [desc]
    when absent, and for every sort key other than [__proto__] the sort
    directive is the single key mapped to 1 for [asc] and to -1
    otherwise. *)
Theorem sort_directive_single_key (q : gmap string string) :
  let a := destructure q in
  (q !! "sortBy" = None -> p_sortBy a = "createdAt") /\
  (q !! "order" = None -> p_order a = "desc") /\
  (p_sortBy a <> "__proto__" ->
   build_sort a = [(p_sortBy a, if String.eqb (p_order a) "asc" then 1 else -1)]).
Proof.
  intros a. subst a. unfold destructure. cbn [p_sortBy p_order].
  split; [|split].
  - now intros ->.
  - now intros ->.
  - intros Hne. unfold build_sort, js_set. cbn [p_sortBy p_order].
    destruct (String.eqb_spec (default "createdAt" (q !! "sortBy")) "__proto__") as [E|_];
      [contradiction|reflexivity].
Qed.
End Pagination.

(** *** Worked requests for pagination and sorting *)




(** C8 at [?sortBy=price&order=asc]: the directive is [{ price: 1 }]. *)
Lemma sort_directive_single_key_witness :
  Server.build_sort
    (Server.destructure (list_to_map [("sortBy", "price"); ("order", "asc")])) =
  [("price", 1)].
Proof.
  destruct (sort_directive_single_key
              (list_to_map [("sortBy", "price"); ("order", "asc")])) as (_ & _ & H).
  apply H. vm_compute. discriminate.
Defined.

(** C8 as stated fails at [?sortBy=__proto__]: the assignment stores no key
    and the directive is the empty object. *)
Lemma sort_directive_proto_counterexample :
  Server.p_sortBy (Server.destructure {[ "sortBy" := "__proto__" ]}) = "__proto__" /\
  Server.build_sort (Server.destructure {[ "sortBy" := "__proto__" ]}) = [] /\
  ~ exists key dir,
      Server.build_sort (Server.destructure {[ "sortBy" := "__proto__" ]}) =
      [(key, dir)].
Proof.
  split; [reflexivity|]. split; [reflexivity|].
  intros (key & dir & H). vm_compute in H. discriminate H.
Qed.

(** ** Session tokens and the auth middleware *)

Section Auth.
Import JsNum Js Mongo Server.
Variable P : platform.
Variable env_JWT_SECRET : option string.

Local Abbreviation secret := (JWT_SECRET env_JWT_SECRET).

Lemma verify_untrusted t now :
  Jwt.untrusted (hmac P) t secret now ->
  exists e, Jwt.verify (hmac P) t secret now = Throw e.
Proof.
  destruct t as [raw|p sig]; simpl.
  - intros _. now eexists.
  - intros [Hsig|(e & He & Hexp)].
    + destruct (N.eqb_spec sig (hmac P secret p)) as [E|_]; [contradiction|].
      now eexists.
    + destruct (N.eqb sig (hmac P secret p)); simpl; [|now eexists].
      rewrite He. destruct (Z.leb_spec e (now / 1000)); [now eexists | lia].
Qed.

Lemma verify_ok_not_empty t now d :
  Jwt.verify (hmac P) t secret now = Ok d -> Jwt.is_empty t = false.
Proof. destruct t; [discriminate | reflexivity]. Qed.

Lemma authMiddleware_verified w req t d :
  cookies req !! "token" = Some t ->
  Jwt.verify (hmac P) t secret (now w) = Ok d ->
  authMiddleware P env_JWT_SECRET w req = Next (set_userId (Jwt.userId d) req).
Proof.
  intros Hc Hv. unfold authMiddleware.
  rewrite Hc, (verify_ok_not_empty t (now w) d Hv), Hv. reflexivity.
Qed.

(** With a token that verifies, the chain of [/api/auth/me] runs the
    handler on the request that carries the decoded [userId]. *)
Lemma route_me_verified w st req t d :
  cookies req !! "token" = Some t ->
  Jwt.verify (hmac P) t secret (now w) = Ok d ->
  route_me P env_JWT_SECRET w st req =
  (["authMiddleware"; "me"], Some (me P st (set_userId (Jwt.userId d) req))).
Proof.
  intros Hc Hv. unfold route_me, run_chain.
  rewrite (authMiddleware_verified w req t d Hc Hv). reflexivity.
Qed.

(** C4. For every [userId] and issuance time, [jwt.sign] with the span
    [7d] yields a token whose claims carry that [userId], the issuance time
    in seconds and an expiry exactly 7 days later; verifying it at once
    yields these claims, and the middleware attaches the same [userId]. A
    token that does not decode, is badly signed or has expired is rejected
    by [jwt.verify], and the middleware answers 401 without a [userId]. *)
Theorem issued_token_verifies userId now :
  (exists p sig,
     Jwt.sign (hmac P) userId secret "7d" now = Ok (Jwt.Signed p sig) /\
     Jwt.userId p = userId /\
     Jwt.iat p = now / 1000 /\
     Jwt.exp p = Some (Jwt.iat p + 7 * 24 * 60 * 60) /\
     Jwt.verify (hmac P) (Jwt.Signed p sig) secret now = Ok p /\
     forall w req,
       Server.now w = now -> cookies req !! "token" = Some (Jwt.Signed p sig) ->
       authMiddleware P env_JWT_SECRET w req = Next (set_userId userId req)) /\
  (forall t now',
     Jwt.untrusted (hmac P) t secret now' ->
     (exists e, Jwt.verify (hmac P) t secret now' = Throw e) /\
     forall w req,
       Server.now w = now' -> cookies req !! "token" = Some t ->
       exists msg,
         authMiddleware P env_JWT_SECRET w req = Respond (respond 401 (Message msg))).
Proof.
  split.
  - set (p := Jwt.mk userId (now / 1000) (Some (now / 1000 + 604800000 / 1000))).
    assert (Hv : Jwt.verify (hmac P) (Jwt.Signed p (hmac P secret p)) secret now = Ok p).
    { unfold Jwt.verify. rewrite N.eqb_refl. cbn [negb Jwt.exp p].
      destruct (Z.leb_spec (now / 1000 + 604800000 / 1000) (now / 1000)) as [H|_];
        [|reflexivity].
      change (604800000 / 1000) with 604800 in H. lia. }
    exists p, (hmac P secret p). repeat split; try reflexivity; try exact Hv.
    intros w req Hw Hc. unfold authMiddleware. rewrite Hc. cbn [Jwt.is_empty].
    rewrite Hw, Hv. reflexivity.
  - intros t now' Hbad. pose proof (verify_untrusted t now' Hbad) as [e He].
    split; [now exists e|].
    intros w req Hw Hc. unfold authMiddleware. rewrite Hc.
    destruct (Jwt.is_empty t); [now eexists|].
    rewrite Hw, He. now eexists.
Qed.

(** C5. On [GET /api/auth/me], when the [token] cookie is absent or
    [jwt.verify] rejects it, the chain stops in the middleware with a 401
    and the handler is not invoked; when the token verifies, the middleware
    attaches the decoded [userId] to the request and the handler runs on
    that request. *)
Theorem auth_middleware_gate w st req :
  ((cookies req !! "token" = None \/
    exists t, cookies req !! "token" = Some t /\
              forall d, Jwt.verify (hmac P) t secret (now w) <> Ok d) ->
   exists msg,
     route_me P env_JWT_SECRET w st req =
     (["authMiddleware"], Some (respond 401 (Message msg)))) /\
  (forall t d,
     cookies req !! "token" = Some t ->
     Jwt.verify (hmac P) t secret (now w) = Ok d ->
     authMiddleware P env_JWT_SECRET w req = Next (set_userId (Jwt.userId d) req) /\
     Server.userId (set_userId (Jwt.userId d) req) = Some (Jwt.userId d) /\
     route_me P env_JWT_SECRET w st req =
     (["authMiddleware"; "me"], Some (me P st (set_userId (Jwt.userId d) req)))).
Proof.
  split.
  - intros [Hnone|(t & Hc & Hbad)]; unfold route_me, run_chain, authMiddleware.
    + rewrite Hnone. now eexists.
    + rewrite Hc. destruct (Jwt.is_empty t); [now eexists|].
      destruct (Jwt.verify (hmac P) t secret (now w)) as [d|e] eqn:Ev.
      * now destruct (Hbad d).
      * now eexists.
  - intros t d Hc Hv.
    split; [now apply (authMiddleware_verified w req t d)|].
    split; [reflexivity|]. now apply (route_me_verified w st req t d).
Qed.
End Auth.

(** ** Lookups in a collection *)

Section Lookup.
Context {A : Type}.

Lemma find_absent (f : A -> bool) (l : list A) :
  (forall x, x ∈ l -> f x = false) -> List.find f l = None.
Proof.
  induction l as [|y l IH]; intros H; simpl; [reflexivity|].
  rewrite (H y (list_elem_of_here _ _)). apply IH.
  intros x Hx. apply H. now apply list_elem_of_further.
Qed.

Lemma existsb_absent (f : A -> bool) (l : list A) :
  (forall x, x ∈ l -> f x = false) -> existsb f l = false.
Proof.
  induction l as [|y l IH]; intros H; simpl; [reflexivity|].
  rewrite (H y (list_elem_of_here _ _)). apply IH.
  intros x Hx. apply H. now apply list_elem_of_further.
Qed.

Lemma find_present (f : A -> bool) (l : list A) (x : A) :
  x ∈ l -> f x = true -> exists y, List.find f l = Some y.
Proof.
  induction l as [|z l IH]; intros Hx Hf.
  - now apply elem_of_nil in Hx.
  - simpl. destruct (f z) eqn:Ez; [now exists z|].
    apply elem_of_cons in Hx as [->|Hx]; [congruence | now apply IH].
Qed.
End Lookup.

Lemma findOne_email_inv st email u :
  Mongo.User_findOne_email st email = Js.Ok (Some u) ->
  Mongo.outage st = None /\ u ∈ Mongo.users st /\ Mongo.User.email u = email.
Proof.
  unfold Mongo.User_findOne_email, Mongo.connected. intros H.
  destruct (Mongo.outage st); [discriminate H|]. cbn [mbind Js.result_bind] in H.
  injection H as H. apply find_some in H as [Hin Heq].
  split; [reflexivity|]. split; [now apply list_elem_of_In|].
  now apply String.eqb_eq.
Qed.

(** ** Registration, login and the current user *)

Section Accounts.
Import JsNum Js Mongo Server.
Variable P : platform.
Variable env_JWT_SECRET : option string.

Lemma truthy_nonempty (s : string) : truthy s = true -> String.eqb s "" = false.
Proof. unfold truthy. now destruct (String.eqb s ""). Qed.

Lemma sign_7d (userId : string) (now : Z) :
  Jwt.sign (hmac P) userId (JWT_SECRET env_JWT_SECRET) "7d" now =
  Ok (Jwt.Signed (Jwt.mk userId (now / 1000) (Some (now / 1000 + 604800)))
        (hmac P (JWT_SECRET env_JWT_SECRET)
           (Jwt.mk userId (now / 1000) (Some (now / 1000 + 604800))))).
Proof. reflexivity. Qed.

(** C6. Registering an email that no stored user has, with the three fields
    non-empty, the store answering and a non-empty hash, is answered with
    201; registering the same email again is answered with 400 "User
    already exists" and changes nothing. A registration request that lacks
    [name], [email] or [password] (absent or empty) is answered with 400
    "All fields are required" and leaves the store as it was. *)
Theorem register_twice_then_conflict :
  (forall w1 w2 st req1 req2 name1 name2 email password1 password2,
     outage st = None ->
     (forall u, u ∈ users st -> User.email u <> email) ->
     body req1 !! "name" = Some name1 -> body req1 !! "email" = Some email ->
     body req1 !! "password" = Some password1 ->
     body req2 !! "name" = Some name2 -> body req2 !! "email" = Some email ->
     body req2 !! "password" = Some password2 ->
     truthy name1 = true -> truthy name2 = true -> truthy email = true ->
     truthy password1 = true -> truthy password2 = true ->
     bcrypt_hash P password1 10 (salt w1) <> "" ->
     exists r1 st1,
       register P env_JWT_SECRET w1 st req1 = (r1, st1) /\
       status r1 = 201 /\
       register P env_JWT_SECRET w2 st1 req2 =
       (respond 400 (Message "User already exists"), st1)) /\
  (forall w st req,
     truthy_opt (body req !! "name") = false \/
     truthy_opt (body req !! "email") = false \/
     truthy_opt (body req !! "password") = false ->
     register P env_JWT_SECRET w st req =
     (respond 400 (Message "All fields are required"), st)).
Proof.
  split.
  - intros w1 w2 st req1 req2 name1 name2 email password1 password2
      Hup Hfresh Hn1 He1 Hp1 Hn2 He2 Hp2 Tn1 Tn2 Te Tp1 Tp2 Hhash.
    set (u := User.mk (fresh_id w1) name1 email
                (bcrypt_hash P password1 10 (salt w1)) (now w1)).
    set (st1 := mkdb (users st ++ [u]) (Mongo.products st) None).
    assert (Hfind : User_findOne_email st email = Ok None).
    { unfold User_findOne_email, connected. rewrite Hup. cbn [mbind result_bind].
      f_equal. apply find_absent. intros v Hv.
      apply String.eqb_neq. now apply Hfresh. }
    assert (Hsave : User_save st u = Ok st1).
    { unfold User_save, connected. cbn [User.name User.email User.password u].
      rewrite (truthy_nonempty _ Tn1), (truthy_nonempty _ Te).
      destruct (String.eqb_spec (bcrypt_hash P password1 10 (salt w1)) "") as [E|_];
        [contradiction|].
      rewrite Hup. cbn [mbind result_bind].
      rewrite existsb_absent; [reflexivity|].
      intros v Hv. apply String.eqb_neq. now apply Hfresh. }
    assert (Hfind1 : exists v, User_findOne_email st1 email = Ok (Some v)).
    { unfold User_findOne_email, connected, st1.
      cbn [outage users mbind result_bind].
      destruct (find_present (fun v => String.eqb (User.email v) email)
                  (users st ++ [u]) u) as [v Hv].
      - apply elem_of_app. right. apply list_elem_of_here.
      - apply String.eqb_refl.
      - exists v. now rewrite Hv. }
    eexists _, st1. split; [|split].
    + unfold register. rewrite Hn1, He1, Hp1, Tn1, Te, Tp1. cbn [negb orb].
      rewrite Hfind. cbv zeta. fold u. rewrite Hsave, sign_7d. reflexivity.
    + reflexivity.
    + destruct Hfind1 as [v Hv].
      unfold register. rewrite Hn2, He2, Hp2, Tn2, Te, Tp2. cbn [negb orb].
      rewrite Hv. reflexivity.
  - intros w st req H. unfold register.
    destruct (body req !! "name") as [n|], (body req !! "email") as [e|],
      (body req !! "password") as [p|]; try reflexivity.
    cbn [truthy_opt] in H.
    destruct (truthy n), (truthy e), (truthy p); try reflexivity;
      destruct H as [H|[H|H]]; discriminate H.
Qed.

(** C10, as the code has it. On [GET /api/auth/me] with a token that
    verifies, when the embedded [userId] is a well-formed id, the store
    answers and no stored user has that id, the handler runs and answers
    200 with the body [null]. *)
Theorem me_unknown_user_is_null w st req t d oid :
  cookies req !! "token" = Some t ->
  Jwt.verify (hmac P) t (JWT_SECRET env_JWT_SECRET) (now w) = Ok d ->
  cast_object_id (legacy12 P) (Jwt.userId d) = Some oid ->
  outage st = None ->
  (forall u, u ∈ users st -> Regex.lower_string (User._id u) <> oid) ->
  route_me P env_JWT_SECRET w st req =
  (["authMiddleware"; "me"], Some (respond 200 Null)).
Proof.
  intros Hc Hv Hcast Hup Hnone.
  rewrite (route_me_verified P env_JWT_SECRET w st req t d Hc Hv). do 2 f_equal.
  unfold me, set_userId. cbn [Server.userId].
  unfold User_findById, connected. rewrite Hcast, Hup. cbn [mbind result_bind].
  rewrite find_absent; [reflexivity|].
  intros u Hu. apply String.eqb_neq. now apply Hnone.
Qed.

(** *** GET /api/products/:id *)

(** C7. With the route parameter [id]: a well-formed id that no stored
    product has is answered with 404 "Product not found" when the store
    answers; an id that cannot be cast, and an unreachable store, are
    answered with 500; a 404 answer is never a 500 answer; and every
    request is answered, with status 200, 404 or 500. *)
Theorem product_lookup_outcomes st req id :
  params req !! "id" = Some id ->
  (forall oid,
     cast_object_id (legacy12 P) id = Some oid -> outage st = None ->
     (forall p, p ∈ Mongo.products st -> Regex.lower_string (Product._id p) <> oid) ->
     product_handler P st req = respond 404 (Message "Product not found")) /\
  (cast_object_id (legacy12 P) id = None ->
   product_handler P st req =
   respond 500 (MessageError "Server error" (CastError "_id" id))) /\
  (forall oid msg,
     cast_object_id (legacy12 P) id = Some oid -> outage st = Some msg ->
     product_handler P st req =
     respond 500 (MessageError "Server error" (Unreachable msg))) /\
  (forall v e, respond 404 v <> respond 500 e) /\
  (status (product_handler P st req) = 200 \/
   status (product_handler P st req) = 404 \/
   status (product_handler P st req) = 500).
Proof.
  intros Hid. unfold product_handler. rewrite Hid. unfold Product_findById, connected.
  split; [|split; [|split; [|split]]].
  - intros oid -> -> Hnone. cbn [mbind result_bind].
    rewrite find_absent; [reflexivity|].
    intros p Hp. apply String.eqb_neq. now apply Hnone.
  - intros ->. reflexivity.
  - intros oid msg -> ->. reflexivity.
  - intros v e. discriminate.
  - destruct (cast_object_id (legacy12 P) id) as [oid|]; [|now right; right].
    destruct (outage st); [now right; right|]. cbn [mbind result_bind].
    destruct (List.find _ _); [now left | now right; left].
Qed.
End Accounts.

(** ** POST /api/auth/login on any JSON body *)

Section BodyLogin.
Import JsNum Js Mongo Server.
Variable P : platform.
Variable env_JWT_SECRET : option string.
Variable email_other : Body.value -> result (User.t -> bool).

Local Abbreviation login := (Body.login P env_JWT_SECRET email_other).
Local Abbreviation User_findOne := (Body.User_findOne email_other).

(** On a body whose members are strings the handler is [Server.login]. *)
Lemma login_of_strings w st req :
  login w st (Body.of_strings (body req)) =
  Body.Sent (Server.login P env_JWT_SECRET w st req).
Proof.
  unfold Body.login, Server.login, Body.of_strings. rewrite !lookup_fmap.
  destruct (body req !! "email") as [email|]; cbn [fmap option_fmap option_map];
    [|reflexivity].
  destruct (body req !! "password") as [password|];
    cbn [fmap option_fmap option_map]; [|reflexivity].
  cbn [Body.truthy Body.User_findOne].
  destruct (negb (truthy email) || negb (truthy password)); [reflexivity|].
  destruct (User_findOne_email st email) as [[u|]|e]; cbn [mbind result_bind];
    try reflexivity.
  destruct (negb (bcrypt_compare P password (User.password u))); [reflexivity|].
  destruct (Jwt.sign _ _ _ _ _); reflexivity.
Qed.

(** A user that [User.findOne] yields is a stored user, and has the email
    asked for when that is a string. *)
Lemma User_findOne_inv st email u :
  User_findOne st email = Ok (Some u) ->
  u ∈ users st /\ forall s, email = Body.VStr s -> User.email u = s.
Proof.
  intros H.
  assert (Hother : forall v,
            (matching ← email_other v; _ ← connected st;
             Ok (List.find matching (users st))) = Ok (Some u) ->
            u ∈ users st).
  { intros v Hv. destruct (email_other v) as [m|]; [|discriminate Hv].
    cbn [mbind result_bind] in Hv. destruct (connected st); [|discriminate Hv].
    cbn [mbind result_bind] in Hv. injection Hv as Hv.
    apply find_some in Hv as [Hin _]. now apply list_elem_of_In. }
  destruct email as [|b|n|s|items|members]; cbn [Body.User_findOne] in H;
    try (split; [now apply (Hother _ H) | discriminate]).
  apply findOne_email_inv in H as (_ & Hin & He).
  split; [exact Hin|]. now intros s' [= <-].
Qed.

(** The two ways a login ends: a 200 for a stored user whose hash
    [bcrypt.compare] accepts for the password, a string, with the session
    cookie set; or a 400 or 500 without any cookie. *)
Lemma body_login_cases w st (b : gmap string Body.value) :
  (exists email password u,
     b !! "email" = Some email /\ b !! "password" = Some (Body.VStr password) /\
     User_findOne st email = Ok (Some u) /\
     bcrypt_compare P password (User.password u) = true /\
     login w st b =
     Body.Sent
       (with_cookie "token"
          (Jwt.Signed (Jwt.mk (User._id u) (now w / 1000) (Some (now w / 1000 + 604800)))
             (hmac P (JWT_SECRET env_JWT_SECRET)
                (Jwt.mk (User._id u) (now w / 1000) (Some (now w / 1000 + 604800)))))
          cookieOptions
          (respond 200 (MessageUser "Login successful"
                          (User._id u) (User.name u) (User.email u))))) \/
  (Body.cookies_of (login w st b) = [] /\
   (Body.status_of (login w st b) = 400 \/ Body.status_of (login w st b) = 500)).
Proof.
  unfold Body.login.
  destruct (b !! "email") as [email|]; [|right; split; [reflexivity | now left]].
  destruct (b !! "password") as [password|];
    [|right; split; [reflexivity | now left]].
  destruct (negb (Body.truthy email) || negb (Body.truthy password));
    [right; split; [reflexivity | now left]|].
  destruct (Body.User_findOne email_other st email) as [[u|]|e] eqn:Ef;
    [|right; split; [reflexivity | now left] | right; split; [reflexivity | now right]].
  destruct password as [|x|n|password|items|members];
    try (right; split; [reflexivity | now right]).
  destruct (bcrypt_compare P password (User.password u)) eqn:Ec; cbn [negb];
    [|right; split; [reflexivity | now left]].
  rewrite sign_7d. left. now exists email, password, u.
Qed.

(** C9, as the code has it. With the email truthy and the password a
    non-empty string, a login whose email the store does not know and a
    login whose email it knows but whose password [bcrypt.compare] does not
    accept get the same answer: status 400, body
    [{ message: "Invalid credentials" }], no cookie. *)
Theorem login_failures_indistinguishable
  w1 w2 st1 st2 (b1 b2 : gmap string Body.value) email1 email2 password1 password2 u :
  b1 !! "email" = Some email1 -> b1 !! "password" = Some (Body.VStr password1) ->
  b2 !! "email" = Some email2 -> b2 !! "password" = Some (Body.VStr password2) ->
  Body.truthy email1 = true -> truthy password1 = true ->
  Body.truthy email2 = true -> truthy password2 = true ->
  User_findOne st1 email1 = Ok None ->
  User_findOne st2 email2 = Ok (Some u) ->
  bcrypt_compare P password2 (User.password u) = false ->
  login w1 st1 b1 = Body.Sent (respond 400 (Message "Invalid credentials")) /\
  login w2 st2 b2 = Body.Sent (respond 400 (Message "Invalid credentials")) /\
  login w1 st1 b1 = login w2 st2 b2.
Proof.
  intros He1 Hp1 He2 Hp2 Te1 Tp1 Te2 Tp2 Hunknown Hknown Hwrong.
  assert (H1 : login w1 st1 b1 =
               Body.Sent (respond 400 (Message "Invalid credentials"))).
  { unfold Body.login. rewrite He1, Hp1, Te1. cbn [Body.truthy]. rewrite Tp1.
    cbn [negb orb]. now rewrite Hunknown. }
  assert (H2 : login w2 st2 b2 =
               Body.Sent (respond 400 (Message "Invalid credentials"))).
  { unfold Body.login. rewrite He2, Hp2, Te2. cbn [Body.truthy]. rewrite Tp2.
    cbn [negb orb]. rewrite Hknown, Hwrong. reflexivity. }
  split; [exact H1|]. split; [exact H2|]. now rewrite H1, H2.
Qed.
End BodyLogin.

(** *** Worked requests for sessions and accounts *)

(** C4 at a cookie that is no token: [jwt.verify] rejects it. *)
Lemma issued_token_verifies_witness :
  exists e,
    Jwt.verify (Server.hmac Sample.platform0) (Jwt.Malformed "not-a-token")
      (Server.JWT_SECRET None) 1700000000000 = Js.Throw e.
Proof.
  destruct (issued_token_verifies Sample.platform0 None
              "65b000000000000000000001" 1700000000000) as [_ H].
  destruct (H (Jwt.Malformed "not-a-token") 1700000000000 I) as [He _].
  exact He.
Defined.

(** C5 at a request without cookies, and at a request with a token signed
    for Alice. *)
Lemma auth_middleware_gate_witness :
  let p := Jwt.mk "65b000000000000000000001" 1700000000 (Some 1700604800) in
  let t := Jwt.Signed p (Server.hmac Sample.platform0 (Server.JWT_SECRET None) p) in
  (exists msg,
     Server.route_me Sample.platform0 None Sample.noon Sample.catalogue (Sample.get []) =
     (["authMiddleware"], Some (Server.respond 401 (Server.Message msg)))) /\
  Server.authMiddleware Sample.platform0 None Sample.noon (Sample.with_token t) =
  Server.Next (Server.set_userId "65b000000000000000000001" (Sample.with_token t)).
Proof.
  intros p t. split.
  - destruct (auth_middleware_gate Sample.platform0 None Sample.noon Sample.catalogue
                (Sample.get [])) as [H _].
    apply H. left. reflexivity.
  - destruct (auth_middleware_gate Sample.platform0 None Sample.noon Sample.catalogue
                (Sample.with_token t)) as [_ H].
    destruct (H t p) as [Hmw _]; [vm_compute; reflexivity | vm_compute; reflexivity |].
    exact Hmw.
Defined.

(** C6 at two registrations of bob@example.com on the sample user base. *)
Lemma register_twice_then_conflict_witness :
  let req1 := Sample.post [("name", "Bob"); ("email", "bob@example.com");
                           ("password", "builder")] in
  let req2 := Sample.post [("name", "Bobby"); ("email", "bob@example.com");
                           ("password", "other")] in
  exists r1 st1,
    Server.register Sample.platform0 None Sample.noon Sample.catalogue req1 = (r1, st1) /\
    Server.status r1 = 201 /\
    Server.register Sample.platform0 None Sample.noon st1 req2 =
    (Server.respond 400 (Server.Message "User already exists"), st1).
Proof.
  intros req1 req2.
  destruct register_twice_then_conflict with (P := Sample.platform0) (env_JWT_SECRET := @None string)
    as [H _].
  apply (H Sample.noon Sample.noon Sample.catalogue req1 req2
           "Bob" "Bobby" "bob@example.com" "builder" "other");
    try (vm_compute; reflexivity).
  - intros u Hu. apply list_elem_of_singleton in Hu. subst u. vm_compute. discriminate.
  - vm_compute. discriminate.
Defined.

(** C7 at a well-formed id that no sample product has. *)
Lemma product_lookup_outcomes_witness :
  Server.product_handler Sample.platform0 Sample.catalogue
    (Sample.get_id "65A0000000000000000000FF") =
  Server.respond 404 (Server.Message "Product not found").
Proof.
  destruct (product_lookup_outcomes Sample.platform0 Sample.catalogue
              (Sample.get_id "65A0000000000000000000FF") "65A0000000000000000000FF")
    as [H _]; [vm_compute; reflexivity|].
  apply (H "65a0000000000000000000ff"); [vm_compute; reflexivity | reflexivity |].
  intros p Hp.
  repeat (apply elem_of_cons in Hp as [->|Hp]); [ .. | now apply elem_of_nil in Hp ];
    vm_compute; discriminate.
Defined.

(** C9 at an unknown email and at Alice with a wrong password. *)
Lemma login_failures_indistinguishable_witness :
  Body.login Sample.platform0 None Body.email_other0 Sample.noon Sample.catalogue
    (Body.of_strings
       (list_to_map [("email", "nobody@example.com"); ("password", "guess")])) =
  Body.login Sample.platform0 None Body.email_other0 Sample.noon Sample.catalogue
    (Body.of_strings
       (list_to_map [("email", "alice@example.com"); ("password", "guess")])).
Proof.
  destruct (login_failures_indistinguishable Sample.platform0 None Body.email_other0
              Sample.noon Sample.noon Sample.catalogue Sample.catalogue
              (Body.of_strings
                 (list_to_map [("email", "nobody@example.com"); ("password", "guess")]))
              (Body.of_strings
                 (list_to_map [("email", "alice@example.com"); ("password", "guess")]))
              (Body.VStr "nobody@example.com") (Body.VStr "alice@example.com")
              "guess" "guess" Sample.alice)
    as (_ & _ & H); [ vm_compute; reflexivity .. | ].
  exact H.
Defined.

(** C9 as stated fails at the password 123, a JSON number, which is
    present and truthy. With an email no user has, the answer is the 400
    "Invalid credentials". With Alice's email, [bcrypt.compare] rejects the
    number and the answer is the 500 of the [catch] block: the status tells
    a known email from an unknown one. *)
Lemma login_number_password_counterexample :
  Mongo.User_findOne_email Sample.catalogue "nobody@example.com" = Js.Ok None /\
  Mongo.User_findOne_email Sample.catalogue "alice@example.com" =
    Js.Ok (Some Sample.alice) /\
  Body.number_password "alice@example.com" !! "password" =
    Some (Body.VNum (JsNum.of_Z 123)) /\
  Body.truthy (Body.VNum (JsNum.of_Z 123)) = true /\
  Body.login Sample.platform0 None Body.email_other0 Sample.noon Sample.catalogue
    (Body.number_password "nobody@example.com") =
  Body.Sent (Server.respond 400 (Server.Message "Invalid credentials")) /\
  Body.login Sample.platform0 None Body.email_other0 Sample.noon Sample.catalogue
    (Body.number_password "alice@example.com") =
  Body.IllegalArguments "number" "string" /\
  Body.status_of
    (Body.login Sample.platform0 None Body.email_other0 Sample.noon Sample.catalogue
       (Body.number_password "nobody@example.com")) <>
  Body.status_of
    (Body.login Sample.platform0 None Body.email_other0 Sample.noon Sample.catalogue
       (Body.number_password "alice@example.com")).
Proof.
  repeat split; try (vm_compute; reflexivity). vm_compute. discriminate.
Qed.

(** C10 at a token that verifies and names a well-formed id no user has. *)
Lemma me_unknown_user_is_null_witness :
  let p := Jwt.mk "65b0000000000000000000ff" 1700000000 (Some 1700604800) in
  let t := Jwt.Signed p (Server.hmac Sample.platform0 (Server.JWT_SECRET None) p) in
  Server.route_me Sample.platform0 None Sample.noon Sample.catalogue (Sample.with_token t) =
  (["authMiddleware"; "me"], Some (Server.respond 200 Server.Null)).
Proof.
  intros p t.
  apply (me_unknown_user_is_null Sample.platform0 None Sample.noon Sample.catalogue
           (Sample.with_token t) t p "65b0000000000000000000ff");
    try (vm_compute; reflexivity).
  intros u Hu. apply list_elem_of_singleton in Hu. subst u. vm_compute. discriminate.
Defined.

(** C10 as stated fails at a token that verifies and whose [userId] is
    [abc]: no stored user has that id, the lookup is rejected by the cast and
    the answer is 500, not 200 with [null]. *)
Lemma me_uncastable_user_id_counterexample :
  let p := Jwt.mk "abc" 1700000000 (Some 1700604800) in
  let t := Jwt.Signed p (Server.hmac Sample.platform0 (Server.JWT_SECRET None) p) in
  Jwt.verify (Server.hmac Sample.platform0) t (Server.JWT_SECRET None)
    (Server.now Sample.noon) = Js.Ok p /\
  (forall u, u ∈ Mongo.users Sample.catalogue -> Mongo.User._id u <> Jwt.userId p) /\
  Server.route_me Sample.platform0 None Sample.noon Sample.catalogue (Sample.with_token t) =
  (["authMiddleware"; "me"],
   Some (Server.respond 500 (Server.Message "Server error"))).
Proof.
  intros p t. split; [vm_compute; reflexivity|]. split; [|vm_compute; reflexivity].
  intros u Hu. apply list_elem_of_singleton in Hu. subst u. vm_compute. discriminate.
Qed.

(** * Further properties of the code *)

(** ** Accounts and sessions *)

Section Sessions.
Import JsNum Js Mongo Server Routes.
Variable P : platform.
Variable env_JWT_SECRET : option string.

Local Abbreviation secret := (JWT_SECRET env_JWT_SECRET).

(** The document that a registration builds. *)
Local Abbreviation new_user w name email password :=
  (User.mk (fresh_id w) name email (bcrypt_hash P password 10 (salt w)) (now w)).

(** The token that [jwt.sign] builds for a user id at the time of [w]. *)
Local Abbreviation token_for w id :=
  (Jwt.Signed (Jwt.mk id (now w / 1000) (Some (now w / 1000 + 604800)))
     (hmac P secret (Jwt.mk id (now w / 1000) (Some (now w / 1000 + 604800))))).

Lemma User_save_inv st u st' :
  User_save st u = Ok st' ->
  st' = mkdb (users st ++ [u]) (Mongo.products st) (outage st) /\
  existsb (fun v => String.eqb (User.email v) (User.email u)) (users st) = false.
Proof.
  unfold User_save, connected. intros H.
  destruct (String.eqb (User.name u) ""); [discriminate H|].
  destruct (String.eqb (User.email u) ""); [discriminate H|].
  destruct (String.eqb (User.password u) ""); [discriminate H|].
  destruct (outage st); [discriminate H|]. cbn [mbind result_bind] in H.
  destruct (existsb _ (users st)); [discriminate H|].
  injection H as <-. split; reflexivity.
Qed.

(** The two ways a registration ends: a 201 with the new document saved and
    the session cookie set, or another answer with the store untouched. *)
Lemma register_cases w st req r st' :
  register P env_JWT_SECRET w st req = (r, st') ->
  (exists name email password,
     body req !! "name" = Some name /\ body req !! "email" = Some email /\
     body req !! "password" = Some password /\
     truthy email = true /\ truthy password = true /\
     User_findOne_email st email = Ok None /\
     User_save st (new_user w name email password) = Ok st' /\
     r = with_cookie "token" (token_for w (fresh_id w)) cookieOptions
           (respond 201 (MessageUser "User registered successfully"
                           (fresh_id w) name email))) \/
  (status r <> 201 /\ set_cookies r = [] /\ st' = st).
Proof.
  unfold register. intros H.
  destruct (body req !! "name") as [name|];
    [|injection H as <- <-; right; split; [discriminate | split; reflexivity]].
  destruct (body req !! "email") as [email|];
    [|injection H as <- <-; right; split; [discriminate | split; reflexivity]].
  destruct (body req !! "password") as [password|];
    [|injection H as <- <-; right; split; [discriminate | split; reflexivity]].
  destruct (truthy name), (truthy email) eqn:Te, (truthy password) eqn:Tp;
    cbn [negb orb] in H;
    try (injection H as <- <-; right; split; [discriminate | split; reflexivity]).
  destruct (User_findOne_email st email) as [[found|]|e] eqn:Ef;
    try (injection H as <- <-; right; split; [discriminate | split; reflexivity]).
  cbv zeta in H.
  destruct (User_save st _) as [st1|e] eqn:Es;
    [|injection H as <- <-; right; split; [discriminate | split; reflexivity]].
  rewrite sign_7d in H. cbn [User._id User.name User.email] in H.
  injection H as <- <-. left. exists name, email, password.
  repeat split; try reflexivity; assumption.
Qed.

(** X1. A registration changes the store only when it answers 201, and then
    by exactly one appended user: the request's name and email, the bcrypt
    hash of the password (not the password), the fresh id; the products are
    untouched and the answer names the id, name and email. *)
Theorem register_changes_store_only_on_201 w st req r st' :
  register P env_JWT_SECRET w st req = (r, st') ->
  (status r = 201 ->
   exists name email password,
     body req !! "name" = Some name /\ body req !! "email" = Some email /\
     body req !! "password" = Some password /\
     st' = mkdb (users st ++ [new_user w name email password])
             (Mongo.products st) (outage st) /\
     payload r = MessageUser "User registered successfully" (fresh_id w) name email) /\
  (status r <> 201 -> st' = st).
Proof.
  intros H. destruct (register_cases w st req r st' H)
    as [(name & email & password & Hn & He & Hp & _ & _ & _ & Hs & ->)|(Hne & _ & ->)].
  - split; [|intros Hst; now destruct Hst].
    intros _. exists name, email, password.
    apply User_save_inv in Hs as [-> _]. repeat split; assumption.
  - split; [intros Hst; contradiction | reflexivity].
Qed.

Lemma existsb_email_false (l : list User.t) (email : string) :
  existsb (fun v => String.eqb (User.email v) email) l = false ->
  email ∉ map User.email l.
Proof.
  induction l as [|v l IH]; simpl; intros H.
  - apply not_elem_of_nil.
  - apply orb_false_iff in H as [Hv Hl]. apply not_elem_of_cons. split.
    + apply String.eqb_neq in Hv. congruence.
    + now apply IH.
Qed.

(** X2. Registration keeps the emails of the stored users pairwise
    distinct. *)
Theorem register_keeps_emails_unique w st req r st' :
  NoDup (map User.email (users st)) ->
  register P env_JWT_SECRET w st req = (r, st') ->
  NoDup (map User.email (users st')).
Proof.
  intros Hnd H. destruct (register_cases w st req r st' H)
    as [(name & email & password & _ & _ & _ & _ & _ & _ & Hs & _)|(_ & _ & ->)]; [|exact Hnd].
  apply User_save_inv in Hs as [-> Hfresh]. cbn [users User.email] in *.
  rewrite map_app. cbn [map]. apply NoDup_app. split; [exact Hnd|].
  split; [|apply NoDup_singleton].
  intros e He Hin. apply list_elem_of_singleton in Hin. subst e.
  now apply (existsb_email_false _ _ Hfresh).
Qed.

(** The middleware on a token this server signed, by the clock. *)
Lemma authMiddleware_token_for w w' req id :
  cookies req !! "token" = Some (token_for w id) ->
  (now w' / 1000 < now w / 1000 + 604800 ->
   authMiddleware P env_JWT_SECRET w' req = Next (set_userId id req)) /\
  (now w / 1000 + 604800 <= now w' / 1000 ->
   authMiddleware P env_JWT_SECRET w' req =
   Respond (respond 401 (Message "Invalid token"))).
Proof.
  intros Hc. unfold authMiddleware. rewrite Hc. cbn [Jwt.is_empty Jwt.verify].
  rewrite N.eqb_refl. cbn [negb Jwt.exp Jwt.userId].
  split; intros Ht;
    destruct (Z.leb_spec (now w / 1000 + 604800) (now w' / 1000)); try lia; reflexivity.
Qed.

(** X3. The session cookie of a 201 registration carries a token that the
    auth middleware accepts, attaching the new user's id, as long as the
    clock in whole seconds is below the issuance second plus 604800, and
    answers 401 "Invalid token" from that second on. *)
Theorem registration_session_lasts_7_days w st req r st' :
  register P env_JWT_SECRET w st req = (r, st') -> status r = 201 ->
  exists t,
    set_cookies r = [("token", t, cookieOptions)] /\
    forall w' req',
      cookies req' !! "token" = Some t ->
      (now w' / 1000 < now w / 1000 + 604800 ->
       authMiddleware P env_JWT_SECRET w' req' = Next (set_userId (fresh_id w) req')) /\
      (now w / 1000 + 604800 <= now w' / 1000 ->
       authMiddleware P env_JWT_SECRET w' req' =
       Respond (respond 401 (Message "Invalid token"))).
Proof.
  intros H Hst. destruct (register_cases w st req r st' H)
    as [(name & email & password & _ & _ & _ & _ & _ & _ & _ & ->)|[Hne _]];
    [|contradiction].
  exists (token_for w (fresh_id w)). split; [reflexivity|].
  intros w' req' Hc. now apply authMiddleware_token_for.
Qed.

(** The two ways a login ends: a 200 for a stored user whose password
    [bcrypt.compare] accepts, with the session cookie set, or a 400 or 500
    without any cookie. *)
Lemma login_cases w st req :
  (exists email password u,
     body req !! "email" = Some email /\ body req !! "password" = Some password /\
     User_findOne_email st email = Ok (Some u) /\
     bcrypt_compare P password (User.password u) = true /\
     login P env_JWT_SECRET w st req =
     with_cookie "token" (token_for w (User._id u)) cookieOptions
       (respond 200 (MessageUser "Login successful"
                       (User._id u) (User.name u) (User.email u)))) \/
  (set_cookies (login P env_JWT_SECRET w st req) = [] /\
   (status (login P env_JWT_SECRET w st req) = 400 \/
    status (login P env_JWT_SECRET w st req) = 500)).
Proof.
  unfold login.
  destruct (body req !! "email") as [email|]; [|right; split; [reflexivity | now left]].
  destruct (body req !! "password") as [password|];
    [|right; split; [reflexivity | now left]].
  destruct (negb (truthy email) || negb (truthy password));
    [right; split; [reflexivity | now left]|].
  destruct (User_findOne_email st email) as [[u|]|e] eqn:Ef; cbn [mbind result_bind];
    [|right; split; [reflexivity | now left] | right; split; [reflexivity | now right]].
  destruct (bcrypt_compare P password (User.password u)) eqn:Ec; cbn [negb];
    [|right; split; [reflexivity | now left]].
  rewrite sign_7d. cbn [mbind result_bind].
  left. now exists email, password, u.
Qed.

Lemma find_app_last {A} (f : A -> bool) (l : list A) (x : A) :
  List.find f l = None -> f x = true -> List.find f (l ++ [x]) = Some x.
Proof.
  induction l as [|y l IH]; simpl; intros Hn Hx.
  - now rewrite Hx.
  - destruct (f y); [discriminate Hn | now apply IH].
Qed.

(** X5. After a 201 registration, a login with the same email and password
    is answered 200 with the id, name and email of the registered user and
    a session cookie, provided [bcrypt.compare] accepts a password against
    its own hash. *)
Theorem login_after_register w w' st req lreq r st' email password :
  register P env_JWT_SECRET w st req = (r, st') -> status r = 201 ->
  body req !! "email" = Some email -> body req !! "password" = Some password ->
  body lreq !! "email" = Some email -> body lreq !! "password" = Some password ->
  bcrypt_compare P password (bcrypt_hash P password 10 (salt w)) = true ->
  exists name t,
    body req !! "name" = Some name /\
    login P env_JWT_SECRET w' st' lreq =
    with_cookie "token" t cookieOptions
      (respond 200 (MessageUser "Login successful" (fresh_id w) name email)).
Proof.
  intros H Hst He Hp Hle Hlp Hb.
  destruct (register_cases w st req r st' H)
    as [(name & email' & password' & Hn & He' & Hp' & Te & Tp & Hf & Hs & _)|[Hne _]];
    [|contradiction].
  rewrite He in He'. injection He' as <-. rewrite Hp in Hp'. injection Hp' as <-.
  apply User_save_inv in Hs as [-> _].
  exists name, (token_for w' (fresh_id w)). split; [exact Hn|].
  assert (Hfind : User_findOne_email
                    (mkdb (users st ++ [new_user w name email password])
                       (Mongo.products st) (outage st)) email =
                  Ok (Some (new_user w name email password))).
  { unfold User_findOne_email, connected in *. cbn [outage users].
    destruct (outage st); [discriminate Hf|]. cbn [mbind result_bind] in *.
    injection Hf as Hf. rewrite (find_app_last _ _ _ Hf); [reflexivity|].
    apply String.eqb_refl. }
  unfold login. rewrite Hle, Hlp, Te, Tp. cbn [negb orb].
  rewrite Hfind. cbn [mbind result_bind User.password]. rewrite Hb. cbn [negb].
  rewrite sign_7d. reflexivity.
Qed.

Lemma cast_well_formed (id : string) :
  (String.length id =? 24)%nat && all_hex id = true ->
  cast_object_id (legacy12 P) id = Some (Regex.lower_string id).
Proof. intros H. unfold cast_object_id. now rewrite H. Qed.

(** The current-user lookup finds the stored user with the id of the token,
    when ids are well formed and distinct. *)
Lemma me_finds_user st req u :
  outage st = None -> u ∈ users st ->
  (String.length (User._id u) =? 24)%nat && all_hex (User._id u) = true ->
  (forall v, v ∈ users st ->
     Regex.lower_string (User._id v) = Regex.lower_string (User._id u) -> v = u) ->
  me P st (set_userId (User._id u) req) =
  respond 200 (UserDoc (select_minus_password u)).
Proof.
  intros Hup Hin Hwf Huniq. unfold me, set_userId. cbn [Server.userId].
  unfold User_findById, connected. rewrite (cast_well_formed _ Hwf), Hup.
  cbn [mbind result_bind].
  destruct (find_present
              (fun v => String.eqb (Regex.lower_string (User._id v))
                          (Regex.lower_string (User._id u)))
              (users st) u Hin (String.eqb_refl _)) as [v Hv].
  rewrite Hv. apply find_some in Hv as [Hvin Hveq].
  apply String.eqb_eq in Hveq. apply list_elem_of_In in Hvin.
  now rewrite (Huniq v Hvin Hveq).
Qed.

(** X6. The cookie of a 200 login, presented to [GET /api/auth/me] before it
    expires, is answered 200 with the document of the user who logged in,
    without the password, when the stored ids are well-formed and
    distinct. *)
Theorem me_after_login w st lreq :
  status (login P env_JWT_SECRET w st lreq) = 200 ->
  (forall v, v ∈ users st ->
     (String.length (User._id v) =? 24)%nat && all_hex (User._id v) = true) ->
  (forall v v', v ∈ users st -> v' ∈ users st ->
     Regex.lower_string (User._id v) = Regex.lower_string (User._id v') -> v = v') ->
  exists t u,
    set_cookies (login P env_JWT_SECRET w st lreq) = [("token", t, cookieOptions)] /\
    u ∈ users st /\
    payload (login P env_JWT_SECRET w st lreq) =
    MessageUser "Login successful" (User._id u) (User.name u) (User.email u) /\
    forall w' req,
      cookies req !! "token" = Some t ->
      now w' / 1000 < now w / 1000 + 604800 ->
      route_me P env_JWT_SECRET w' st req =
      (["authMiddleware"; "me"],
       Some (respond 200 (UserDoc (select_minus_password u)))).
Proof.
  intros H200 Hwf Huniq.
  destruct (login_cases w st lreq)
    as [(email & password & u & _ & _ & Hf & _ & Hr)|[_ [Hst|Hst]]];
    [|rewrite Hst in H200; discriminate H200 ..].
  rewrite Hr. apply findOne_email_inv in Hf as (Hup & Hin & _).
  exists (token_for w (User._id u)), u. repeat split; [exact Hin|].
  intros w' req Hc Ht. unfold route_me, run_chain.
  destruct (authMiddleware_token_for w w' req (User._id u) Hc) as [Hacc _].
  rewrite (Hacc Ht). do 2 f_equal.
  apply me_finds_user; auto.
Qed.

(** X7. Logout clears the cookie that registration and login set: every
    cookie in a registration or login answer has the name and the options of
    a cookie that the logout answer, a 200, clears. *)
Theorem logout_clears_the_session_cookie w st req name t opts :
  (name, t, opts) ∈ set_cookies (fst (register P env_JWT_SECRET w st req)) \/
  (name, t, opts) ∈ set_cookies (login P env_JWT_SECRET w st req) ->
  forall req',
    code (logout req') = 200 /\ (name, opts) ∈ cleared (logout req').
Proof.
  intros H req'. split; [reflexivity|]. cbn [logout cleared].
  assert (Hc : name = "token" /\ opts = cookieOptions).
  { destruct H as [H|H].
    - destruct (register P env_JWT_SECRET w st req) as [r st'] eqn:Er.
      cbn [fst] in H. destruct (register_cases w st req r st' Er)
        as [(n & e & p & _ & _ & _ & _ & _ & _ & _ & ->)|(_ & Hno & _)].
      + cbn in H. apply list_elem_of_singleton in H. now injection H as -> _ ->.
      + rewrite Hno in H. now apply elem_of_nil in H.
    - destruct (login_cases w st req)
        as [(e & p & u & _ & _ & _ & _ & Hr)|[Hno _]].
      + rewrite Hr in H. cbn in H. apply list_elem_of_singleton in H.
        now injection H as -> _ ->.
      + rewrite Hno in H. now apply elem_of_nil in H. }
  destruct Hc as [-> ->]. apply list_elem_of_here.
Qed.
End Sessions.

(** ** Login on any JSON body: when the session cookie is set *)

Section BodySessions.
Import JsNum Js Mongo Server.
Variable P : platform.
Variable env_JWT_SECRET : option string.
Variable email_other : Body.value -> result (User.t -> bool).

Local Abbreviation login := (Body.login P env_JWT_SECRET email_other).

(** X4. Whatever JSON values the body holds, a login answers 200 only when
    the password is a string that [bcrypt.compare] accepts for the stored
    hash of a stored user, the one [User.findOne({ email })] yields, who has
    the submitted email when that is a string; it sets the session cookie
    exactly then: every other answer is a 400 or a 500 and sets no
    cookie. *)
Theorem login_cookie_only_on_success w st (b : gmap string Body.value) :
  (Body.status_of (login w st b) = 200 ->
   exists email password u t,
     b !! "email" = Some email /\ b !! "password" = Some (Body.VStr password) /\
     u ∈ users st /\
     (forall s, email = Body.VStr s -> User.email u = s) /\
     bcrypt_compare P password (User.password u) = true /\
     login w st b =
     Body.Sent
       (with_cookie "token" t cookieOptions
          (respond 200 (MessageUser "Login successful"
                          (User._id u) (User.name u) (User.email u))))) /\
  (Body.status_of (login w st b) <> 200 ->
   Body.cookies_of (login w st b) = [] /\
   (Body.status_of (login w st b) = 400 \/ Body.status_of (login w st b) = 500)).
Proof.
  destruct (body_login_cases P env_JWT_SECRET email_other w st b)
    as [(email & password & u & He & Hp & Hf & Hc & Hr)|[Hno Hst]].
  - split; [|intros Hne; rewrite Hr in Hne; now destruct Hne].
    intros _. apply User_findOne_inv in Hf as (Hin & Hemail).
    eexists email, password, u, _.
    repeat split; try eassumption.
  - split; [|intros _; now split].
    intros H200. destruct Hst as [Hst|Hst]; rewrite Hst in H200; discriminate H200.
Qed.
End BodySessions.

(** ** The listing pipeline: filter, sort, window *)

Section Pipeline.
Import JsNum Js Mongo Server.
Variable P : platform.

Local Abbreviation rp := (regex_other_pattern P).
Local Abbreviation rs := (regex_other_subject P).

(** The stored products that a compiled query accepts. *)
Local Abbreviation matches_of matching st :=
  (filter (fun d : Product.t => matching d = true) (Mongo.products st)).

(** What a 200 answer of the listing handler is made of. *)
Lemma listing_inv st req products pg :
  products_handler P st req = respond 200 (ProductList products pg) ->
  exists matching sorted,
    compile rp rs (build_query P (destructure (query req))) = Ok matching /\
    sort_docs (order_other P) (build_sort (destructure (query req)))
      (matches_of matching st) = Ok sorted /\
    window (window_other P) (skip_of P (destructure (query req)))
      (Number P (p_limit (destructure (query req)))) sorted = Ok products /\
    pg = pagination_of P (destructure (query req)) (length sorted) /\
    sorted ≡ₚ matches_of matching st.
Proof.
  intros Hok. apply products_handler_ok in Hok as [Hexec (t & Hc & ->)].
  unfold exec_find in Hexec.
  apply exec_inv in Hexec as [_ (matching & sorted & Hm & Hs & Hw)].
  cbn [conditions sort_opt skip_opt limit_opt Mongo.limit Mongo.skip Mongo.sort
         Mongo.find] in *.
  unfold count in Hc. apply countDocuments_inv in Hc as (matching' & Hm' & ->).
  rewrite Hm in Hm'. injection Hm' as <-.
  pose proof (sort_docs_perm _ _ _ _ Hs) as Hperm.
  exists matching, sorted. repeat split; try assumption.
  now rewrite Hperm.
Qed.

Lemma window_is_slice wo skip limit (docs out : list Product.t) :
  window wo skip limit docs = Ok out -> exists s l, out = slice s l docs.
Proof.
  unfold window. intros H.
  destruct (as_count skip) as [s|], (as_count limit) as [l|];
    try (destruct (wo skip limit) as [[s' l']|]; [|discriminate H]);
    injection H as <-; eauto.
Qed.

Lemma slice_length s l (docs : list Product.t) :
  (length (slice s l docs) <= length docs)%nat.
Proof.
  unfold slice. destruct l; rewrite ?length_take, length_drop; lia.
Qed.

(** The window of integer [page >= 1] and [limit >= 1]. *)
Lemma window_integers req (products sorted : list Product.t) p l :
  window (window_other P) (skip_of P (destructure (query req)))
    (Number P (p_limit (destructure (query req)))) sorted = Ok products ->
  Number P (p_page (destructure (query req))) = of_Z p ->
  Number P (p_limit (destructure (query req))) = of_Z l ->
  1 <= p -> 1 <= l < 2 ^ 31 -> (p - 1) * l < 2 ^ 31 ->
  products = take (Z.to_nat l) (drop (Z.to_nat ((p - 1) * l)) sorted).
Proof.
  intros Hw Hp Hl Hp1 Hl1 Hs. unfold window, skip_of in Hw. rewrite Hp, Hl in Hw.
  rewrite (skip_integers p l) in Hw by nia.
  rewrite (as_count_of_Z l) in Hw by lia.
  unfold slice in Hw. destruct (Z.to_nat l) as [|k] eqn:Ek; [lia|].
  now injection Hw as <-.
Qed.

(** X8. A page never holds more items than [pagination.total]: in every 200
    answer of the listing the number of items is at most the total. *)
Theorem page_not_longer_than_total st req products pg :
  products_handler P st req = respond 200 (ProductList products pg) ->
  (length products <= total pg)%nat.
Proof.
  intros Hok. apply listing_inv in Hok as (matching & sorted & _ & _ & Hw & -> & _).
  cbn [total pagination_of].
  apply window_is_slice in Hw as (s & l & ->). apply slice_length.
Qed.

(** The query, the sort directive and the limit do not read [page]. *)
Lemma same_but_page (q1 q2 : gmap string string) :
  (forall k, k <> "page" -> q2 !! k = q1 !! k) ->
  build_query P (destructure q2) = build_query P (destructure q1) /\
  build_sort (destructure q2) = build_sort (destructure q1) /\
  p_limit (destructure q2) = p_limit (destructure q1).
Proof.
  intros H. split; [|split].
  - apply build_query_ignores_page_limit. intros k Hk _. now apply H.
  - unfold build_sort, destructure. cbn [p_sortBy p_order].
    now rewrite (H "sortBy"), (H "order") by discriminate.
  - unfold destructure. cbn [p_limit]. now rewrite (H "limit") by discriminate.
Qed.

(** X9. Two listing requests that differ in [page] only, with integer pages
    [p >= 1] and [p + 1] and an integer limit [l >= 1] ([l] and [p * l]
    below 2^31), sorted by a scalar path on which no two products that
    satisfy the filter tie, get the two adjacent runs of [l] items of the
    one arrangement of these products in order of that path: together they
    are its [2 * l] items from offset [(p - 1) * l]. *)
Theorem consecutive_pages_are_contiguous
  st req1 req2 products1 pg1 products2 pg2 p l f sorted :
  products_handler P st req1 = respond 200 (ProductList products1 pg1) ->
  products_handler P st req2 = respond 200 (ProductList products2 pg2) ->
  (forall k, k <> "page" -> query req2 !! k = query req1 !! k) ->
  Number P (p_page (destructure (query req1))) = of_Z p ->
  Number P (p_page (destructure (query req2))) = of_Z (p + 1) ->
  Number P (p_limit (destructure (query req1))) = of_Z l ->
  1 <= p -> 1 <= l < 2 ^ 31 -> p * l < 2 ^ 31 ->
  sort_field (p_sortBy (destructure (query req1))) = Some f ->
  (forall x y,
     x ∈ filter (fun d => Spec.satisfies P (query req1) d = true) (Mongo.products st) ->
     y ∈ filter (fun d => Spec.satisfies P (query req1) d = true) (Mongo.products st) ->
     value_leb (f x) (f y) = true -> value_leb (f y) (f x) = true -> x = y) ->
  sorted ≡ₚ filter (fun d => Spec.satisfies P (query req1) d = true) (Mongo.products st) ->
  Sorted (fun x y =>
            if String.eqb (p_order (destructure (query req1))) "asc"
            then value_leb (f x) (f y) = true
            else value_leb (f y) (f x) = true) sorted ->
  products1 = take (Z.to_nat l) (drop (Z.to_nat ((p - 1) * l)) sorted) /\
  products2 = take (Z.to_nat l) (drop (Z.to_nat (p * l)) sorted) /\
  (products1 ++ products2)%list =
  take (2 * Z.to_nat l) (drop (Z.to_nat ((p - 1) * l)) sorted).
Proof.
  intros Hok1 Hok2 Hsame Hp1 Hp2 Hl Hp Hlb Hpl Hf Hties Hperm Hsorted.
  destruct (same_but_page _ _ Hsame) as (Hq & Hsort & Hlim).
  apply listing_inv in Hok1 as (matching & sorted1 & Hm & Hs & Hw1 & _ & Hperm1).
  apply listing_inv in Hok2 as (matching2 & sorted2 & Hm2 & Hs2 & Hw2 & _ & _).
  rewrite Hq, Hm in Hm2. injection Hm2 as <-.
  rewrite Hsort, Hs in Hs2. injection Hs2 as <-.
  assert (Hsame_filter :
            matches_of matching st =
            filter (fun d => Spec.satisfies P (query req1) d = true) (Mongo.products st)).
  { apply list_filter_iff. intros d. now rewrite (compile_satisfies _ _ _ Hm d). }
  rewrite Hsame_filter in Hperm1.
  assert (Heq : sorted1 = sorted).
  { apply (Sorted_unique
             (fun x y =>
                if String.eqb (p_order (destructure (query req1))) "asc"
                then value_leb (f x) (f y) = true
                else value_leb (f y) (f x) = true)).
    - intros x y z. destruct (String.eqb _ "asc"); intros Hxy Hyz;
        [exact (value_leb_trans _ _ _ Hxy Hyz) | exact (value_leb_trans _ _ _ Hyz Hxy)].
    - intros x y Hx Hy. rewrite Hperm1 in Hx, Hy.
      destruct (String.eqb _ "asc"); intros Hxy Hyx; now apply Hties.
    - now apply (sort_docs_sorted P _ _ _ f Hs).
    - exact Hsorted.
    - now rewrite Hperm1, Hperm. }
  subst sorted1.
  apply (window_integers req1 _ _ p l) in Hw1; try assumption; try nia.
  apply (window_integers req2 _ _ (p + 1) l) in Hw2; try assumption; try nia;
    [|now rewrite Hlim].
  replace (p + 1 - 1) with p in Hw2 by lia.
  repeat split; try assumption.
  subst products1 products2.
  replace (Z.to_nat (p * l)) with (Z.to_nat ((p - 1) * l) + Z.to_nat l)%nat by nia.
  rewrite <- drop_drop.
  replace (2 * Z.to_nat l)%nat with (Z.to_nat l + Z.to_nat l)%nat by lia.
  apply take_take_drop.
Qed.

(** The three store steps of the listing going through, it answers 200. *)
Lemma listing_of_steps st req matching sorted out :
  outage st = None ->
  compile rp rs (build_query P (destructure (query req))) = Ok matching ->
  sort_docs (order_other P) (build_sort (destructure (query req)))
    (matches_of matching st) = Ok sorted ->
  window (window_other P) (skip_of P (destructure (query req)))
    (Number P (p_limit (destructure (query req)))) sorted = Ok out ->
  products_handler P st req =
  respond 200
    (ProductList out
       (pagination_of P (destructure (query req)) (length (matches_of matching st)))).
Proof.
  intros Hup Hm Hs Hw.
  unfold products_handler, exec_find, exec, count, countDocuments, connected.
  cbv zeta.
  cbn [conditions sort_opt skip_opt limit_opt Mongo.limit Mongo.skip Mongo.sort
         Mongo.find].
  rewrite Hup. cbn [mbind result_bind]. rewrite Hm. cbn [mbind result_bind].
  rewrite Hs. cbn [mbind result_bind]. rewrite Hw. reflexivity.
Qed.

(** X10. A page beyond the last one is no error. For integers [page >= 1]
    and [limit >= 1], with [limit] and [(page - 1) * limit] below 2^31 and
    [(page - 1) * limit] at least the total of a 200 answer: that answer has
    no items if it is for this page; and the same request at this page is
    answered 200 as well, with no items and the same total. *)
Theorem page_beyond_last_is_empty st req products pg p l :
  products_handler P st req = respond 200 (ProductList products pg) ->
  Number P (p_limit (destructure (query req))) = of_Z l ->
  1 <= p -> 1 <= l < 2 ^ 31 -> (p - 1) * l < 2 ^ 31 ->
  Z.of_nat (total pg) <= (p - 1) * l ->
  (Number P (p_page (destructure (query req))) = of_Z p -> products = []) /\
  (forall req',
     (forall k, k <> "page" -> query req' !! k = query req !! k) ->
     Number P (p_page (destructure (query req'))) = of_Z p ->
     exists pg',
       products_handler P st req' = respond 200 (ProductList [] pg') /\
       total pg' = total pg).
Proof.
  intros Hok Hl Hp1 Hl1 Hs Hbeyond.
  pose proof (products_handler_ok _ _ _ _ _ Hok) as [Hexec _].
  apply exec_inv in Hexec as [Hup _].
  apply listing_inv in Hok as (matching & sorted & Hm & Hsort & Hw & -> & Hperm).
  cbn [total pagination_of] in Hbeyond |- *.
  split.
  - intros Hp. apply (window_integers req _ _ p l) in Hw; try assumption.
    subst products. rewrite drop_ge by lia. apply take_nil.
  - intros req' Hsame Hp.
    destruct (same_but_page _ _ Hsame) as (Hq & Hso & Hlim).
    assert (Hw' : window (window_other P) (skip_of P (destructure (query req')))
                    (Number P (p_limit (destructure (query req')))) sorted = Ok []).
    { unfold window, skip_of. rewrite Hlim, Hp, Hl.
      rewrite (skip_integers p l) by nia.
      rewrite (as_count_of_Z l) by lia.
      unfold slice. destruct (Z.to_nat l) as [|k] eqn:Ek; [lia|].
      rewrite drop_ge by lia. now rewrite take_nil. }
    rewrite <- Hq in Hm. rewrite <- Hso in Hsort.
    rewrite (listing_of_steps st req' matching sorted [] Hup Hm Hsort Hw').
    eexists. split; [reflexivity|]. cbn [total pagination_of].
    now rewrite Hperm.
Qed.

(** *** Order of the items *)

(** X11. Under a sort key that names a scalar path of the product schema,
    the items of a 200 answer are in order of that path in the comparison
    order of the store: ascending when [order] is [asc], descending for any
    other [order]. For [sortBy=price] the prices are non-decreasing,
    respectively non-increasing. *)
Theorem listing_is_sorted_by_scalar_key st req products pg f :
  products_handler P st req = respond 200 (ProductList products pg) ->
  sort_field (p_sortBy (destructure (query req))) = Some f ->
  Sorted (fun x y =>
            if String.eqb (p_order (destructure (query req))) "asc"
            then value_leb (f x) (f y) = true
            else value_leb (f y) (f x) = true) products /\
  (p_sortBy (destructure (query req)) = "price" ->
   Sorted (fun x y =>
             if String.eqb (p_order (destructure (query req))) "asc"
             then (Product.price x <= Product.price y)%Q
             else (Product.price y <= Product.price x)%Q) products).
Proof.
  intros Hok Hf.
  apply listing_inv in Hok as (matching & sorted & _ & Hs & Hw & _ & _).
  apply window_is_slice in Hw as (s & l & ->).
  assert (Hsorted :
            Sorted (fun x y =>
                      if String.eqb (p_order (destructure (query req))) "asc"
                      then value_leb (f x) (f y) = true
                      else value_leb (f y) (f x) = true) sorted).
  { unfold build_sort, js_set in Hs.
    destruct (String.eqb_spec (p_sortBy (destructure (query req))) "__proto__")
      as [E|_]; [rewrite E in Hf; discriminate Hf|].
    cbn [assign sort_docs foldr mbind result_bind sort_key] in Hs.
    unfold order in Hs. rewrite Hf in Hs.
    destruct (String.eqb (p_order (destructure (query req))) "asc");
      cbn in Hs; injection Hs as <-; apply sort_by_sorted;
      intros a b; apply value_leb_total. }
  split; [now apply Sorted_slice|].
  intros Hprice. rewrite Hprice in Hf. cbn in Hf. injection Hf as <-.
  apply Sorted_slice. revert Hsorted. apply Sorted_weaken. intros a b.
  destruct (String.eqb (p_order (destructure (query req))) "asc"); cbn;
    apply Qle_bool_iff.
Qed.

(** *** Filters *)

(** An item of a 200 answer is a stored product that the compiled query
    accepts. *)
Lemma listing_elem st req products pg matching p :
  products_handler P st req = respond 200 (ProductList products pg) ->
  compile rp rs (build_query P (destructure (query req))) = Ok matching ->
  p ∈ products -> p ∈ Mongo.products st /\ matching p = true.
Proof.
  intros Hok Hm Hp.
  apply listing_inv in Hok as (matching' & sorted & Hm' & _ & Hw & _ & Hperm).
  rewrite Hm in Hm'. injection Hm' as <-.
  apply window_subseteq in Hw. apply Hw in Hp. rewrite Hperm in Hp.
  apply list_elem_of_filter in Hp. tauto.
Qed.

(** The price range of a query object is inclusive on both sides. *)
Lemma compile_price_inv q matching p r :
  compile rp rs q = Ok matching -> matching p = true ->
  Query.price q = Some r ->
  (forall x, gte r = Some (Num x) -> (x <= Product.price p)%Q) /\
  (forall x, lte r = Some (Num x) -> (Product.price p <= x)%Q).
Proof.
  unfold compile. intros H Hp Hq.
  await H t Et. await H c Ec. await H b Eb. await H f Er. injection H as <-.
  apply andb_true_iff in Hp as [_ Hp].
  rewrite Hq in Er. cbn [opt_pred] in Er. unfold compile_range in Er.
  await Er lo Elo. await Er hi Ehi. injection Er as <-.
  apply andb_true_iff in Hp as [Hlo Hhi]. split.
  - intros x Hx. rewrite Hx in Elo. cbn in Elo. injection Elo as <-.
    cbn in Hlo. now apply Qle_bool_iff.
  - intros x Hx. rewrite Hx in Ehi. cbn in Ehi. injection Ehi as <-.
    cbn in Hhi. now apply Qle_bool_iff.
Qed.

(** X12. For a request whose filter parameters are strings (each given at
    most once), every item of a 200 answer is a stored product that
    satisfies each filter: its category and its brand are exactly the
    non-empty [category] and [brand] parameters, and its price lies between
    the binary64 numbers that [Number] reads the non-empty [minPrice] and
    [maxPrice] parameters to, both bounds included. *)
Theorem listing_items_satisfy_filters st req products pg p :
  products_handler P st req = respond 200 (ProductList products pg) ->
  p ∈ products ->
  p ∈ Mongo.products st /\
  (forall c, query req !! "category" = Some c -> truthy c = true ->
     Product.category p = c) /\
  (forall b, query req !! "brand" = Some b -> truthy b = true ->
     Product.brand p = b) /\
  (forall s x, query req !! "minPrice" = Some s -> truthy s = true ->
     Number P (VString s) = Num x -> (x <= Product.price p)%Q) /\
  (forall s x, query req !! "maxPrice" = Some s -> truthy s = true ->
     Number P (VString s) = Num x -> (Product.price p <= x)%Q).
Proof.
  intros Hok Hp.
  pose proof (listing_inv _ _ _ _ Hok) as (matching & _ & Hm & _).
  destruct (listing_elem _ _ _ _ matching p Hok Hm Hp) as [Hin Hmp].
  destruct (compile_inv _ _ _ _ p Hm Hmp) as (_ & Hcat & Hbrand).
  destruct (build_query_filters P (destructure (query req))) as (Qc & Qb & Qp).
  unfold destructure in Qc, Qb, Qp.
  cbn [p_category p_brand p_minPrice p_maxPrice] in Qc, Qb, Qp.
  split; [exact Hin|]. split; [|split; [|split]].
  - intros c Hc Tc. apply Hcat. fold (destructure (query req)) in Qc.
    now rewrite Qc, Hc, Tc.
  - intros b Hb Tb. apply Hbrand. fold (destructure (query req)) in Qb.
    now rewrite Qb, Hb, Tb.
  - intros s x Hs Ts Hx. fold (destructure (query req)) in Qp.
    rewrite Hs in Qp. cbn [truthy_opt] in Qp. rewrite Ts in Qp. cbn [orb] in Qp.
    destruct (compile_price_inv _ _ p _ Hm Hmp Qp) as [Hlo _].
    apply Hlo. cbn [gte]. now rewrite Hx.
  - intros s x Hs Ts Hx. fold (destructure (query req)) in Qp.
    rewrite Hs in Qp. cbn [truthy_opt] in Qp. rewrite Ts, orb_true_r in Qp.
    destruct (compile_price_inv _ _ p _ Hm Hmp Qp) as [_ Hhi].
    apply Hhi. cbn [lte]. now rewrite Hx.
Qed.

(** X13. A price range whose lower bound exceeds its upper bound is not
    refused as such: when [minPrice] and [maxPrice] are strings that
    [Number] reads to binary64 numbers [x > y], a 200 answer has no items
    and a total of 0. *)
Theorem inverted_price_range_is_empty st req products pg lo hi x y :
  products_handler P st req = respond 200 (ProductList products pg) ->
  query req !! "minPrice" = Some lo -> truthy lo = true ->
  query req !! "maxPrice" = Some hi -> truthy hi = true ->
  Number P (VString lo) = Num x -> Number P (VString hi) = Num y ->
  (y < x)%Q ->
  products = [] /\ total pg = 0%nat.
Proof.
  intros Hok Hlo Tlo Hhi Thi Hx Hy Hlt.
  pose proof (listing_inv _ _ _ _ Hok) as (matching & sorted & Hm & _ & Hw & -> & Hperm).
  assert (Hnone : matches_of matching st = []).
  { destruct (matches_of matching st) as [|d rest] eqn:E; [reflexivity|]. exfalso.
    assert (Hd : d ∈ matches_of matching st) by (rewrite E; apply list_elem_of_here).
    apply list_elem_of_filter in Hd as [Hmd _].
    destruct (build_query_filters P (destructure (query req))) as (_ & _ & Qp).
    unfold destructure in Qp at 2 3 4 5. cbn [p_minPrice p_maxPrice] in Qp.
    rewrite Hlo, Hhi in Qp. cbn [truthy_opt] in Qp. rewrite Tlo, Thi in Qp.
    cbn [orb] in Qp. rewrite Hx, Hy in Qp.
    destruct (compile_price_inv _ _ d _ Hm Hmd Qp) as [H1 H2].
    specialize (H1 x eq_refl). specialize (H2 y eq_refl).
    apply (Qlt_not_le _ _ Hlt). now apply Qle_trans with (Product.price d). }
  rewrite Hnone in Hperm. apply Permutation_nil_r in Hperm. subst sorted.
  split; [|reflexivity].
  apply window_is_slice in Hw as (s & l & ->).
  unfold slice. destruct l; now rewrite drop_nil, ?take_nil.
Qed.

(** *** Search finds what contains the term *)

Lemma compile_or_complete clauses f clause p :
  compile_or rp rs clauses = Ok f ->
  clause ∈ clauses -> clause_holds rp rs clause p -> f p = true.
Proof.
  revert f. induction clauses as [|[path c] rest IH]; intros f Hc Hin Hh.
  - now apply elem_of_nil in Hin.
  - simpl in Hc. await Hc m Em. await Hc ms Ems. injection Hc as <-.
    apply orb_true_iff. apply elem_of_cons in Hin as [->|Hin].
    + left. destruct Hh as (mt & t & Ht & Hf & Hmt). cbn [fst snd] in *.
      unfold compile_regex in Em. rewrite Ht in Em. injection Em as <-.
      now rewrite Hf.
    + right. now apply (IH ms).
Qed.

Lemma test_literal_defined (s : string) :
  Regex.literal s = true -> exists m, Regex.test rp rs s "i" = Some m.
Proof.
  intros Hl. unfold Regex.test. rewrite (fragment_literal s Hl). cbn. eauto.
Qed.

(** X14. A search for a term without pattern metacharacters misses no
    product: with no other filter, every stored product that contains the
    term, case-insensitively, in its (ASCII) name, title, brand or category
    satisfies the filter, so it is one of the products that the total of a
    200 answer counts, and it is among the items when [page] is 1 and
    [limit] is an integer below 2^31 that is at least the total. *)
Theorem search_finds_every_containing_product st req products pg p field :
  products_handler P st req = respond 200 (ProductList products pg) ->
  p ∈ Mongo.products st ->
  truthy (p_search (destructure (query req))) = true ->
  Regex.literal (p_search (destructure (query req))) = true ->
  field ∈ [Product.name p; Product.title p; Product.brand p; Product.category p] ->
  Regex.ascii_only field = true ->
  Regex.ci_substring (p_search (destructure (query req))) field ->
  query req !! "category" = None -> query req !! "brand" = None ->
  query req !! "minPrice" = None -> query req !! "maxPrice" = None ->
  Spec.satisfies P (query req) p = true /\
  total pg =
    length (filter (fun d => Spec.satisfies P (query req) d = true)
              (Mongo.products st)) /\
  (forall l,
     Number P (p_page (destructure (query req))) = of_Z 1 ->
     Number P (p_limit (destructure (query req))) = of_Z l ->
     Z.of_nat (total pg) <= l < 2 ^ 31 ->
     p ∈ products).
Proof.
  intros Hok Hin Ts Hl Hfield Ha Hsub Hc Hb Hlo Hhi.
  set (s := p_search (destructure (query req))) in *.
  pose proof (listing_inv _ _ _ _ Hok) as (matching & sorted & Hm & _ & Hw & -> & Hperm).
  assert (Hmp : matching p = true).
  { destruct (test_literal_defined s Hl) as [m Hm'].
    assert (Hms : m field = true) by now apply (test_literal rp rs s field m Hl Ha Hm').
    assert (Hclause : exists path, (path, mkre s "i") ∈
                        [("name", mkre s "i"); ("title", mkre s "i");
                         ("brand", mkre s "i"); ("category", mkre s "i")] /\
                      text_field path p = Some field).
    { repeat (apply elem_of_cons in Hfield as [->|Hfield]);
        [ exists "name" | exists "title" | exists "brand" | exists "category"
        | now apply elem_of_nil in Hfield ];
        (split; [|reflexivity]);
        repeat (first [ apply list_elem_of_here | apply list_elem_of_further ]). }
    destruct Hclause as (path & Hin4 & Htf).
    pose proof (build_query_or P (destructure (query req))) as Qo. fold s in Qo.
    rewrite Ts in Qo.
    destruct (build_query_filters P (destructure (query req))) as (Qc & Qb & Qp).
    unfold destructure in Qc at 2, Qb at 2, Qp at 2 3 4 5.
    cbn [p_category p_brand p_minPrice p_maxPrice] in Qc, Qb, Qp.
    rewrite Hc in Qc. rewrite Hb in Qb. rewrite Hlo, Hhi in Qp. cbn in Qp.
    revert Hm. unfold compile. rewrite Qo, Qc, Qb, Qp. cbn [opt_pred].
    intros Hm. await Hm t Et. cbn [mbind result_bind] in Hm. injection Hm as <-.
    rewrite (compile_or_complete _ t (path, mkre s "i") p Et Hin4); [reflexivity|].
    exists m, field. cbn [fst snd regex options]. repeat split; assumption. }
  assert (Hps : p ∈ sorted).
  { rewrite Hperm. apply list_elem_of_filter. now split. }
  cbn [total pagination_of]. split; [|split].
  - now rewrite <- (compile_satisfies _ _ _ Hm p).
  - rewrite Hperm. f_equal. apply list_filter_iff. intros d.
    now rewrite (compile_satisfies _ _ _ Hm d).
  - intros l Hp1 Hll Hbound. cbn [total pagination_of] in Hbound.
    assert (1 <= l) by (destruct sorted; [now apply elem_of_nil in Hps | simpl in *; lia]).
    apply (window_integers req _ _ 1 l) in Hw; try assumption; try lia.
    subst products. replace ((1 - 1) * l) with 0 by lia.
    rewrite drop_0, take_ge by lia. exact Hps.
Qed.
End Pipeline.

(** ** The other routes *)

Section OtherRoutes.
Import JsNum Js Mongo Server Routes.
Variable P : platform.

Local Abbreviation rp := (regex_other_pattern P).
Local Abbreviation rs := (regex_other_subject P).

Lemma filter_accepts_all (l : list Product.t) :
  filter (fun d : Product.t => (true && true && true && true) = true) l = l.
Proof.
  induction l as [|x l IH]; [reflexivity|].
  rewrite filter_cons_True by reflexivity. now rewrite IH.
Qed.

(** Counting with the empty query counts every product. *)
Lemma count_all st :
  count P st Query.empty =
  match outage st with
  | Some msg => Throw (Unreachable msg)
  | None => Ok (length (Mongo.products st))
  end.
Proof.
  unfold count, countDocuments, connected. destruct (outage st); [reflexivity|].
  cbn. now rewrite filter_accepts_all.
Qed.

(** *** GET /api/products/latest *)

(** X15. Every item of a 200 answer of the latest-products route is a stored
    product, whatever other parameters the request has. For a limit that
    coerces to an integer [n] with [1 <= n < 2^31] the answer has [min n N]
    items, [N] the number of stored products; an absent or empty [limit]
    counts as 10. *)
Theorem latest_returns_at_most_limit st req products :
  latest_handler P st req = answer 200 (Products products) ->
  (forall p, p ∈ products -> p ∈ Mongo.products st) /\
  (forall n,
     Number P (latest_limit (query req)) = of_Z n -> 1 <= n < 2 ^ 31 ->
     length products = Nat.min (Z.to_nat n) (length (Mongo.products st))) /\
  (truthy_opt (query req !! "limit") = false ->
   length products = Nat.min 10 (length (Mongo.products st))).
Proof.
  unfold latest_handler. cbv zeta. intros H.
  destruct (exec_find P st _) as [out|e] eqn:Ef; cbn [mbind result_bind] in H;
    [|discriminate H].
  injection H as ->. unfold exec_find in Ef.
  apply exec_inv in Ef as [_ (matching & sorted & Hm & Hs & Hw)].
  cbn [conditions sort_opt skip_opt limit_opt Mongo.limit Mongo.skip Mongo.sort
         Mongo.find] in *.
  cbn in Hm. injection Hm as <-. rewrite filter_accepts_all in Hs.
  pose proof (sort_docs_perm _ _ _ _ Hs) as Hperm.
  assert (Hn : forall n,
             Number P (latest_limit (query req)) = of_Z n -> 1 <= n < 2 ^ 31 ->
             length products = Nat.min (Z.to_nat n) (length (Mongo.products st))).
  { intros n Hl Hb. unfold window in Hw. rewrite Hl in Hw.
    rewrite (as_count_of_Z 0), (as_count_of_Z n) in Hw by lia.
    unfold slice in Hw. destruct (Z.to_nat n) as [|k] eqn:Ek; [lia|].
    injection Hw as <-. cbn [Z.to_nat]. rewrite drop_0, length_take.
    now rewrite Hperm. }
  split; [|split; [exact Hn|]].
  - intros p Hp. apply window_subseteq in Hw. apply Hw in Hp. now rewrite Hperm in Hp.
  - intros Hfalsy. apply (Hn 10); [|lia].
    unfold latest_limit. destruct (query req !! "limit") as [s|]; [|reflexivity].
    cbn [truthy_opt] in Hfalsy. now rewrite Hfalsy.
Qed.

(** *** GET /api/categories and GET /api/brands *)

Lemma distinct_elem st path values v :
  Product_distinct st path = Ok values ->
  v ∈ values <-> exists p, p ∈ Mongo.products st /\ text_field path p = Some v.
Proof.
  unfold Product_distinct, connected. destruct (outage st); [discriminate|].
  cbn [mbind result_bind]. intros [= <-].
  rewrite elem_of_list_to_set. apply list_elem_of_omap.
Qed.

(** The listing with one exact filter and nothing else. *)
Lemma listing_total_nonempty st req products pg p :
  products_handler P st req = respond 200 (ProductList products pg) ->
  p ∈ Mongo.products st ->
  (forall matching,
     compile rp rs (build_query P (destructure (query req))) = Ok matching ->
     matching p = true) ->
  (1 <= total pg)%nat.
Proof.
  intros Hok Hin Hacc.
  apply listing_inv in Hok as (matching & sorted & Hm & _ & _ & -> & Hperm).
  cbn [total pagination_of].
  assert (Hp : p ∈ sorted).
  { rewrite Hperm. apply list_elem_of_filter. split; [now apply Hacc | exact Hin]. }
  destruct sorted; [now apply elem_of_nil in Hp | simpl; lia].
Qed.

(** X16. A value that the categories route lists is in use: some stored
    product has exactly that category, and a listing filtered by it alone
    that is answered 200 has a total of at least 1, which for a non-empty
    value is the number of stored products of that category. The same holds
    for the brands route and the brand filter. *)
Theorem listed_values_filter_to_their_products st req values v lreq products pg :
  products_handler P st lreq = respond 200 (ProductList products pg) ->
  query lreq !! "search" = None ->
  query lreq !! "minPrice" = None -> query lreq !! "maxPrice" = None ->
  (categories_handler st req = answer 200 (Values values) -> v ∈ values ->
   query lreq !! "category" = Some v -> query lreq !! "brand" = None ->
   (exists p, p ∈ Mongo.products st /\ Product.category p = v) /\
   (1 <= total pg)%nat /\
   (truthy v = true ->
    total pg = length (filter (fun p => Product.category p = v) (Mongo.products st)))) /\
  (brands_handler st req = answer 200 (Values values) -> v ∈ values ->
   query lreq !! "brand" = Some v -> query lreq !! "category" = None ->
   (exists p, p ∈ Mongo.products st /\ Product.brand p = v) /\
   (1 <= total pg)%nat /\
   (truthy v = true ->
    total pg = length (filter (fun p => Product.brand p = v) (Mongo.products st)))).
Proof.
  intros Hok Hs Hlo Hhi.
  pose proof (build_query_or P (destructure (query lreq))) as Qo.
  destruct (build_query_filters P (destructure (query lreq))) as (Qc & Qb & Qp).
  unfold destructure in Qo at 2, Qc at 2, Qb at 2, Qp at 2 3 4 5.
  cbn [p_search p_category p_brand p_minPrice p_maxPrice] in Qo, Qc, Qb, Qp.
  rewrite Hs in Qo. rewrite Hlo, Hhi in Qp. cbn in Qo, Qp.
  split.
  - unfold categories_handler. intros Hd Hv Hc Hb.
    destruct (Product_distinct st "category") as [vs|e] eqn:Ed; [|discriminate Hd].
    injection Hd as ->.
    apply (distinct_elem _ _ _ v Ed) in Hv as (p & Hin & Hf).
    cbn in Hf. injection Hf as Hf.
    rewrite Hc in Qc. rewrite Hb in Qb.
    split; [now exists p|]. split.
    + apply (listing_total_nonempty _ _ _ _ p Hok Hin). intros matching.
      unfold compile. rewrite Qo, Qc, Qb, Qp.
      destruct (truthy v); cbn; intros [= <-]; [|reflexivity].
      rewrite Hf, String.eqb_refl. reflexivity.
    + intros Tv. rewrite Tv in Qc.
      apply listing_inv in Hok as (matching & sorted & Hm & _ & _ & -> & Hperm).
      cbn [total pagination_of]. rewrite Hperm. f_equal.
      revert Hm. unfold compile. rewrite Qo, Qc, Qb, Qp. cbn. intros [= <-].
      apply list_filter_iff. intros d. cbn. rewrite andb_true_r, andb_true_r.
      apply String.eqb_eq.
  - unfold brands_handler. intros Hd Hv Hb Hc.
    destruct (Product_distinct st "brand") as [vs|e] eqn:Ed; [|discriminate Hd].
    injection Hd as ->.
    apply (distinct_elem _ _ _ v Ed) in Hv as (p & Hin & Hf).
    cbn in Hf. injection Hf as Hf.
    rewrite Hc in Qc. rewrite Hb in Qb.
    split; [now exists p|]. split.
    + apply (listing_total_nonempty _ _ _ _ p Hok Hin). intros matching.
      unfold compile. rewrite Qo, Qc, Qb, Qp.
      destruct (truthy v); cbn; intros [= <-]; [|reflexivity].
      rewrite Hf, String.eqb_refl. reflexivity.
    + intros Tv. rewrite Tv in Qb.
      apply listing_inv in Hok as (matching & sorted & Hm & _ & _ & -> & Hperm).
      cbn [total pagination_of]. rewrite Hperm. f_equal.
      revert Hm. unfold compile. rewrite Qo, Qc, Qb, Qp. cbn. intros [= <-].
      apply list_filter_iff. intros d. cbn. rewrite andb_true_r.
      apply String.eqb_eq.
Qed.

(** *** GET /api/products/:id, found *)

(** X17. A stored product is found by its id, in any letter case: when the
    ids of the stored products are distinct, a well-formed id that equals
    the id of a stored product up to case is answered 200 with that
    product. *)
Theorem product_found_by_its_id st req id p :
  params req !! "id" = Some id -> outage st = None ->
  p ∈ Mongo.products st ->
  (String.length id =? 24)%nat && all_hex id = true ->
  Regex.lower_string id = Regex.lower_string (Product._id p) ->
  (forall d, d ∈ Mongo.products st ->
     Regex.lower_string (Product._id d) = Regex.lower_string (Product._id p) ->
     d = p) ->
  product_handler P st req = respond 200 (ProductDoc p).
Proof.
  intros Hid Hup Hin Hwf Heq Huniq.
  unfold product_handler. rewrite Hid. unfold Product_findById, connected.
  unfold cast_object_id. rewrite Hwf, Hup. cbn [mbind result_bind].
  destruct (find_present
              (fun d => String.eqb (Regex.lower_string (Product._id d))
                          (Regex.lower_string id))
              (Mongo.products st) p Hin) as [d Hd].
  { rewrite Heq. apply String.eqb_refl. }
  rewrite Hd. apply find_some in Hd as [Hdin Hdeq].
  apply String.eqb_eq in Hdeq. apply list_elem_of_In in Hdin.
  rewrite Heq in Hdeq. now rewrite (Huniq d Hdin Hdeq).
Qed.

(** *** The start-up seeding *)

(** X18. The start-up seeding touches an empty catalogue only: it never
    changes the users, it leaves a store that has products exactly as it
    was, it fills an empty, reachable catalogue with the documents of
    [products.json] when they pass validation, and running it a second time
    changes nothing more. *)
Theorem startup_seeds_only_an_empty_catalogue data st :
  users (startup P data st) = users st /\
  (Mongo.products st <> [] -> startup P data st = st) /\
  (Mongo.products st = [] -> outage st = None -> validate_all data = Ok tt ->
   Mongo.products (startup P data st) = data) /\
  startup P data (startup P data st) = startup P data st.
Proof.
  assert (Hcases : startup P data st = st \/
                   (Mongo.products st = [] /\ outage st = None /\
                    validate_all data = Ok tt /\
                    startup P data st = mkdb (users st) data None)).
  { unfold startup. cbv zeta. rewrite count_all.
    destruct (outage st) eqn:Eo; [now left|]. cbn [mbind result_bind].
    destruct (Mongo.products st) as [|d ds] eqn:Ep; [|now left].
    cbn [length Nat.eqb]. unfold Product_insertMany, connected.
    destruct (validate_all data) as [[]|e]; [|now left].
    cbn [mbind result_bind]. rewrite Eo, Ep. cbn. right. repeat split. }
  split; [|split; [|split]].
  - destruct Hcases as [->|(_ & _ & _ & ->)]; reflexivity.
  - intros Hne. destruct Hcases as [H|(He & _)]; [exact H | contradiction].
  - intros He Hup Hv. unfold startup. cbv zeta. rewrite count_all, Hup.
    cbn [mbind result_bind]. rewrite He. cbn [length Nat.eqb].
    unfold Product_insertMany, connected. rewrite Hv, Hup, He. reflexivity.
  - destruct Hcases as [H|(_ & _ & Hv & ->)]; [now rewrite !H|].
    unfold startup. cbv zeta. rewrite count_all. cbn [outage Mongo.products].
    cbn [mbind result_bind]. destruct data as [|d ds]; [|reflexivity].
    cbn [length Nat.eqb]. unfold Product_insertMany, connected.
    cbn [validate_all mbind result_bind outage users Mongo.products app].
    reflexivity.
Qed.
End OtherRoutes.

(** ** POST /api/seed *)

Section Seed.
Import JsNum Js Mongo Server Routes.

Lemma seed_products_valid d : validate_all (seed_products d) = Ok tt.
Proof. vm_compute. reflexivity. Qed.

Lemma seed_products_length d : length (seed_products d) = 50%nat.
Proof. unfold seed_products. now rewrite length_map, length_seq. Qed.

Lemma seed_ok d st req :
  outage st = None ->
  seed d st req =
  (answer 200 (MessageCount "Database seeded successfully" 50),
   mkdb (users st) (seed_products d) None).
Proof.
  intros Hup. unfold seed, Product_deleteMany_all, Product_insertMany, connected.
  rewrite Hup. cbn [mbind result_bind outage users Mongo.products].
  rewrite seed_products_valid. cbn [mbind result_bind app].
  now rewrite seed_products_length.
Qed.

(** X19. Seeding is destructive and total: on a reachable store it answers
    200 with the count 50 and leaves exactly the 50 generated products,
    whatever the catalogue held before, and the same users; on an
    unreachable store it answers 500 "Seed error" and changes nothing. *)
Theorem seed_replaces_the_catalogue d st req :
  (outage st = None ->
   seed d st req =
   (answer 200 (MessageCount "Database seeded successfully" 50),
    mkdb (users st) (seed_products d) None) /\
   length (seed_products d) = 50%nat) /\
  (forall msg, outage st = Some msg ->
   seed d st req =
   (answer 500 (Plain (MessageError "Seed error" (Unreachable msg))), st)).
Proof.
  split.
  - intros Hup. split; [now apply seed_ok | apply seed_products_length].
  - intros msg Hdown. unfold seed, Product_deleteMany_all, connected.
    now rewrite Hdown.
Qed.

Lemma floor_range (x : Q) (n : Z) :
  (0 <= x)%Q -> (x < inject_Z n)%Q -> 0 <= Qfloor x <= n - 1.
Proof.
  intros H0 Hn.
  pose proof (Qfloor_le x) as Hle. pose proof (Qlt_floor x) as Hlt.
  split.
  - assert (H : (inject_Z 0 < inject_Z (Qfloor x + 1))%Q)
      by (eapply Qle_lt_trans; [exact H0 | exact Hlt]).
    rewrite <- Zlt_Qlt in H. lia.
  - assert (H : (inject_Z (Qfloor x) < inject_Z n)%Q)
      by (eapply Qle_lt_trans; [exact Hle | exact Hn]).
    rewrite <- Zlt_Qlt in H. lia.
Qed.

Lemma seed_product_elem d p :
  p ∈ seed_products d -> exists i, (i < 50)%nat /\ p = seed_product d i.
Proof.
  unfold seed_products. rewrite list_elem_of_fmap. intros (i & -> & Hi).
  apply elem_of_seq in Hi. exists i. split; [lia | reflexivity].
Qed.

(** X20. The generated products are in range when [Math.random()] draws
    from [0, 1): the category and the brand are among the eight categories
    and six brands, the price is an integer from 10 to 59, the stock an
    integer from 10 to 109, and the rating lies between 3 and 5. *)
Theorem seeded_products_are_in_range d p :
  (forall k, (0 <= random d k)%Q /\ (random d k < 1)%Q) ->
  p ∈ seed_products d ->
  Product.category p ∈ categories /\
  Product.brand p ∈ brands /\
  (exists n, 10 <= n <= 59 /\ (Product.price p == inject_Z n)%Q) /\
  (exists n, 10 <= n <= 109 /\ (Product.stock p == inject_Z n)%Q) /\
  (3 <= Product.rating p)%Q /\ (Product.rating p <= 5)%Q.
Proof.
  intros Hr Hp. apply seed_product_elem in Hp as (i & Hi & ->).
  cbn [seed_product Product.category Product.brand Product.price Product.stock
         Product.rating].
  split; [|split; [|split; [|split]]].
  - apply list_elem_of_In, nth_In. cbn [categories length]. apply Nat.mod_upper_bound. lia.
  - apply list_elem_of_In, nth_In. cbn [brands length]. apply Nat.mod_upper_bound. lia.
  - destruct (Hr (3 * i)%nat) as [H0 H1].
    destruct (floor_range (random d (3 * i) * 50) 50) as [Ha Hb];
      [lra | change (inject_Z 50) with 50%Q; lra|].
    exists (Qfloor (random d (3 * i) * 50) + 10). split; [lia|].
    unfold floor. now rewrite inject_Z_plus.
  - destruct (Hr (3 * i + 2)%nat) as [H0 H1].
    destruct (floor_range (random d (3 * i + 2) * 100) 100) as [Ha Hb];
      [lra | change (inject_Z 100) with 100%Q; lra|].
    exists (Qfloor (random d (3 * i + 2) * 100) + 10). split; [lia|].
    unfold floor. now rewrite inject_Z_plus.
  - destruct (Hr (3 * i + 1)%nat) as [H0 H1]. unfold toFixed1.
    set (x := ((random d (3 * i + 1) * 2 + 3) * 10 + (1 # 2))%Q).
    assert (Hx0 : (0 <= x - 30)%Q) by (unfold x; lra).
    assert (Hx1 : (x < 51)%Q) by (unfold x; lra).
    pose proof (Qfloor_le x) as Hle. pose proof (Qlt_floor x) as Hlt.
    assert (Hlo : 30 <= Qfloor x).
    { assert (H : (inject_Z 30 < inject_Z (Qfloor x + 1))%Q).
      { eapply Qle_lt_trans; [|exact Hlt]. change (inject_Z 30) with 30%Q. lra. }
      rewrite <- Zlt_Qlt in H. lia. }
    assert (Hhi : Qfloor x <= 50).
    { assert (H : (inject_Z (Qfloor x) < inject_Z 51)%Q).
      { eapply Qle_lt_trans; [exact Hle|]. change (inject_Z 51) with 51%Q. lra. }
      rewrite <- Zlt_Qlt in H. lia. }
    clearbody x. split; unfold Qle; cbn [Qnum Qden]; lia.
Qed.
End Seed.

(** ** Seeding, then listing *)

Section SeedThenList.
Import JsNum Js Mongo Server Routes.
Variable P : platform.

Local Abbreviation rp := (regex_other_pattern P).
Local Abbreviation rs := (regex_other_subject P).

(** The listing answers 200 as soon as its three store steps go through. *)
Lemma listing_succeeds st req matching sorted out :
  outage st = None ->
  compile rp rs (build_query P (destructure (query req))) = Ok matching ->
  sort_docs (order_other P) (build_sort (destructure (query req)))
    (filter (fun d => matching d = true) (Mongo.products st)) = Ok sorted ->
  window (window_other P) (skip_of P (destructure (query req)))
    (Number P (p_limit (destructure (query req)))) sorted = Ok out ->
  products_handler P st req =
  respond 200
    (ProductList out
       (pagination_of P (destructure (query req))
          (length (filter (fun d => matching d = true) (Mongo.products st))))).
Proof.
  intros Hup Hm Hs Hw.
  unfold products_handler, exec_find, exec, count, countDocuments, connected.
  cbv zeta.
  cbn [conditions sort_opt skip_opt limit_opt Mongo.limit Mongo.skip Mongo.sort
         Mongo.find].
  rewrite Hup. cbn [mbind result_bind]. rewrite Hm. cbn [mbind result_bind].
  rewrite Hs. cbn [mbind result_bind]. rewrite Hw. reflexivity.
Qed.

(** X21. After a seeding of a reachable store, whatever it drew and
    whatever the store held,
    [GET /api/products?category=Fruits&sortBy=price&order=asc&limit=5&page=1]
    is answered 200 with exactly 5 items, all of category Fruits, in
    non-decreasing order of price, a total of 7 and 2 pages. *)
Theorem seeded_fruits_first_page d st sreq :
  outage st = None ->
  exists products pg,
    products_handler P (snd (seed d st sreq)) Scenario.fruits_page =
    respond 200 (ProductList products pg) /\
    length products = 5%nat /\
    (forall p, p ∈ products -> Product.category p = "Fruits") /\
    Sorted (fun x y => (Product.price x <= Product.price y)%Q) products /\
    total pg = 7%nat /\ pages pg = of_Z 2.
Proof.
  intros Hup. rewrite (seed_ok d st sreq Hup). cbn [snd].
  set (st' := mkdb (users st) (seed_products d) None).
  set (matching := fun p : Product.t =>
                     true && String.eqb (Product.category p) "Fruits" && true && true).
  set (le := fun a b : Product.t =>
               value_leb (SNumber (Product.price a)) (SNumber (Product.price b))).
  set (fruits := filter (fun p => matching p = true) (Mongo.products st')).
  assert (Hlen : length fruits = 7%nat) by (vm_compute; reflexivity).
  assert (Hok : products_handler P st' Scenario.fruits_page =
                respond 200
                  (ProductList (take 5 (drop 0 (sort_by le fruits)))
                     (pagination_of P (destructure (query Scenario.fruits_page))
                        (length fruits)))).
  { apply (listing_succeeds st' Scenario.fruits_page matching (sort_by le fruits));
      reflexivity. }
  eexists _, _. split; [exact Hok|].
  pose proof (sort_by_perm le fruits) as Hperm.
  split; [|split; [|split; [|split]]].
  - rewrite length_take, length_drop, Hperm, Hlen. reflexivity.
  - intros p Hp. apply subseteq_take, subseteq_drop in Hp. rewrite Hperm in Hp.
    apply list_elem_of_filter in Hp as [Hm _]. unfold matching in Hm. cbn in Hm.
    rewrite andb_true_r, andb_true_r in Hm. now apply String.eqb_eq.
  - apply Sorted_take, Sorted_drop.
    apply Sorted_weaken with (R := fun a b => le a b = true).
    + intros a b. unfold le. cbn. apply Qle_bool_iff.
    + apply sort_by_sorted. intros a b. apply value_leb_total.
  - cbn [total pagination_of]. exact Hlen.
  - cbn [pages pagination_of]. rewrite Hlen. vm_compute. reflexivity.
Qed.
End SeedThenList.

(** ** Worked requests for the further properties *)

Section Worked.
Import JsNum Js Mongo Server Routes.

Local Abbreviation P0 := Sample.platform0.
Local Abbreviation handler_answer req :=
  (products_handler P0 Sample.catalogue req =
   respond 200 (ProductList (fst (Scenario.listing_of req))
                  (snd (Scenario.listing_of req)))).

(** X1 at Bob's registration: the user base grows by Bob, with the hash. *)
Lemma register_changes_store_only_on_201_witness :
  exists name email password,
    body (Sample.post Scenario.bob) !! "name" = Some name /\
    body (Sample.post Scenario.bob) !! "email" = Some email /\
    body (Sample.post Scenario.bob) !! "password" = Some password /\
    snd Scenario.registration =
    mkdb (users Sample.catalogue ++
          [User.mk (fresh_id Sample.noon) name email
             (bcrypt_hash P0 password 10 (salt Sample.noon)) (now Sample.noon)])
      (Mongo.products Sample.catalogue) (outage Sample.catalogue) /\
    payload (fst Scenario.registration) =
    MessageUser "User registered successfully" (fresh_id Sample.noon) name email.
Proof.
  destruct (register_changes_store_only_on_201 P0 None Sample.noon Sample.catalogue
              (Sample.post Scenario.bob) (fst Scenario.registration)
              (snd Scenario.registration)) as [H _];
    [vm_compute; reflexivity|].
  apply H. vm_compute. reflexivity.
Defined.

(** X2 at Bob's registration: Alice and Bob have different emails. *)
Lemma register_keeps_emails_unique_witness :
  NoDup (map User.email (users (snd Scenario.registration))).
Proof.
  apply (register_keeps_emails_unique P0 None Sample.noon Sample.catalogue
           (Sample.post Scenario.bob) (fst Scenario.registration)).
  - cbn. apply NoDup_singleton.
  - vm_compute. reflexivity.
Defined.

(** X3 at Bob's registration: the cookie is good one hour later and refused
    eight days later. *)
Lemma registration_session_lasts_7_days_witness :
  exists t,
    set_cookies (fst Scenario.registration) = [("token", t, cookieOptions)] /\
    authMiddleware P0 None (mkworld (1700000000000 + 3600000) "" "")
      (Sample.with_token t) =
    Next (set_userId (fresh_id Sample.noon) (Sample.with_token t)) /\
    authMiddleware P0 None (mkworld (1700000000000 + 8 * 86400000) "" "")
      (Sample.with_token t) =
    Respond (respond 401 (Message "Invalid token")).
Proof.
  destruct (registration_session_lasts_7_days P0 None Sample.noon Sample.catalogue
              (Sample.post Scenario.bob) (fst Scenario.registration)
              (snd Scenario.registration)) as (t & Hc & H);
    [vm_compute; reflexivity | vm_compute; reflexivity |].
  exists t. split; [exact Hc|]. split.
  - apply H; [apply lookup_singleton_eq | vm_compute; reflexivity].
  - apply H; [apply lookup_singleton_eq | vm_compute; discriminate].
Defined.

(** X4 at Alice's login (a 200 with the cookie) and at a login with a
    number for the password (no cookie). *)
Lemma login_cookie_only_on_success_witness :
  (exists t,
     Body.cookies_of
       (Body.login P0 None Body.email_other0 Sample.noon Sample.catalogue
          (Body.of_strings
             (list_to_map [("email", "alice@example.com");
                           ("password", "wonderland")]))) =
     [("token", t, cookieOptions)]) /\
  Body.cookies_of
    (Body.login P0 None Body.email_other0 Sample.noon Sample.catalogue
       (Body.number_password "alice@example.com")) = [].
Proof.
  split.
  - destruct (login_cookie_only_on_success P0 None Body.email_other0 Sample.noon
                Sample.catalogue
                (Body.of_strings
                   (list_to_map [("email", "alice@example.com");
                                 ("password", "wonderland")]))) as [H _].
    destruct H as (e & p & u & t & _ & _ & _ & _ & _ & Hr);
      [vm_compute; reflexivity|].
    exists t. rewrite Hr. reflexivity.
  - destruct (login_cookie_only_on_success P0 None Body.email_other0 Sample.noon
                Sample.catalogue (Body.number_password "alice@example.com"))
      as [_ H].
    destruct H as [Hc _]; [vm_compute; discriminate|]. exact Hc.
Defined.

(** X5 at Bob: registration, then login with the same credentials. *)
Lemma login_after_register_witness :
  exists name t,
    body (Sample.post Scenario.bob) !! "name" = Some name /\
    login P0 None Sample.noon (snd Scenario.registration)
      (Sample.post Scenario.bob_login) =
    with_cookie "token" t cookieOptions
      (respond 200 (MessageUser "Login successful" (fresh_id Sample.noon) name
                      "bob@example.com")).
Proof.
  apply (login_after_register P0 None Sample.noon Sample.noon Sample.catalogue
           (Sample.post Scenario.bob) (Sample.post Scenario.bob_login)
           (fst Scenario.registration) (snd Scenario.registration)
           "bob@example.com" "builder");
    vm_compute; reflexivity.
Defined.

(** X6 at Alice: her login cookie, an hour later, resolves to her document. *)
Lemma me_after_login_witness :
  exists t,
    set_cookies Scenario.alice_login = [("token", t, cookieOptions)] /\
    exists u,
      route_me P0 None (mkworld (1700000000000 + 3600000) "" "") Sample.catalogue
        (Sample.with_token t) =
      (["authMiddleware"; "me"],
       Some (respond 200 (UserDoc (select_minus_password u)))).
Proof.
  destruct (me_after_login P0 None Sample.noon Sample.catalogue
              (Sample.post [("email", "alice@example.com");
                            ("password", "wonderland")]))
    as (t & u & Hc & _ & _ & H).
  - vm_compute. reflexivity.
  - intros v Hv. apply list_elem_of_singleton in Hv. subst v. vm_compute. reflexivity.
  - intros v v' Hv Hv' _. apply list_elem_of_singleton in Hv, Hv'. congruence.
  - exists t. split; [exact Hc|]. exists u.
    apply H; [apply lookup_singleton_eq | vm_compute; reflexivity].
Defined.

(** X7 at the cookie of Alice's login. *)
Lemma logout_clears_the_session_cookie_witness :
  ("token", cookieOptions) ∈ cleared (logout (Sample.get [])).
Proof.
  pose (t := Jwt.Signed (Jwt.mk "65b000000000000000000001" 1700000000 (Some 1700604800))
               (hmac P0 (JWT_SECRET None)
                  (Jwt.mk "65b000000000000000000001" 1700000000 (Some 1700604800)))).
  destruct (logout_clears_the_session_cookie P0 None Sample.noon Sample.catalogue
              (Sample.post [("email", "alice@example.com");
                            ("password", "wonderland")])
              "token" t cookieOptions) with (req' := Sample.get []) as [_ H].
  - right. vm_compute. apply list_elem_of_here.
  - exact H.
Defined.

(** X8 at the first page by price. *)
Lemma page_not_longer_than_total_witness :
  (length (fst (Scenario.listing_of (Scenario.by_price "1"))) <=
   total (snd (Scenario.listing_of (Scenario.by_price "1"))))%nat.
Proof.
  apply (page_not_longer_than_total P0 Sample.catalogue (Scenario.by_price "1")).
  vm_compute. reflexivity.
Defined.

(** X9 at the first two pages by price: the four prices differ. *)
Lemma consecutive_pages_are_contiguous_witness :
  (fst (Scenario.listing_of (Scenario.by_price "1")) ++
   fst (Scenario.listing_of (Scenario.by_price "2")))%list =
  take (2 * Z.to_nat 2)
    (drop (Z.to_nat ((1 - 1) * 2))
       [Sample.banana; Sample.carrot; Sample.milk; Sample.apple]).
Proof.
  destruct (consecutive_pages_are_contiguous P0 Sample.catalogue
              (Scenario.by_price "1") (Scenario.by_price "2")
              (fst (Scenario.listing_of (Scenario.by_price "1")))
              (snd (Scenario.listing_of (Scenario.by_price "1")))
              (fst (Scenario.listing_of (Scenario.by_price "2")))
              (snd (Scenario.listing_of (Scenario.by_price "2"))) 1 2
              (fun p => SNumber (Product.price p))
              [Sample.banana; Sample.carrot; Sample.milk; Sample.apple])
    as (_ & _ & H).
  - vm_compute. reflexivity.
  - vm_compute. reflexivity.
  - intros k Hk. unfold Scenario.by_price, Sample.get.
    cbn [query list_to_map foldr fst snd].
    etransitivity; [apply lookup_insert_ne; congruence|].
    symmetry. apply lookup_insert_ne. congruence.
  - vm_compute. reflexivity.
  - vm_compute. reflexivity.
  - vm_compute. reflexivity.
  - lia.
  - lia.
  - lia.
  - vm_compute. reflexivity.
  - intros x y Hx Hy.
    assert (Hall : filter (fun d => Spec.satisfies P0 (query (Scenario.by_price "1")) d = true)
                     (Mongo.products Sample.catalogue) =
                   [Sample.apple; Sample.banana; Sample.carrot; Sample.milk])
      by (vm_compute; reflexivity).
    rewrite Hall in Hx, Hy.
    repeat (apply elem_of_cons in Hx as [->|Hx]); [ .. | now apply elem_of_nil in Hx ];
      (repeat (apply elem_of_cons in Hy as [->|Hy]); [ .. | now apply elem_of_nil in Hy ]);
      vm_compute; intros H1 H2; first [ reflexivity | discriminate ].
  - assert (Hall : filter (fun d => Spec.satisfies P0 (query (Scenario.by_price "1")) d = true)
                     (Mongo.products Sample.catalogue) =
                   [Sample.apple; Sample.banana; Sample.carrot; Sample.milk])
      by (vm_compute; reflexivity).
    rewrite Hall. symmetry. apply (Permutation_cons_app [_; _; _] []). reflexivity.
  - repeat first [ apply Sorted_cons | apply Sorted_nil | apply HdRel_cons
                 | apply HdRel_nil ]; vm_compute; reflexivity.
  - exact H.
Defined.

(** X10 at page 9 of a catalogue of four products, two a page: asked after
    page 1, it is answered 200 without items. *)
Lemma page_beyond_last_is_empty_witness :
  fst (Scenario.listing_of (Scenario.by_price "9")) = [] /\
  exists pg',
    products_handler P0 Sample.catalogue (Scenario.by_price "9") =
    respond 200 (ProductList [] pg') /\
    total pg' = total (snd (Scenario.listing_of (Scenario.by_price "1"))).
Proof.
  split.
  - destruct (page_beyond_last_is_empty P0 Sample.catalogue (Scenario.by_price "9")
                (fst (Scenario.listing_of (Scenario.by_price "9")))
                (snd (Scenario.listing_of (Scenario.by_price "9"))) 9 2) as [H _];
      [vm_compute; reflexivity | vm_compute; reflexivity | lia | lia | lia
      | vm_compute; discriminate |].
    apply H. vm_compute. reflexivity.
  - destruct (page_beyond_last_is_empty P0 Sample.catalogue (Scenario.by_price "1")
                (fst (Scenario.listing_of (Scenario.by_price "1")))
                (snd (Scenario.listing_of (Scenario.by_price "1"))) 9 2) as [_ H];
      [vm_compute; reflexivity | vm_compute; reflexivity | lia | lia | lia
      | vm_compute; discriminate |].
    apply (H (Scenario.by_price "9")); [|vm_compute; reflexivity].
    intros k Hk. unfold Scenario.by_price, Sample.get.
    cbn [query list_to_map foldr fst snd].
    etransitivity; [apply lookup_insert_ne; congruence|].
    symmetry. apply lookup_insert_ne. congruence.
Defined.

(** X11 at the first page by price: the prices do not decrease. *)
Lemma listing_is_sorted_by_scalar_key_witness :
  Sorted (fun x y => (Product.price x <= Product.price y)%Q)
    (fst (Scenario.listing_of (Scenario.by_price "1"))).
Proof.
  destruct (listing_is_sorted_by_scalar_key P0 Sample.catalogue (Scenario.by_price "1")
              (fst (Scenario.listing_of (Scenario.by_price "1")))
              (snd (Scenario.listing_of (Scenario.by_price "1")))
              (fun p => SNumber (Product.price p))) as [_ H];
    [vm_compute; reflexivity | vm_compute; reflexivity |].
  apply H. vm_compute. reflexivity.
Defined.

(** X12 at [?category=Fruits&minPrice=10&maxPrice=20]: Banana, at 12. *)
Lemma listing_items_satisfy_filters_witness :
  Product.category Sample.banana = "Fruits" /\
  (10 <= Product.price Sample.banana)%Q /\ (Product.price Sample.banana <= 20)%Q.
Proof.
  pose (req := Sample.get [("category", "Fruits"); ("minPrice", "10"); ("maxPrice", "20")]).
  destruct (listing_items_satisfy_filters P0 Sample.catalogue req
              (fst (Scenario.listing_of req)) (snd (Scenario.listing_of req))
              Sample.banana) as (_ & Hc & _ & Hlo & Hhi).
  - vm_compute. reflexivity.
  - vm_compute. apply list_elem_of_here.
  - split; [|split].
    + apply Hc; vm_compute; reflexivity.
    + apply (Hlo "10"); vm_compute; reflexivity.
    + apply (Hhi "20"); vm_compute; reflexivity.
Defined.

(** X13 at [?minPrice=30&maxPrice=10]. *)
Lemma inverted_price_range_is_empty_witness :
  fst (Scenario.listing_of (Sample.get [("minPrice", "30"); ("maxPrice", "10")])) = [] /\
  total (snd (Scenario.listing_of (Sample.get [("minPrice", "30"); ("maxPrice", "10")])))
  = 0%nat.
Proof.
  apply (inverted_price_range_is_empty P0 Sample.catalogue
           (Sample.get [("minPrice", "30"); ("maxPrice", "10")]) _ _ "30" "10" 30 10);
    vm_compute; reflexivity.
Defined.

(** X14 at [?search=an]: Banana is found. *)
Lemma search_finds_every_containing_product_witness :
  Sample.banana ∈ fst (Scenario.listing_of (Sample.get [("search", "an")])).
Proof.
  pose (req := Sample.get [("search", "an")]).
  destruct (search_finds_every_containing_product P0 Sample.catalogue req
              (fst (Scenario.listing_of req)) (snd (Scenario.listing_of req))
              Sample.banana (Product.name Sample.banana)) as (_ & _ & H);
    try (vm_compute; reflexivity).
  - vm_compute. apply list_elem_of_further, list_elem_of_here.
  - apply list_elem_of_here.
  - apply search_lits. vm_compute. reflexivity.
  - apply (H 8); [vm_compute; reflexivity | vm_compute; reflexivity |].
    vm_compute. split; [discriminate | reflexivity].
Defined.

(** X15 at [GET /api/products/latest?limit=2]. *)
Lemma latest_returns_at_most_limit_witness :
  length (Scenario.latest_of (Sample.get [("limit", "2")])) =
  Nat.min (Z.to_nat 2) (length (Mongo.products Sample.catalogue)).
Proof.
  destruct (latest_returns_at_most_limit P0 Sample.catalogue
              (Sample.get [("limit", "2")])
              (Scenario.latest_of (Sample.get [("limit", "2")]))) as (_ & H & _);
    [vm_compute; reflexivity|].
  apply H; [vm_compute; reflexivity | lia].
Defined.

(** X16 at the category Fruits of the sample catalogue. *)
Lemma listed_values_filter_to_their_products_witness :
  (1 <= total (snd (Scenario.listing_of (Sample.get [("category", "Fruits")]))))%nat /\
  total (snd (Scenario.listing_of (Sample.get [("category", "Fruits")]))) =
  length (filter (fun p => Product.category p = "Fruits")
            (Mongo.products Sample.catalogue)).
Proof.
  pose (lreq := Sample.get [("category", "Fruits")]).
  destruct (listed_values_filter_to_their_products P0 Sample.catalogue (Sample.get [])
              Scenario.listed_categories "Fruits" lreq
              (fst (Scenario.listing_of lreq)) (snd (Scenario.listing_of lreq)))
    as [H _]; try (vm_compute; reflexivity).
  destruct H as (_ & H1 & H2); try (vm_compute; reflexivity).
  split; [exact H1|]. apply H2. vm_compute. reflexivity.
Defined.

(** X17 at Banana's id in upper case. *)
Lemma product_found_by_its_id_witness :
  product_handler P0 Sample.catalogue (Sample.get_id "65A000000000000000000002") =
  respond 200 (ProductDoc Sample.banana).
Proof.
  apply (product_found_by_its_id P0 Sample.catalogue
           (Sample.get_id "65A000000000000000000002") "65A000000000000000000002");
    try (vm_compute; reflexivity).
  - vm_compute. apply list_elem_of_further, list_elem_of_here.
  - intros d Hd Heq.
    repeat (apply elem_of_cons in Hd as [->|Hd]); [ .. | now apply elem_of_nil in Hd ];
      first [ reflexivity | vm_compute in Heq; discriminate Heq ].
Defined.

(** X18 at an empty catalogue, which is filled, and at the sample catalogue,
    which is left as it is. *)
Lemma startup_seeds_only_an_empty_catalogue_witness :
  Mongo.products (startup P0 [Sample.apple] Scenario.empty_catalogue) = [Sample.apple] /\
  startup P0 [Sample.apple] Sample.catalogue = Sample.catalogue.
Proof.
  split.
  - destruct (startup_seeds_only_an_empty_catalogue P0 [Sample.apple]
                Scenario.empty_catalogue) as (_ & _ & H & _).
    apply H; vm_compute; reflexivity.
  - destruct (startup_seeds_only_an_empty_catalogue P0 [Sample.apple]
                Sample.catalogue) as (_ & H & _).
    apply H. vm_compute. discriminate.
Defined.

(** X19 at a seeding of the sample catalogue. *)
Lemma seed_replaces_the_catalogue_witness :
  seed Scenario.draws0 Sample.catalogue (Sample.post []) =
  (answer 200 (MessageCount "Database seeded successfully" 50),
   mkdb (users Sample.catalogue) (seed_products Scenario.draws0) None).
Proof.
  destruct (seed_replaces_the_catalogue Scenario.draws0 Sample.catalogue
              (Sample.post [])) as [H _].
  destruct H as [H _]; [reflexivity | exact H].
Defined.

Lemma draws0_in_range (k : nat) :
  (0 <= random Scenario.draws0 k)%Q /\ (random Scenario.draws0 k < 1)%Q.
Proof.
  cbn [random Scenario.draws0]. pose proof (Nat.mod_upper_bound k 10 ltac:(lia)).
  split; unfold Qle, Qlt; cbn [Qnum Qden]; lia.
Defined.

(** X20 at the first product of a seeding with the sample draws. *)
Lemma seeded_products_are_in_range_witness :
  (3 <= Product.rating (seed_product Scenario.draws0 0))%Q /\
  (Product.rating (seed_product Scenario.draws0 0) <= 5)%Q.
Proof.
  destruct (seeded_products_are_in_range Scenario.draws0
              (seed_product Scenario.draws0 0) draws0_in_range)
    as (_ & _ & _ & _ & H).
  - apply list_elem_of_here.
  - exact H.
Defined.

(** X21 at a seeding of the sample catalogue. *)
Lemma seeded_fruits_first_page_witness :
  exists products pg,
    products_handler P0 (snd (seed Scenario.draws0 Sample.catalogue (Sample.post [])))
      Scenario.fruits_page = respond 200 (ProductList products pg) /\
    length products = 5%nat /\ total pg = 7%nat.
Proof.
  destruct (seeded_fruits_first_page P0 Scenario.draws0 Sample.catalogue
              (Sample.post []) eq_refl) as (products & pg & Hok & Hlen & _ & _ & Ht & _).
  exists products, pg. repeat split; assumption.
Defined.
End Worked.
